(** * scrape_javadoc: a shallow embedding of docs/scrape_javadoc.py

    The script crawls a documentation site below a root prefix, turns
    every page into normalised plain text and mirrors the site as text
    files.  This development embeds its functions and settles the
    properties stated about them.

    Conventions of the embedding.
    - A Python [str] is a list of code points.  Code points are the
      8-bit ones (U+0000 to U+00FF), for which the whitespace and case
      tables of CPython are written out in full below.
    - An exception is a [None] (or a dedicated constructor) in the
      result; nothing is assumed about what is raised beyond the fact
      of raising.
    - Calls into the standard library ([str] methods, [re.sub] on the
      three fixed patterns, [pathlib], [urllib.parse]) and into the
      two third-party packages ([requests], [bs4]) are given their
      documented meaning in modules named after the library. *)

From Stdlib Require Import ZArith Ascii String List Bool Lia.
From stdpp Require Import gmap strings list.

Set Warnings "-register-all".

Abbreviation pystr := (list ascii).

(** A [str] literal. *)
Definition str (s : string) : pystr := list_ascii_of_string s.

Definition SP : ascii := " "%char.
Definition TAB : ascii := "009"%char.
Definition NL : ascii := "010"%char.
Definition CR : ascii := "013"%char.

(** ** Python's [str] methods *)
Module Py.

(** [str.isspace] of one code point: the Unicode White_Space and
    bidirectional-separator characters below U+0100. *)
Definition isspace (c : ascii) : bool :=
  let n := nat_of_ascii c in
  ((9 <=? n) && (n <=? 13)) || ((28 <=? n) && (n <=? 32))
  || (n =? 133) || (n =? 160).

(** [str.lower] of one code point: A-Z, and the Latin-1 capitals
    U+00C0..U+00DE except the multiplication sign U+00D7. *)
Definition lower_char (c : ascii) : ascii :=
  let n := nat_of_ascii c in
  if ((65 <=? n) && (n <=? 90))
     || ((192 <=? n) && (n <=? 222) && negb (n =? 215))
  then ascii_of_nat (n + 32) else c.

Definition lower (s : pystr) : pystr := map lower_char s.

(** [s.startswith(p)] *)
Fixpoint startswith (s p : pystr) {struct p} : bool :=
  match p, s with
  | [], _ => true
  | _ :: _, [] => false
  | a :: p', b :: s' => Ascii.eqb a b && startswith s' p'
  end.

(** [s.endswith(p)] *)
Definition endswith (s p : pystr) : bool := startswith (rev s) (rev p).

(** [p in s] for strings: [p] occurs as a contiguous substring. *)
Fixpoint contains (s p : pystr) : bool :=
  startswith s p ||
  match s with
  | [] => false
  | _ :: s' => contains s' p
  end.

(** [s.lstrip()], [s.rstrip()], [s.strip()] without argument. *)
Fixpoint lstrip (s : pystr) : pystr :=
  match s with
  | [] => []
  | c :: s' => if isspace c then lstrip s' else s
  end.

Definition rstrip (s : pystr) : pystr := rev (lstrip (rev s)).

Definition strip (s : pystr) : pystr := rstrip (lstrip s).

(** [s.replace(old, new)] for a non-empty [old]: occurrences are taken
    left to right and do not overlap.  [skip] counts the characters of
    an occurrence that are still to be passed over. *)
Fixpoint replace_from (old new : pystr) (skip : nat) (s : pystr) : pystr :=
  match s with
  | [] => []
  | c :: s' =>
      match skip with
      | S k => replace_from old new k s'
      | O =>
          if startswith s old
          then new ++ replace_from old new (length old - 1) s'
          else c :: replace_from old new 0 s'
      end
  end.

Definition replace (old new s : pystr) : pystr := replace_from old new 0 s.

(** [sep.join(parts)] *)
Fixpoint join (sep : pystr) (parts : list pystr) : pystr :=
  match parts with
  | [] => []
  | [p] => p
  | p :: ps => p ++ sep ++ join sep ps
  end.

(** [s.split(sep, 1)[0]] for a one-character [sep]: the part before
    the first [sep], the whole string when there is none. *)
Fixpoint before_first (sep : ascii) (s : pystr) : pystr :=
  match s with
  | [] => []
  | c :: s' => if Ascii.eqb c sep then [] else c :: before_first sep s'
  end.

(** [s.split(sep)] for a one-character [sep]. *)
Fixpoint split (sep : ascii) (s : pystr) : list pystr :=
  match s with
  | [] => [[]]
  | c :: s' =>
      if Ascii.eqb c sep then [] :: split sep s'
      else match split sep s' with
           | [] => [[c]]
           | w :: ws => (c :: w) :: ws
           end
  end.

End Py.

(** ** The three substitutions of [normalize]

    Each [re.sub] of the source has a fixed pattern; it is embedded as
    the left-to-right scan that the regular-expression engine performs
    for that pattern (leftmost match, greedy repetition, matches do not
    overlap). *)
Module Re.

Definition is_hspace (c : ascii) : bool := Ascii.eqb c SP || Ascii.eqb c TAB.

(** [re.sub(r"[ \t]+", " ", s)]: a maximal run of blanks and tabs is
    one match.  [in_run] says that the match containing the previous
    character is still open. *)
Fixpoint sub_hspace_from (in_run : bool) (s : pystr) : pystr :=
  match s with
  | [] => []
  | c :: s' =>
      if is_hspace c
      then (if in_run then sub_hspace_from true s'
            else SP :: sub_hspace_from true s')
      else c :: sub_hspace_from false s'
  end.

Definition sub_hspace (s : pystr) : pystr := sub_hspace_from false s.

(** [re.sub(r" *\n *", "\n", s)]: a match is a newline with all the
    blanks before and after it.  [pend] counts blanks read but not
    yet attributed (they belong to a match if a newline follows them,
    and are copied otherwise); [after_nl] says that a match is open
    and swallowing the blanks that follow its newline. *)
Fixpoint sub_nl_pad_from (after_nl : bool) (pend : nat) (s : pystr) : pystr :=
  match s with
  | [] => repeat SP pend
  | c :: s' =>
      if Ascii.eqb c SP then
        (if after_nl then sub_nl_pad_from true 0 s'
         else sub_nl_pad_from false (S pend) s')
      else if Ascii.eqb c NL then NL :: sub_nl_pad_from true 0 s'
      else repeat SP pend ++ c :: sub_nl_pad_from false 0 s'
  end.

Definition sub_nl_pad (s : pystr) : pystr := sub_nl_pad_from false 0 s.

(** [re.sub(r"\n{3,}", "\n\n", s)]: a maximal run of newlines is a
    match when it has three or more of them.  [run] is the length of
    the run of newlines read so far; [flush_nl] writes a finished
    run. *)
Definition flush_nl (run : nat) : pystr :=
  if 3 <=? run then [NL; NL] else repeat NL run.

Fixpoint sub_nl3_from (run : nat) (s : pystr) : pystr :=
  match s with
  | [] => flush_nl run
  | c :: s' =>
      if Ascii.eqb c NL then sub_nl3_from (S run) s'
      else flush_nl run ++ c :: sub_nl3_from 0 s'
  end.

Definition sub_nl3 (s : pystr) : pystr := sub_nl3_from 0 s.

(** A one-pass form of [sub_nl3_from] that copies the first two
    newlines of a run and drops the others; [ReFacts.sub_nl3_stream]
    relates the two. *)
Fixpoint cap_nl (run : nat) (s : pystr) : pystr :=
  match s with
  | [] => []
  | c :: s' =>
      if Ascii.eqb c NL
      then (if run <? 2 then NL :: cap_nl (S run) s' else cap_nl (S run) s')
      else c :: cap_nl 0 s'
  end.

End Re.

(** ** [normalize] (source lines 26-31)

    [pipeline] is the four substitutions of lines 27-30; line 31 strips
    the result and appends the final newline. *)
Definition pipeline (s : pystr) : pystr :=
  let s := Py.replace [CR] [NL] (Py.replace [CR; NL] [NL] s) in
  let s := Re.sub_hspace s in
  let s := Re.sub_nl_pad s in
  Re.sub_nl3 s.

Definition normalize (s : pystr) : pystr := Py.strip (pipeline s) ++ [NL].

(** ** [pathlib.PurePosixPath]

    [Path] is [PosixPath] where the script runs.  A path is its root (empty, one slash or two) and the list of its
    components after the root; the drive is always empty on POSIX.
    [parts] of Python is the root, when there is one, followed by
    [names]. *)
Module Pathlib.

Definition SLASH : ascii := "/"%char.
Definition DOT : ascii := "."%char.

Record PurePath := { root : pystr; names : list pystr }.

#[export] Instance PurePath_eq_dec : EqDecision PurePath.
Proof. solve_decision. Defined.

(** [s.lstrip(c)] for one character. *)
Fixpoint lstrip_char (c : ascii) (s : pystr) : pystr :=
  match s with
  | [] => []
  | x :: s' => if Ascii.eqb x c then lstrip_char c s' else s
  end.

(** [_PosixFlavour.splitroot]: exactly two leading slashes are kept
    as a root of their own, any other number is one slash. *)
Definition splitroot (part : pystr) : pystr * pystr :=
  if Py.startswith part [SLASH] then
    let stripped := lstrip_char SLASH part in
    if length part - length stripped =? 2
    then ([SLASH; SLASH], stripped)
    else ([SLASH], stripped)
  else ([], part).

(** Components that [parse_parts] keeps: not empty and not ["."]. *)
Definition keeps (x : pystr) : bool :=
  negb (bool_decide (x = [])) && negb (bool_decide (x = [DOT])).

(** [PurePosixPath(s)] for one string argument. *)
Definition parse (s : pystr) : PurePath :=
  let '(rt, rel) := splitroot s in
  {| root := rt; names := List.filter keeps (Py.split SLASH rel) |}.

(** [p.name]: the last component, empty when there is none. *)
Definition name (p : PurePath) : pystr := List.last (names p) [].

(** [s.rfind(c)], [None] for -1. *)
Fixpoint rfind (c : ascii) (s : pystr) : option nat :=
  match s with
  | [] => None
  | x :: s' =>
      match rfind c s' with
      | Some i => Some (S i)
      | None => if Ascii.eqb x c then Some 0 else None
      end
  end.

(** The position at which the suffix of a file name starts: the last
    dot, unless it is the first or the last character. *)
Definition suffix_start (nm : pystr) : option nat :=
  match rfind DOT nm with
  | Some i => if (0 <? i) && (i <? length nm - 1) then Some i else None
  | None => None
  end.

(** [p.suffix] and [p.stem]. *)
Definition suffix (p : PurePath) : pystr :=
  match suffix_start (name p) with
  | Some i => drop i (name p)
  | None => []
  end.

Definition stem (p : PurePath) : pystr :=
  match suffix_start (name p) with
  | Some i => take i (name p)
  | None => name p
  end.

(** [p.with_suffix(sfx)]; [None] stands for [ValueError]. *)
Definition with_suffix (p : PurePath) (sfx : pystr) : option PurePath :=
  if Py.contains sfx [SLASH] then None
  else if (negb (bool_decide (sfx = [])) && negb (Py.startswith sfx [DOT]))
          || bool_decide (sfx = [DOT]) then None
  else
    let nm := name p in
    if bool_decide (nm = []) then None
    else
      let old_suffix := suffix p in
      let nm' :=
        if bool_decide (old_suffix = []) then nm ++ sfx
        else take (length nm - length old_suffix) nm ++ sfx in
      Some {| root := root p; names := removelast (names p) ++ [nm'] |}.

(** [a / b] for two paths: a rooted [b] replaces [a]. *)
Definition joinpath (a b : PurePath) : PurePath :=
  if bool_decide (root b = []) then
    {| root := root a; names := names a ++ names b |}
  else b.

(** The list that [relative_to] compares: the empty drive and the
    root count as two entries of a rooted path. *)
Definition abs_parts (p : PurePath) : list pystr :=
  if bool_decide (root p = []) then names p else [] :: root p :: names p.

(** [p.relative_to(other)]; [None] stands for [ValueError]. *)
Definition relative_to (p other : PurePath) : option PurePath :=
  let n := length (abs_parts other) in
  if (if n =? 0 then negb (bool_decide (root p = []))
      else negb (bool_decide (take n (abs_parts p) = abs_parts other)))
  then None
  else Some {| root := if n =? 1 then root p else [];
               names := drop n (abs_parts p) |}.

(** [str(p)]. *)
Definition to_str (p : PurePath) : pystr :=
  match root p ++ Py.join [SLASH] (names p) with
  | [] => [DOT]
  | s => s
  end.

(** Lexical containment, used to say where a path points: [dotdot]
    resolves the [".."] components of a list of names against the
    names before them (a [".."] at the top stays at the top), and a
    path is [inside] a directory when, after that, it has the names of
    the directory in front and at least one more. *)
Fixpoint dotdot (acc : list pystr) (l : list pystr) : list pystr :=
  match l with
  | [] => rev acc
  | x :: l' =>
      if bool_decide (x = [DOT; DOT]) then dotdot (tl acc) l'
      else dotdot (x :: acc) l'
  end.

Definition inside (dir p : PurePath) : bool :=
  let d := dotdot [] (names dir) in
  let n := dotdot [] (names p) in
  bool_decide (root p = root dir)
  && (length d <? length n) && bool_decide (take (length d) n = d).

End Pathlib.

(** ** [url_to_outpath] (source lines 159-172) *)
Definition HTML_SUFFIXES : list pystr := [str ".html"; str ".htm"].

Definition url_to_outpath (url root : pystr) (outdir : Pathlib.PurePath)
  : option Pathlib.PurePath :=
  let rel := drop (length root) url in
  let rel :=
    if bool_decide (rel = []) || Py.endswith rel (str "/")
    then rel ++ str "index.html" else rel in
  let rel := Py.before_first "?" rel in
  let rel_path := Pathlib.parse rel in
  let renamed :=
    if bool_decide (Py.lower (Pathlib.suffix rel_path) ∈ HTML_SUFFIXES)
    then Pathlib.with_suffix rel_path (str ".txt")
    else Pathlib.with_suffix rel_path (Pathlib.suffix rel_path ++ str ".txt") in
  match renamed with
  | Some rel_path' => Some (Pathlib.joinpath outdir rel_path')
  | None => None
  end.

(** ** [urllib.parse]

    [urlsplit], [urlparse], [urlunsplit], [urlunparse], [urljoin] and
    [urldefrag] of CPython 3.11 on [str] arguments, with the default
    [allow_fragments=True].  [None] stands for [ValueError].  The
    validation of a bracketed host (an IPv6 or IPvFuture literal) is
    the parameter [check_bracketed_host]; on the 8-bit code points the
    NFKC check of [_checknetloc] never fails and is omitted. *)
Module Urllib.

Definition uses_relative : list pystr :=
  map str [""; "ftp"; "http"; "gopher"; "nntp"; "imap"; "wais"; "file";
           "https"; "shttp"; "mms"; "prospero"; "rtsp"; "rtspu"; "sftp";
           "svn"; "svn+ssh"; "ws"; "wss"]%string.

Definition uses_netloc : list pystr :=
  map str [""; "ftp"; "http"; "gopher"; "nntp"; "telnet"; "imap"; "wais";
           "file"; "mms"; "https"; "shttp"; "snews"; "prospero"; "rtsp";
           "rtspu"; "rsync"; "svn"; "svn+ssh"; "sftp"; "nfs"; "git";
           "git+ssh"; "ws"; "wss"]%string.

Definition uses_params : list pystr :=
  map str [""; "ftp"; "hdl"; "prospero"; "http"; "imap"; "https"; "shttp";
           "rtsp"; "rtspu"; "sip"; "sips"; "mms"; "sftp"; "tel"]%string.

Definition scheme_chars : pystr :=
  str "abcdefghijklmnopqrstuvwxyzABCDEFGHIJKLMNOPQRSTUVWXYZ0123456789+-.".

Record SplitResult := {
  s_scheme : pystr; s_netloc : pystr; s_path : pystr;
  s_query : pystr; s_fragment : pystr }.

Record ParseResult := {
  scheme : pystr; netloc : pystr; path : pystr;
  params : pystr; query : pystr; fragment : pystr }.

(** [c in s] for one character. *)
Definition has (c : ascii) (s : pystr) : bool := existsb (Ascii.eqb c) s.

(** [s.partition(c)]: the text before the first [c] and, when there
    is a [c], the text after it. *)
Fixpoint partition (c : ascii) (s : pystr) : pystr * option pystr :=
  match s with
  | [] => ([], None)
  | x :: s' =>
      if Ascii.eqb x c then ([], Some s')
      else let '(a, b) := partition c s' in (x :: a, b)
  end.

(** [s.rpartition(c)[2]]: the text after the last [c]. *)
Fixpoint after_last (c : ascii) (s : pystr) : pystr :=
  match s with
  | [] => []
  | x :: s' => if has c s' then after_last c s'
               else if Ascii.eqb x c then s' else s
  end.

(** [url.lstrip(_WHATWG_C0_CONTROL_OR_SPACE)] *)
Fixpoint lstrip_c0 (s : pystr) : pystr :=
  match s with
  | [] => []
  | c :: s' => if nat_of_ascii c <=? 32 then lstrip_c0 s' else s
  end.

Definition strip_c0 (s : pystr) : pystr := rev (lstrip_c0 (rev (lstrip_c0 s))).

(** Removal of the characters of [_UNSAFE_URL_BYTES_TO_REMOVE]. *)
Definition remove_unsafe (s : pystr) : pystr :=
  List.filter (fun c => negb (Ascii.eqb c TAB || Ascii.eqb c CR || Ascii.eqb c NL)) s.

Definition is_ascii_alpha (c : ascii) : bool :=
  let n := nat_of_ascii c in
  ((65 <=? n) && (n <=? 90)) || ((97 <=? n) && (n <=? 122)).

(** [_splitnetloc(url, 2)] on a [url] that starts with two slashes:
    the host part ends at the first of [/], [?], [#]. *)
Fixpoint span_netloc (s : pystr) : pystr * pystr :=
  match s with
  | [] => ([], [])
  | c :: s' =>
      if Ascii.eqb c "/" || Ascii.eqb c "?" || Ascii.eqb c "#" then ([], s)
      else let '(a, b) := span_netloc s' in (c :: a, b)
  end.

Section WithHostCheck.

(** [_check_bracketed_host]: [true] when the host is accepted. *)
Variable check_bracketed_host : pystr -> bool.

(** [_check_bracketed_netloc]: [true] when nothing is raised. *)
Definition check_bracketed_netloc (nl : pystr) : bool :=
  let hostname_and_port := after_last "@" nl in
  match partition "[" hostname_and_port with
  | (before_bracket, Some bracketed) =>
      if negb (bool_decide (before_bracket = [])) then false
      else
        let '(hostname, port) := partition "]" bracketed in
        match port with
        | Some (c :: _) =>
            if Ascii.eqb c ":" then check_bracketed_host hostname else false
        | _ => check_bracketed_host hostname
        end
  | (_, None) => check_bracketed_host (fst (partition ":" hostname_and_port))
  end.

Definition urlsplit (url scheme0 : pystr) : option SplitResult :=
  let url := remove_unsafe (lstrip_c0 url) in
  let scheme0 := remove_unsafe (strip_c0 scheme0) in
  let '(sch, url) :=
    match partition ":" url with
    | (c :: pre, Some rest) =>
        if is_ascii_alpha c && forallb (fun x => has x scheme_chars) (c :: pre)
        then (Py.lower (c :: pre), rest) else (scheme0, url)
    | _ => (scheme0, url)
    end in
  let '(nl, url) :=
    if Py.startswith url (str "//") then span_netloc (drop 2 url)
    else ([], url) in
  if (has "[" nl && negb (has "]" nl)) || (has "]" nl && negb (has "[" nl))
  then None
  else if has "[" nl && has "]" nl && negb (check_bracketed_netloc nl)
  then None
  else
    let '(url, frag) := partition "#" url in
    let '(url, qry) := partition "?" url in
    Some {| s_scheme := sch; s_netloc := nl; s_path := url;
            s_query := default [] qry; s_fragment := default [] frag |}.

(** [_splitparams]: the parameters start at the first semicolon of
    the last path segment. *)
Definition splitparams (url : pystr) : pystr * pystr :=
  if has "/" url then
    let last_seg := after_last "/" url in
    let dir := take (length url - length last_seg) url in
    match partition ";" last_seg with
    | (a, Some b) => (dir ++ a, b)
    | (_, None) => (url, [])
    end
  else
    match partition ";" url with
    | (a, Some b) => (a, b)
    | (_, None) => (url, [])
    end.

Definition urlparse (url scheme0 : pystr) : option ParseResult :=
  match urlsplit url scheme0 with
  | None => None
  | Some r =>
      let '(p, prm) :=
        if bool_decide (s_scheme r ∈ uses_params) && has ";" (s_path r)
        then splitparams (s_path r) else (s_path r, []) in
      Some {| scheme := s_scheme r; netloc := s_netloc r; path := p;
              params := prm; query := s_query r; fragment := s_fragment r |}
  end.

Definition urlunsplit (sch nl url qry frag : pystr) : pystr :=
  let url :=
    if negb (bool_decide (nl = []))
       || (negb (bool_decide (sch = [])) && bool_decide (sch ∈ uses_netloc)
           && negb (Py.startswith url (str "//")))
    then
      let url := if negb (bool_decide (url = [])) && negb (Py.startswith url (str "/"))
                 then str "/" ++ url else url in
      str "//" ++ nl ++ url
    else url in
  let url := if bool_decide (sch = []) then url else sch ++ str ":" ++ url in
  let url := if bool_decide (qry = []) then url else url ++ str "?" ++ qry in
  if bool_decide (frag = []) then url else url ++ str "#" ++ frag.

Definition urlunparse (sch nl url prm qry frag : pystr) : pystr :=
  let url := if bool_decide (prm = []) then url else url ++ str ";" ++ prm in
  urlunsplit sch nl url qry frag.

(** The loop of [urljoin] over the path segments. *)
Fixpoint resolve_segments (resolved : list pystr) (segments : list pystr)
  : list pystr :=
  match segments with
  | [] => resolved
  | seg :: rest =>
      if bool_decide (seg = str "..") then resolve_segments (removelast resolved) rest
      else if bool_decide (seg = str ".") then resolve_segments resolved rest
      else resolve_segments (resolved ++ [seg]) rest
  end.

(** [segments[1:-1] = filter(None, segments[1:-1])] *)
Definition drop_inner_empty (segments : list pystr) : list pystr :=
  match segments with
  | [] => []
  | [a] => [a]
  | a :: rest =>
      a :: List.filter (fun x => negb (bool_decide (x = []))) (removelast rest)
        ++ [List.last rest []]
  end.

Definition urljoin (base url : pystr) : option pystr :=
  if bool_decide (base = []) then Some url
  else if bool_decide (url = []) then Some base
  else
    match urlparse base [] with
    | None => None
    | Some b =>
        match urlparse url (scheme b) with
        | None => None
        | Some u =>
            if negb (bool_decide (scheme u = scheme b))
               || negb (bool_decide (scheme u ∈ uses_relative))
            then Some url
            else if bool_decide (scheme u ∈ uses_netloc)
                    && negb (bool_decide (netloc u = []))
            then Some (urlunparse (scheme u) (netloc u) (path u) (params u)
                                  (query u) (fragment u))
            else
              let nl := if bool_decide (scheme u ∈ uses_netloc)
                        then netloc b else netloc u in
              if bool_decide (path u = []) && bool_decide (params u = [])
              then
                let qry := if bool_decide (query u = []) then query b
                           else query u in
                Some (urlunparse (scheme u) nl (path b) (params b) qry
                                 (fragment u))
              else
                let base_parts := Py.split "/" (path b) in
                let base_parts :=
                  if bool_decide (List.last base_parts [] = []) then base_parts
                  else removelast base_parts in
                let segments :=
                  if Py.startswith (path u) (str "/") then Py.split "/" (path u)
                  else drop_inner_empty (base_parts ++ Py.split "/" (path u)) in
                let resolved := resolve_segments [] segments in
                let resolved :=
                  if bool_decide (List.last segments [] ∈ [str "."; str ".."])
                  then resolved ++ [[]] else resolved in
                let joined := Py.join (str "/") resolved in
                let joined := if bool_decide (joined = []) then str "/"
                              else joined in
                Some (urlunparse (scheme u) nl joined (params u) (query u)
                                 (fragment u))
        end
    end.

(** [urldefrag(url)[0]] *)
Definition urldefrag (url : pystr) : option pystr :=
  if has "#" url then
    match urlparse url [] with
    | None => None
    | Some r => Some (urlunparse (scheme r) (netloc r) (path r) (params r)
                                 (query r) [])
    end
  else Some url.

End WithHostCheck.

End Urllib.

(** ** [requests]

    What [session.get] hands back is a response, of which the script
    reads the status code and the decoded body. *)
Module Requests.

Record Response := { status_code : Z; text : pystr }.

(** [Response.raise_for_status] raises [HTTPError] for the client
    errors 400-499 and the server errors 500-599, and for nothing
    else; [true] stands for raising. *)
Definition raise_for_status (r : Response) : bool :=
  ((400 <=? status_code r) && (status_code r <? 500))%Z
  || ((500 <=? status_code r) && (status_code r <? 600))%Z.

End Requests.

(** ** [fetch] (source lines 186-189)

    [session] is the outcome of the call [session.get(url,
    timeout=timeout, headers=...)]: a response, or [None] when the
    call raises (connection error, timeout, invalid URL).  [fetch]
    returns the body, or [None] when it raises. *)
Definition fetch (session : pystr -> Z -> option Requests.Response)
    (url : pystr) (timeout : Z) : option pystr :=
  match session url timeout with
  | None => None
  | Some r =>
      if Requests.raise_for_status r then None
      else Some (Requests.text r)
  end.

(** ** [bs4]

    The parse tree of BeautifulSoup.  A string of the tree is a
    [NavigableString]; its kind tells the class: [Plain] for
    [NavigableString] itself, [CData] for that subclass, [Special]
    for the other subclasses ([Comment], [Declaration], [Doctype],
    [ProcessingInstruction]), which [get_text] leaves out.  The value
    of an attribute is a string, or a list of strings for the
    multi-valued attributes such as [class].  The document itself is
    the tag named ["[document]"]. *)
Module Bs4.

Inductive strkind := Plain | CData | Special.

Inductive attrval :=
| AttrStr (s : pystr)
| AttrList (l : list pystr).

Inductive node :=
| NavigableString (k : strkind) (s : pystr)
| Tag (name : pystr) (attrs : list (pystr * attrval)) (children : list node).

#[export] Instance strkind_eq_dec : EqDecision strkind.
Proof. solve_decision. Defined.

#[export] Instance attrval_eq_dec : EqDecision attrval.
Proof. solve_decision. Defined.

(** [tag.get(key)] *)
Fixpoint get (key : pystr) (attrs : list (pystr * attrval)) : option attrval :=
  match attrs with
  | [] => None
  | (k, v) :: rest => if bool_decide (k = key) then Some v else get key rest
  end.

Definition attrs_of (n : node) : list (pystr * attrval) :=
  match n with
  | NavigableString _ _ => []
  | Tag _ a _ => a
  end.

Definition is_tag_named (names : list pystr) (n : node) : bool :=
  match n with
  | NavigableString _ _ => false
  | Tag nm _ _ => bool_decide (nm ∈ names)
  end.

(** [tag.descendants]: everything below the tag, in document order. *)
Fixpoint descendants (n : node) : list node :=
  match n with
  | NavigableString _ _ => []
  | Tag _ _ cs =>
      (fix go (l : list node) : list node :=
         match l with
         | [] => []
         | c :: l' => c :: descendants c ++ go l'
         end) cs
  end.

(** [tag.find_all(names)] and [tag.find_all(names, attrs)], where
    [cond] is the condition on the attributes. *)
Definition find_all (names : list pystr)
    (cond : list (pystr * attrval) -> bool) (n : node) : list node :=
  List.filter (fun d => is_tag_named names d && cond (attrs_of d))
              (descendants n).

(** [tag.find(...)]: the first match, if any. *)
Definition find (names : list pystr)
    (cond : list (pystr * attrval) -> bool) (n : node) : option node :=
  head (find_all names cond n).

Definition any_attrs (a : list (pystr * attrval)) : bool := true.

(** [attrs={key: value}] with a string [value]: a string attribute
    matches when equal; a multi-valued one when one of its values is
    equal, or the values joined by blanks are. *)
Definition attr_is (key value : pystr) (a : list (pystr * attrval)) : bool :=
  match get key a with
  | None => false
  | Some (AttrStr s) => bool_decide (s = value)
  | Some (AttrList l) =>
      bool_decide (value ∈ l) || bool_decide (Py.join [SP] l = value)
  end.

(** [key=True]: the attribute is present. *)
Definition attr_present (key : pystr) (a : list (pystr * attrval)) : bool :=
  match get key a with
  | None => false
  | Some _ => true
  end.

(** The strings that [get_text] sees below a tag. *)
Definition text_strings (n : node) : list pystr :=
  omap (fun d => match d with
                 | NavigableString Plain s => Some s
                 | NavigableString CData s => Some s
                 | _ => None
                 end) (descendants n).

(** [tag.get_text(sep, strip=strip)] *)
Definition get_text (sep : pystr) (strip : bool) (n : node) : pystr :=
  Py.join sep
    (if strip
     then List.filter (fun s => negb (bool_decide (s = [])))
                      (map Py.strip (text_strings n))
     else text_strings n).

End Bs4.

(** ** The text transducer (source lines 17-157) *)
Definition JUNK_TAGS : list pystr := map str ["script"; "style"; "noscript"]%string.

Definition SKIP_EXT : list pystr :=
  map str [".css"; ".js"; ".png"; ".jpg"; ".jpeg"; ".gif"; ".svg"; ".ico";
           ".woff"; ".woff2"; ".ttf"; ".eot"; ".zip"; ".jar"; ".war";
           ".pdf"]%string.

(** [pick_main_content] (lines 45-64).  A tag is always true in a
    condition, so the first match of each search is taken. *)
Definition pick_main_content (soup : Bs4.node) : Bs4.node :=
  let searches : list (option Bs4.node) :=
    [ Bs4.find [str "main"] Bs4.any_attrs soup;
      Bs4.find [str "div"] (Bs4.attr_is (str "class") (str "contentContainer")) soup;
      Bs4.find [str "div"] (Bs4.attr_is (str "class") (str "content")) soup;
      Bs4.find [str "div"] (Bs4.attr_is (str "id") (str "content")) soup;
      Bs4.find [str "article"] Bs4.any_attrs soup;
      Bs4.find [str "body"] Bs4.any_attrs soup ] in
  default soup (head (omap id searches)).

(** [table_to_text] (lines 66-75) *)
Definition row_cells (tr : Bs4.node) : list pystr :=
  map (Bs4.get_text [SP] true)
      (Bs4.find_all [str "th"; str "td"] Bs4.any_attrs tr).

Definition table_rows (table : Bs4.node) : list pystr :=
  map (Py.join (str " | "))
      (List.filter (fun cells => negb (bool_decide (cells = [])))
         (map row_cells (Bs4.find_all [str "tr"] Bs4.any_attrs table))).

Definition table_to_text (table : Bs4.node) : pystr :=
  Py.join [NL] (table_rows table).

(** [emit] (lines 87-89): the empty text is not recorded. *)
Definition emit (txt : pystr) : list pystr :=
  if bool_decide (txt = []) then [] else [txt].

Definition NAV_CLASSES : list pystr :=
  map str ["navbar"; "navlist"; "header"; "footer"; "side"; "sidebar";
           "indexnav"; "topnav"]%string.

Definition HEADINGS : list (pystr * nat) :=
  [(str "h1", 1); (str "h2", 2); (str "h3", 3);
   (str "h4", 4); (str "h5", 5); (str "h6", 6)].

Definition BLOCK_TAGS : list pystr :=
  map str ["p"; "div"; "section"; "article"; "main"; "ul"; "ol";
           "blockquote"; "dl"; "dt"; "dd"; "hr"]%string.

(** [" ".join(el.get("class", []))]: joining a string joins its
    characters. *)
Definition class_string (attrs : list (pystr * Bs4.attrval)) : pystr :=
  match Bs4.get (str "class") attrs with
  | None => []
  | Some (Bs4.AttrList l) => Py.join [SP] l
  | Some (Bs4.AttrStr s) => Py.join [SP] (map (fun c => [c]) s)
  end.

(** [walk] (lines 91-154); the result is what the call appends to
    [out]. *)
Fixpoint walk (el : Bs4.node) : list pystr :=
  match el with
  | Bs4.NavigableString _ s => emit s
  | Bs4.Tag nm attrs children =>
      let name := Py.lower nm in
      if bool_decide (name ∈ [str "nav"; str "header"; str "footer"]) then []
      else
      let cls := Py.lower (class_string attrs) in
      if existsb (fun x => Py.contains cls x) NAV_CLASSES then []
      else if bool_decide (name ∈ JUNK_TAGS) then []
      else
      match List.find (fun h => bool_decide (fst h = name)) HEADINGS with
      | Some (_, level) =>
          let heading := Bs4.get_text [SP] true el in
          emit ([NL; NL] ++ repeat "#"%char level ++ [SP] ++ heading ++ [NL; NL])
      | None =>
      if bool_decide (name = str "pre") then
        let code := Bs4.get_text [NL] false el in
        emit ([NL; NL] ++ str "```" ++ [NL] ++ Py.rstrip code ++ [NL]
              ++ str "```" ++ [NL; NL])
      else if bool_decide (name = str "table") then
        emit ([NL; NL] ++ table_to_text el ++ [NL; NL])
      else if bool_decide (name = str "br") then emit [NL]
      else if bool_decide (name = str "li") then
        let txt := Bs4.get_text [SP] true el in
        if bool_decide (txt = []) then []
        else emit ([NL] ++ str "- " ++ txt ++ [NL])
      else
      let is_block := bool_decide (name ∈ BLOCK_TAGS) in
      if bool_decide (name = str "hr") then
        emit ([NL; NL] ++ repeat "-"%char 40 ++ [NL; NL])
      else
        (if is_block then emit [NL] else [])
        ++ (fix walk_children (l : list Bs4.node) : list pystr :=
              match l with
              | [] => []
              | child :: l' => walk child ++ walk_children l'
              end) children
        ++ (if is_block then emit [NL] else [])
      end
  end.

(** The loop of lines 80-81: every script, style and noscript element
    is removed from the tree, wherever it is. *)
Fixpoint decompose_junk (n : Bs4.node) : Bs4.node :=
  match n with
  | Bs4.NavigableString k s => Bs4.NavigableString k s
  | Bs4.Tag nm attrs cs =>
      Bs4.Tag nm attrs
        ((fix go (l : list Bs4.node) : list Bs4.node :=
            match l with
            | [] => []
            | c :: l' =>
                if Bs4.is_tag_named JUNK_TAGS c then go l'
                else decompose_junk c :: go l'
            end) cs)
  end.

(** [html_to_text] after parsing: lines 80-157 on the tree [soup]. *)
Definition soup_to_text (soup : Bs4.node) : pystr :=
  let soup := decompose_junk soup in
  let root := pick_main_content soup in
  normalize (concat (walk root)).

(** [html_to_text] (lines 77-157); [html_parser] is
    [BeautifulSoup(html, "html.parser")]. *)
Definition html_to_text (html_parser : pystr -> Bs4.node) (html : pystr) : pystr :=
  soup_to_text (html_parser html).

(** ** The crawl (source lines 33-43, 174-184, 191-250)

    What the script takes from its environment is gathered here:
    the HTML parser, the validation of bracketed hosts inside
    [urllib.parse], the network and the file system.  The network is
    an oracle: [network n] is the outcome of the [n]-th call of
    [session.get] of the run.  [disk_ok path] tells whether creating
    the parent directories of [path] and writing the file succeed.
    Python does not fix the order in which a set yields its members:
    [set_order n links] is the order in which the loop of line 246
    meets the members of the set [links] that [extract_links] returned
    for the page of the [n]-th request.  It is a parameter of the run
    like the network, and the properties of the crawl are proved for
    every such order; a property that needs the order to list the
    members of the set, each once, says so. *)
Section Crawl.

Variable check_bracketed_host : pystr -> bool.
Variable html_parser : pystr -> Bs4.node.
Variable network : nat -> pystr -> Z -> option Requests.Response.
Variable disk_ok : Pathlib.PurePath -> bool.
Variable set_order : nat -> gset pystr -> list pystr.

(** [is_within_root] (lines 33-34) *)
Definition is_within_root (url root : pystr) : bool := Py.startswith url root.

(** [should_skip_url] (lines 36-43); [None] when [urlparse] raises. *)
Definition should_skip_url (url : pystr) : option bool :=
  match Urllib.urlparse check_bracketed_host url [] with
  | None => None
  | Some p =>
      let path := Py.lower (Urllib.path p) in
      Some (existsb (fun ext => Py.endswith path ext) SKIP_EXT)
  end.

(** The body of the loop of [extract_links] (lines 177-183) over the
    anchors found; [None] when something raises: [strip] on a list
    value, [urljoin] or [urldefrag]. *)
Fixpoint collect_links (base_url : pystr) (anchors : list Bs4.node)
    (links : gset pystr) : option (gset pystr) :=
  match anchors with
  | [] => Some links
  | a :: rest =>
      match Bs4.get (str "href") (Bs4.attrs_of a) with
      | None => collect_links base_url rest links
      | Some (Bs4.AttrList _) => None
      | Some (Bs4.AttrStr h) =>
          let href := Py.strip h in
          if bool_decide (href = [])
             || Py.startswith href (str "mailto:")
             || Py.startswith href (str "javascript:")
          then collect_links base_url rest links
          else
            match Urllib.urljoin check_bracketed_host base_url href with
            | None => None
            | Some abs_url =>
                match Urllib.urldefrag check_bracketed_host abs_url with
                | None => None
                | Some abs_url => collect_links base_url rest ({[abs_url]} ∪ links)
                end
            end
      end
  end.

(** [extract_links] after parsing (lines 176-184). *)
Definition soup_links (soup : Bs4.node) (base_url : pystr) : option (gset pystr) :=
  collect_links base_url
    (Bs4.find_all [str "a"] (Bs4.attr_present (str "href")) soup) ∅.

(** [extract_links] (lines 174-184) *)
Definition extract_links (html base_url : pystr) : option (gset pystr) :=
  soup_links (html_parser html) base_url.

(** The command line (lines 192-204); the delay only sleeps and is
    left out. *)
Record Config := {
  start : pystr;
  root : pystr;
  outdir : Pathlib.PurePath;
  max_pages : Z;
  timeout : Z }.

(** What a run does to the outside, in order. *)
Inductive event :=
| Fetch (url : pystr)
| FetchFailed (url : pystr)
| Write (url : pystr) (outpath : Pathlib.PurePath) (text : pystr).

(** The variables of [main]: the queue, the visited set, the count
    of saved pages; [gets] counts the calls of [session.get] and
    [trace] records the events, latest first. *)
Record state := {
  q : list pystr;
  seen : gset pystr;
  saved : Z;
  gets : nat;
  trace : list event }.

Definition init (cfg : Config) : state :=
  {| q := [start cfg]; seen := ∅; saved := 0; gets := 0; trace := [] |}.

(** The condition of the [while] (line 217). *)
Definition loop_cond (cfg : Config) (st : state) : bool :=
  negb (bool_decide (q st = [])) && (saved st <? max_pages cfg)%Z.

(** The loop of lines 246-248 over the links, in the order [links] in
    which the set yields them; [None] when [should_skip_url] raises. *)
Fixpoint enqueue (cfg : Config) (seen : gset pystr) (links : list pystr)
    (q : list pystr) : option (list pystr) :=
  match links with
  | [] => Some q
  | link :: rest =>
      if negb (bool_decide (link ∈ seen)) && is_within_root link (root cfg)
      then match should_skip_url link with
           | None => None
           | Some true => enqueue cfg seen rest q
           | Some false => enqueue cfg seen rest (q ++ [link])
           end
      else enqueue cfg seen rest q
  end.

(** The queue as the loop of lines 246-248 leaves it, whether it
    comes to its end or [should_skip_url] raises on a link: the links
    appended before the raise stay in the queue. *)
Fixpoint enqueue_reached (cfg : Config) (seen : gset pystr)
    (links : list pystr) (q : list pystr) : list pystr :=
  match links with
  | [] => q
  | link :: rest =>
      if negb (bool_decide (link ∈ seen)) && is_within_root link (root cfg)
      then match should_skip_url link with
           | None => q
           | Some true => enqueue_reached cfg seen rest q
           | Some false => enqueue_reached cfg seen rest (q ++ [link])
           end
      else enqueue_reached cfg seen rest q
  end.

(** One pass through the body of the loop (lines 218-248): it
    completes with the next state, or it raises and leaves the state
    it had reached. *)
Inductive outcome :=
| Next (st : state)
| Crash (st : state).

Definition loop_body (cfg : Config) (st : state) : outcome :=
  match q st with
  | [] => Next st
  | url :: q1 =>
      if bool_decide (url ∈ seen st)
      then Next {| q := q1; seen := seen st; saved := saved st;
                   gets := gets st; trace := trace st |}
      else
      let seen1 := {[url]} ∪ seen st in
      let skipped := {| q := q1; seen := seen1; saved := saved st;
                        gets := gets st; trace := trace st |} in
      if negb (is_within_root url (root cfg)) then Next skipped
      else
      match should_skip_url url with
      | None => Crash skipped
      | Some true => Next skipped
      | Some false =>
          let gets1 := S (gets st) in
          let trace1 := Fetch url :: trace st in
          match fetch (network (gets st)) url (timeout cfg) with
          | None =>
              Next {| q := q1; seen := seen1; saved := saved st;
                      gets := gets1; trace := FetchFailed url :: trace1 |}
          | Some html =>
              let fetched := {| q := q1; seen := seen1; saved := saved st;
                                gets := gets1; trace := trace1 |} in
              let text := html_to_text html_parser html in
              match url_to_outpath url (root cfg) (outdir cfg) with
              | None => Crash fetched
              | Some outpath =>
                  if negb (disk_ok outpath) then Crash fetched
                  else
                  let saved1 := (saved st + 1)%Z in
                  let trace2 := Write url outpath text :: trace1 in
                  let written := {| q := q1; seen := seen1; saved := saved1;
                                    gets := gets1; trace := trace2 |} in
                  match Pathlib.relative_to outpath (outdir cfg) with
                  | None => Crash written
                  | Some _ =>
                      match extract_links html url with
                      | None => Crash written
                      | Some links =>
                          let order := set_order (gets st) links in
                          match enqueue cfg seen1 order q1 with
                          | None =>
                              Crash {| q := enqueue_reached cfg seen1 order q1;
                                       seen := seen1; saved := saved1;
                                       gets := gets1; trace := trace2 |}
                          | Some q2 =>
                              Next {| q := q2; seen := seen1; saved := saved1;
                                      gets := gets1; trace := trace2 |}
                          end
                      end
                  end
              end
          end
      end
  end.

(** The [while] loop, run for at most [fuel] passes. *)
Inductive result :=
| Done (st : state)
| Aborted (st : state)
| OutOfFuel (st : state).

Fixpoint run (cfg : Config) (fuel : nat) (st : state) : result :=
  if loop_cond cfg st then
    match fuel with
    | O => OutOfFuel st
    | S fuel' =>
        match loop_body cfg st with
        | Next st' => run cfg fuel' st'
        | Crash st' => Aborted st'
        end
    end
  else Done st.

(** [main] (lines 191-250) from the parsed command line on. *)
Definition main (cfg : Config) (fuel : nat) : result := run cfg fuel (init cfg).

(** The state in which a run is left. *)
Definition final (r : result) : state :=
  match r with
  | Done st => st
  | Aborted st => st
  | OutOfFuel st => st
  end.

(** The states at the head of the loop. *)
Inductive reachable (cfg : Config) : state -> Prop :=
| reach_init : reachable cfg (init cfg)
| reach_next st st' :
    reachable cfg st -> loop_cond cfg st = true ->
    loop_body cfg st = Next st' -> reachable cfg st'.

(** The states in which a pass of the loop raises. *)
Definition aborted (cfg : Config) (st' : state) : Prop :=
  exists st, reachable cfg st /\ loop_cond cfg st = true
             /\ loop_body cfg st = Crash st'.

(** Every state the run is ever in at the head of the loop or when it
    stops. *)
Definition visited (cfg : Config) (st : state) : Prop :=
  reachable cfg st \/ aborted cfg st.

(** The two checks of lines 223-226 and of line 247, passed. *)
Definition passes (cfg : Config) (url : pystr) : Prop :=
  is_within_root url (root cfg) = true /\ should_skip_url url = Some false.

Definition event_url (e : event) : pystr :=
  match e with
  | Fetch url => url
  | FetchFailed url => url
  | Write url _ _ => url
  end.

(** The invariant of the loop: every event of the trace is about a
    URL that passed both checks, and every queued URL other than the
    start URL passed them when it was queued. *)
Definition checked (cfg : Config) (st : state) : Prop :=
  (forall e, e ∈ trace st -> passes cfg (event_url e))
  /\ (forall u, u ∈ q st -> u = start cfg \/ passes cfg u).

End Crawl.

(** ** Parse trees of the examples

    [html.parser] lowers tag names, creates no element that is not in
    the markup, and hands the text between tags over as plain
    strings. *)
Module Examples.
Import Bs4.

Definition element (name : string) (children : list node) : node :=
  Tag (str name) [] children.

Definition text (s : string) : node := NavigableString Plain (str s).

Definition document (children : list node) : node :=
  Tag (str "[document]") [] children.

Definition anchor (href : string) (children : list node) : node :=
  Tag (str "a") [(str "href", AttrStr (str href))] children.

(** [<table><tr><th>A</th><th>B</th></tr><tr><td>1</td><td>2</td></tr></table>] *)
Definition table_page : node :=
  document
    [element "table"
       [element "tr" [element "th" [text "A"]; element "th" [text "B"]];
        element "tr" [element "td" [text "1"]; element "td" [text "2"]]]].

(** [<table><tr></tr><tr><td>1</td></tr></table>] *)
Definition table_with_empty_row : node :=
  element "table" [element "tr" []; element "tr" [element "td" [text "1"]]].

(** [<a href="../x/y.html#frag">one</a><a href="../x/y.html#other">two</a>
    <a href=" mailto:me@site ">mail</a><a href="">none</a>] *)
Definition links_page : node :=
  document
    [anchor "../x/y.html#frag" [text "one"];
     anchor "../x/y.html#other" [text "two"];
     anchor " mailto:me@site " [text "mail"];
     anchor "" [text "none"]].

(** An environment for running the crawl on examples: every bracketed
    host is accepted, every request is answered by [200] with an
    empty body, every page parses to the empty document and every
    write succeeds. *)
Definition any_host (h : pystr) : bool := true.
Definition empty_parser (html : pystr) : node := document [].
Definition ok_network (n : nat) (url : pystr) (timeout : Z)
  : option Requests.Response :=
  Some {| Requests.status_code := 200; Requests.text := [] |}.
Definition ok_disk (p : Pathlib.PurePath) : bool := true.

(** Two orders in which a set may yield its members. *)
Definition listed_order (n : nat) (links : gset pystr) : list pystr :=
  elements links.
Definition reversed_order (n : nat) (links : gset pystr) : list pystr :=
  rev (elements links).

(** [<a href="b.html">b</a><a href="c.html">c</a>], and the parser of
    a site on which every page is this one. *)
Definition two_links_page : node :=
  document [anchor "b.html" [text "b"]; anchor "c.html" [text "c"]].
Definition two_links_parser (html : pystr) : node := two_links_page.



(** The command lines of the examples: the defaults on a small site,
    a negative page limit, a start URL with a parent segment, a limit
    of two pages, and a start URL with a parameter. *)
Definition site_cfg : Config :=
  {| start := str "https://site/root/index.html";
     root := str "https://site/root/";
     outdir := Pathlib.parse (str "/out");
     max_pages := 500; timeout := 30 |}.

Definition negative_cfg : Config :=
  {| start := str "https://site/root/index.html";
     root := str "https://site/root/";
     outdir := Pathlib.parse (str "/out");
     max_pages := -1; timeout := 30 |}.


Definition two_pages_cfg : Config :=
  {| start := str "https://site/root/index.html";
     root := str "https://site/root/";
     outdir := Pathlib.parse (str "/out");
     max_pages := 2; timeout := 30 |}.

Definition params_cfg : Config :=
  {| start := str "https://site/root/logo;v=2.png";
     root := str "https://site/root/";
     outdir := Pathlib.parse (str "/out");
     max_pages := 500; timeout := 30 |}.

(** The state after the first pass of the loop in that environment. *)
Definition first_pass (cfg : Config) : state :=
  match loop_body any_host empty_parser ok_network ok_disk listed_order cfg
                  (init cfg) with
  | Next st => st
  | Crash st => st
  end.

(** The state in which the crawl of the site of [two_links_parser] is
    after at most [fuel] passes, for an order of the sets. *)
Definition crawl (order : nat -> gset pystr -> list pystr) (cfg : Config)
    (fuel : nat) : state :=
  final (main any_host two_links_parser ok_network ok_disk order cfg fuel).

End Examples.

(** ** The contribution of one hyperlink element *)
Module Links.

(** What the anchor [a] contributes: nothing when its target is empty
    after trimming or starts with [mailto:] or [javascript:], and
    otherwise its target resolved against the base URL, without the
    fragment. *)
Definition link_of (ck : pystr -> bool) (base_url : pystr) (a : Bs4.node)
    (u : pystr) : Prop :=
  exists h abs_url,
    Bs4.get (str "href") (Bs4.attrs_of a) = Some (Bs4.AttrStr h)
    /\ Py.strip h <> []
    /\ Py.startswith (Py.strip h) (str "mailto:") = false
    /\ Py.startswith (Py.strip h) (str "javascript:") = false
    /\ Urllib.urljoin ck base_url (Py.strip h) = Some abs_url
    /\ Urllib.urldefrag ck abs_url = Some u.



End Links.

(** ** Shapes of strings used to state the properties *)
Module Shape.

(** The first character exists and satisfies [P]. *)
Definition hd_is (P : ascii -> bool) (s : pystr) : bool :=
  match s with
  | [] => false
  | c :: _ => P c
  end.

(** No two neighbouring characters are related by [bad]. *)
Fixpoint no_pair (bad : ascii -> ascii -> bool) (s : pystr) : bool :=
  match s with
  | [] => true
  | a :: s' => negb (hd_is (bad a) s') && no_pair bad s'
  end.

(** Two blanks in a row. *)
Definition sp_sp (a b : ascii) : bool := Ascii.eqb a SP && Ascii.eqb b SP.

(** A blank next to a newline, on either side. *)
Definition sp_nl (a b : ascii) : bool :=
  (Ascii.eqb a SP && Ascii.eqb b NL) || (Ascii.eqb a NL && Ascii.eqb b SP).

(** Every run of newlines in [s] is shorter than three, where [run]
    newlines stand immediately before [s]. *)
Fixpoint nl_runs_lt3 (run : nat) (s : pystr) : bool :=
  match s with
  | [] => true
  | c :: s' =>
      if Ascii.eqb c NL then (S run <? 3) && nl_runs_lt3 (S run) s'
      else nl_runs_lt3 0 s'
  end.

(** Neither end of [s] is whitespace. *)
Definition stripped (s : pystr) : Prop :=
  hd_is Py.isspace s = false /\ hd_is Py.isspace (rev s) = false.

(** What the four substitutions of [normalize] leave behind: no
    carriage return, no tab, no two blanks in a row, no blank next to
    a newline, no three newlines in a row. *)
Definition clean (s : pystr) : Prop :=
  Forall (fun c => c <> CR) s /\ Forall (fun c => c <> TAB) s /\
  no_pair sp_sp s = true /\ no_pair sp_nl s = true /\
  nl_runs_lt3 0 s = true.

End Shape.

(** ** Readings of a trace *)
Module Trace.

(** The URLs requested, latest first. *)
Definition fetched (tr : list event) : list pystr :=
  omap (fun e => match e with Fetch url => Some url | _ => None end) tr.

(** The number of files written. *)
Definition writes (tr : list event) : nat :=
  length (List.filter (fun e => match e with Write _ _ _ => true | _ => false end) tr).

(** The URL of the [k]-th request of the run, counted from 0 as the
    network counts them; the trace has the latest event first. *)
Definition request (tr : list event) (k : nat) : option pystr :=
  rev (fetched tr) !! k.

(** What a [Write] event records, in a run with the trace [tr]: the
    path is the one [url_to_outpath] gives for the URL, the write
    succeeded, and the text is the conversion of the page that the
    request made for that URL returned. *)
Definition write_ok (html_parser : pystr -> Bs4.node)
    (network : nat -> pystr -> Z -> option Requests.Response)
    (disk_ok : Pathlib.PurePath -> bool) (cfg : Config) (tr : list event)
    (e : event) : Prop :=
  match e with
  | Write url outpath text =>
      url_to_outpath url (root cfg) (outdir cfg) = Some outpath
      /\ disk_ok outpath = true
      /\ exists k html,
           request tr k = Some url
           /\ fetch (network k) url (timeout cfg) = Some html
           /\ text = html_to_text html_parser html
  | _ => True
  end.

(** The trace and the variables of [main] agree. *)
Definition consistent (html_parser : pystr -> Bs4.node)
    (network : nat -> pystr -> Z -> option Requests.Response)
    (disk_ok : Pathlib.PurePath -> bool) (cfg : Config) (st : state) : Prop :=
  NoDup (fetched (trace st))
  /\ (forall u, u ∈ fetched (trace st) -> u ∈ seen st)
  /\ saved st = Z.of_nat (writes (trace st))
  /\ gets st = length (fetched (trace st))
  /\ writes (trace st) <= length (fetched (trace st))
  /\ Forall (write_ok html_parser network disk_ok cfg (trace st)) (trace st).

(** [u] is the start URL or a link that [extract_links] found on the
    page that the [k]-th request of the run, made for [url],
    returned. *)
Definition linked (ck : pystr -> bool) (html_parser : pystr -> Bs4.node)
    (network : nat -> pystr -> Z -> option Requests.Response)
    (cfg : Config) (st : state) (u : pystr) : Prop :=
  u = start cfg
  \/ exists k url html links,
       request (trace st) k = Some url
       /\ fetch (network k) url (timeout cfg) = Some html
       /\ extract_links ck html_parser html url = Some links
       /\ u ∈ links.

(** Every queued URL and every URL of the trace is linked. *)
Definition all_linked (ck : pystr -> bool) (html_parser : pystr -> Bs4.node)
    (network : nat -> pystr -> Z -> option Requests.Response)
    (cfg : Config) (st : state) : Prop :=
  (forall u, u ∈ q st -> linked ck html_parser network cfg st u)
  /\ (forall e, e ∈ trace st -> linked ck html_parser network cfg st (event_url e)).

End Trace.

(** ** The stages of [urlsplit]

    [urlsplit] cuts the scheme, then the host part, then the fragment
    and the query; the first two stages are named here. *)
Module UrlSteps.
Import Urllib.

Definition split_scheme (scheme0 url : pystr) : pystr * pystr :=
  match partition ":" url with
  | (c :: pre, Some rest) =>
      if is_ascii_alpha c && forallb (fun x => has x scheme_chars) (c :: pre)
      then (Py.lower (c :: pre), rest) else (scheme0, url)
  | _ => (scheme0, url)
  end.

Definition split_netloc (url : pystr) : pystr * pystr :=
  if Py.startswith url (str "//") then span_netloc (drop 2 url)
  else ([], url).

(** The characters that end the path of a URL. *)
Definition no_query_mark (s : pystr) : Prop :=
  Forall (fun c => c <> "?"%char /\ c <> "#"%char) s.

End UrlSteps.

(** ** Where the characters of a text come from *)
Module Provenance.

(** The strings of a tree, of every kind, the root included. *)
Definition strings_of (n : Bs4.node) : list pystr :=
  omap (fun d => match d with
                 | Bs4.NavigableString _ s => Some s
                 | Bs4.Tag _ _ _ => None
                 end) (n :: Bs4.descendants n).

(** The characters that [walk] writes as markup, besides whitespace. *)
Definition MARKS : pystr := str "#-`|".

(** [c] is whitespace, a markup character, or a character of a string
    of the tree. *)
Definition from_page (soup : Bs4.node) (c : ascii) : Prop :=
  Py.isspace c = true \/ c ∈ MARKS \/ exists s, s ∈ strings_of soup /\ c ∈ s.

(** Every string of [n] is a string of [m]. *)
Definition strings_sub (n m : Bs4.node) : Prop :=
  forall s, s ∈ strings_of n -> s ∈ strings_of m.

End Provenance.

(** * Properties *)

(** ** The library models on sample inputs

    The values are those that CPython 3.11 returns. *)

Example normalize_sample :
  normalize (str "  a  b " ++ [CR; NL; TAB; NL; NL; NL] ++ str " c ")
  = str "a b" ++ [NL; NL] ++ str "c" ++ [NL].
Proof. reflexivity. Qed.

Example parse_sample :
  Pathlib.parse (str "//a/./b//c/")
  = {| Pathlib.root := str "//"; Pathlib.names := [str "a"; str "b"; str "c"] |}
  /\ Pathlib.parse (str "///x")
     = {| Pathlib.root := str "/"; Pathlib.names := [str "x"] |}.
Proof. split; reflexivity. Qed.

Example suffix_sample :
  Pathlib.suffix (Pathlib.parse (str "/a/../b.tar.gz")) = str ".gz"
  /\ Pathlib.stem (Pathlib.parse (str "/a/../b.tar.gz")) = str "b.tar"
  /\ Pathlib.suffix (Pathlib.parse (str ".bashrc")) = []
  /\ Pathlib.suffix (Pathlib.parse (str "a.")) = [].
Proof. repeat split; reflexivity. Qed.

Example urlparse_sample :
  Urllib.urlparse (fun _ => true) (str "HTTP://Host/a/b;p?q=1#f") []
  = Some {| Urllib.scheme := str "http"; Urllib.netloc := str "Host";
            Urllib.path := str "/a/b"; Urllib.params := str "p";
            Urllib.query := str "q=1"; Urllib.fragment := str "f" |}.
Proof. reflexivity. Qed.

Example urljoin_sample :
  let base := str "https://site/root/sub/page.html" in
  Urllib.urljoin (fun _ => true) base (str "../x/y.html#frag")
  = Some (str "https://site/root/x/y.html#frag")
  /\ Urllib.urljoin (fun _ => true) base (str "/abs?q")
     = Some (str "https://site/abs?q")
  /\ Urllib.urljoin (fun _ => true) base (str "//other/z")
     = Some (str "https://other/z")
  /\ Urllib.urljoin (fun _ => true) base (str "?only")
     = Some (str "https://site/root/sub/page.html?only")
  /\ Urllib.urljoin (fun _ => true) (str "https://site/root/") (str "../../../up")
     = Some (str "https://site/up")
  /\ Urllib.urljoin (fun _ => true) base (str "mailto:x@y")
     = Some (str "mailto:x@y").
Proof. repeat split; reflexivity. Qed.

Example urldefrag_sample :
  Urllib.urldefrag (fun _ => true) (str "https://site/root/x/y.html#frag")
  = Some (str "https://site/root/x/y.html")
  /\ Urllib.urldefrag (fun _ => true) (str "https://site/root/?#")
     = Some (str "https://site/root/").
Proof. split; reflexivity. Qed.

Example heading_sample :
  soup_to_text
    (Examples.document
       [Examples.element "h2" [Examples.text "Title"];
        Examples.element "p" [Examples.text "Body & text"]])
  = str "## Title" ++ [NL; NL] ++ str "Body & text" ++ [NL].
Proof. reflexivity. Qed.

(** ** Facts on characters and on the [str] methods *)
Module PyFacts.
Import Py Shape.

Lemma eqb_false_ne (a b : ascii) : Ascii.eqb a b = false -> a <> b.
Proof. intros E ->. rewrite Ascii.eqb_refl in E. discriminate. Qed.

Lemma ne_eqb_false (a b : ascii) : a <> b -> Ascii.eqb a b = false.
Proof. intros H. destruct (Ascii.eqb_spec a b); congruence. Qed.

Lemma repeat_shift {A} (x : A) (k : nat) (l : list A) :
  repeat x k ++ x :: l = repeat x (S k) ++ l.
Proof. induction k as [|k IH]; simpl; [reflexivity|]. now rewrite IH. Qed.

Lemma lstrip_suffix (s : pystr) : exists l, s = l ++ lstrip s.
Proof.
  induction s as [|c s [l IH]]; [now exists []|]. simpl.
  destruct (isspace c).
  - exists (c :: l). simpl. now rewrite <- IH.
  - now exists [].
Qed.

Lemma rstrip_prefix (s : pystr) : exists r, s = rstrip s ++ r.
Proof.
  unfold rstrip. destruct (lstrip_suffix (rev s)) as [l E].
  exists (rev l). rewrite <- rev_app_distr, <- E. now rewrite rev_involutive.
Qed.

Lemma strip_infix (s : pystr) : exists l r, s = l ++ strip s ++ r.
Proof.
  unfold strip. destruct (lstrip_suffix s) as [l El].
  destruct (rstrip_prefix (lstrip s)) as [r Er].
  exists l, r. now rewrite <- Er.
Qed.

Lemma hd_lstrip (s : pystr) : hd_is isspace (lstrip s) = false.
Proof.
  induction s as [|c s IH]; [reflexivity|]. simpl.
  destruct (isspace c) eqn:E; [exact IH|]. simpl. exact E.
Qed.

Lemma lstrip_id (s : pystr) : hd_is isspace s = false -> lstrip s = s.
Proof. destruct s as [|c s]; simpl; [reflexivity|]. now intros ->. Qed.

Lemma strip_stripped (s : pystr) : stripped (strip s).
Proof.
  unfold stripped, strip, rstrip. split.
  - destruct (rstrip_prefix (lstrip s)) as [r E]. unfold rstrip in E.
    pose proof (hd_lstrip s) as H. rewrite E in H.
    destruct (rev (lstrip (rev (lstrip s)))); [reflexivity|exact H].
  - rewrite rev_involutive. apply hd_lstrip.
Qed.

Lemma strip_app_nl (t : pystr) : stripped t -> strip (t ++ [NL]) = t.
Proof.
  intros [Hh Hl]. unfold strip, rstrip.
  destruct t as [|c t]; [reflexivity|].
  simpl in Hh. change ((c :: t) ++ [NL]) with (c :: (t ++ [NL])).
  cbn [lstrip]. rewrite Hh.
  change (c :: t ++ [NL]) with ((c :: t) ++ [NL]).
  rewrite rev_app_distr. cbn [rev app lstrip].
  change (isspace NL) with true. cbn iota.
  change (rev t ++ [c]) with (rev (c :: t)).
  rewrite (lstrip_id _ Hl). apply rev_involutive.
Qed.

(** [replace] with a pattern that starts with a character absent from
    the string changes nothing. *)
Lemma replace_absent (c0 : ascii) (w new s : pystr) :
  Forall (fun c => c <> c0) s -> replace (c0 :: w) new s = s.
Proof.
  unfold replace. induction 1 as [|c s Hc Hs IH]; [reflexivity|].
  cbn [replace_from startswith].
  rewrite (ne_eqb_false c0 c) by congruence. cbn. now rewrite IH.
Qed.

(** Replacing a single character removes it when the replacement does
    not contain it. *)
Lemma replace_char_gone (c0 : ascii) (new s : pystr) :
  Forall (fun c => c <> c0) new ->
  Forall (fun c => c <> c0) (replace [c0] new s).
Proof.
  intros Hnew. unfold replace. induction s as [|c s IH]; [constructor|].
  cbn [replace_from startswith length Nat.sub].
  destruct (Ascii.eqb_spec c0 c) as [->|Hne]; cbn.
  - apply Forall_app; split; assumption.
  - constructor; [congruence|assumption].
Qed.

End PyFacts.

(** ** Facts on the substitutions *)
Module ReFacts.
Import Py Re Shape PyFacts.

Lemma is_hspace_false (c : ascii) :
  is_hspace c = false -> c <> SP /\ c <> TAB.
Proof.
  unfold is_hspace. intros H. apply orb_false_elim in H as [H1 H2].
  split; now apply eqb_false_ne.
Qed.

Lemma is_hspace_true (c : ascii) : is_hspace c = true -> c = SP \/ c = TAB.
Proof.
  unfold is_hspace. intros H. apply orb_true_elim in H as [H|H];
    apply Ascii.eqb_eq in H; auto.
Qed.

Lemma Forall_repeat (Q : ascii -> Prop) (c : ascii) (k : nat) :
  Q c -> Forall Q (repeat c k).
Proof. intros H. induction k; cbn; constructor; assumption. Qed.

(** *** Splitting [no_pair] and [nl_runs_lt3] at a character *)

Lemma no_pair_split bad (x : pystr) (a : ascii) (y : pystr) :
  no_pair bad (x ++ a :: y) = no_pair bad (x ++ [a]) && no_pair bad (a :: y).
Proof.
  induction x as [|b x IH].
  - reflexivity.
  - cbn [app no_pair]. rewrite IH, andb_assoc. f_equal. f_equal.
    destruct x; reflexivity.
Qed.

Lemma no_pair_tail bad (a : ascii) (s : pystr) :
  no_pair bad (a :: s) = true -> no_pair bad s = true.
Proof. cbn. intros H. now apply andb_true_iff in H. Qed.

Lemma no_pair_suffix bad (l x : pystr) :
  no_pair bad (l ++ x) = true -> no_pair bad x = true.
Proof.
  induction l as [|b l IH]; [trivial|]. intros H. apply IH.
  now apply (no_pair_tail bad b).
Qed.

Lemma no_pair_prefix bad (x r : pystr) :
  no_pair bad (x ++ r) = true -> no_pair bad x = true.
Proof.
  destruct r as [|a r]; [now rewrite app_nil_r|].
  rewrite no_pair_split. intros H. apply andb_true_iff in H as [H _].
  revert H. clear. induction x as [|b x IH]; [reflexivity|].
  cbn [app no_pair]. intros H. apply andb_true_iff in H as [H1 H2].
  rewrite (IH H2), andb_true_r. destruct x; [reflexivity|exact H1].
Qed.

Lemma no_pair_snoc bad (t : pystr) (c : ascii) :
  no_pair bad t = true ->
  hd_is (fun a => bad a c) (rev t) = false ->
  no_pair bad (t ++ [c]) = true.
Proof.
  intros Ht Hl. destruct (rev t) as [|a r] eqn:E.
  - apply (f_equal (@rev _)) in E. rewrite rev_involutive in E. now subst.
  - apply (f_equal (@rev _)) in E. rewrite rev_involutive in E. cbn in E.
    subst t. rewrite <- app_assoc. cbn [app]. rewrite no_pair_split, Ht.
    cbn in *. now rewrite Hl.
Qed.

Lemma nl_runs_weaken (k k' : nat) (s : pystr) :
  k' <= k -> nl_runs_lt3 k s = true -> nl_runs_lt3 k' s = true.
Proof.
  revert k k'. induction s as [|c s IH]; intros k k' Hk; [reflexivity|].
  cbn [nl_runs_lt3 app]. destruct (Ascii.eqb c NL); [|trivial].
  intros H. apply andb_true_iff in H as [H1 H2].
  apply Nat.ltb_lt in H1. apply andb_true_iff. split.
  - apply Nat.ltb_lt. lia.
  - apply (IH (S k)); [lia|exact H2].
Qed.

Lemma nl_runs_suffix (k : nat) (l x : pystr) :
  nl_runs_lt3 k (l ++ x) = true -> nl_runs_lt3 0 x = true.
Proof.
  revert k. induction l as [|c l IH]; intros k.
  - apply nl_runs_weaken. lia.
  - cbn [nl_runs_lt3 app]. destruct (Ascii.eqb c NL).
    + intros H. apply andb_true_iff in H as [_ H]. now apply IH in H.
    + apply IH.
Qed.

Lemma nl_runs_prefix (k : nat) (x r : pystr) :
  nl_runs_lt3 k (x ++ r) = true -> nl_runs_lt3 k x = true.
Proof.
  revert k. induction x as [|c x IH]; intros k; [reflexivity|].
  cbn [nl_runs_lt3 app]. destruct (Ascii.eqb c NL).
  - intros H. apply andb_true_iff in H as [H1 H2].
    now rewrite H1, (IH _ H2).
  - apply IH.
Qed.

Lemma nl_runs_snoc (k : nat) (x : pystr) (a : ascii) :
  a <> NL -> nl_runs_lt3 k x = true -> nl_runs_lt3 k (x ++ [a; NL]) = true.
Proof.
  intros Ha. revert k. induction x as [|c x IH]; intros k.
  - intros _. cbn. now rewrite (ne_eqb_false a NL Ha).
  - cbn [nl_runs_lt3 app]. destruct (Ascii.eqb c NL).
    + intros H. apply andb_true_iff in H as [H1 H2].
      now rewrite H1, (IH _ H2).
    + apply IH.
Qed.

(** *** [sub_hspace] *)

Lemma sub_hspace_Forall (Q : ascii -> Prop) (b : bool) (s : pystr) :
  Q SP -> Forall Q s -> Forall Q (sub_hspace_from b s).
Proof.
  intros HQ H. revert b. induction H as [|c s Hc Hs IH]; intros b; cbn.
  - constructor.
  - destruct (is_hspace c); [destruct b|]; try constructor; auto.
Qed.

Lemma sub_hspace_no_tab (b : bool) (s : pystr) :
  Forall (fun c => c <> TAB) (sub_hspace_from b s).
Proof.
  revert b. induction s as [|c s IH]; intros b; cbn; [constructor|].
  destruct (is_hspace c) eqn:E.
  - destruct b; [apply IH|]. constructor; [discriminate|apply IH].
  - constructor; [|apply IH]. now apply is_hspace_false in E.
Qed.

Lemma sub_hspace_no_sp_sp (b : bool) (s : pystr) (p : ascii) :
  (p = SP -> b = true) ->
  no_pair sp_sp (p :: sub_hspace_from b s) = true.
Proof.
  revert b p. induction s as [|c s IH]; intros b p Hp; [reflexivity|].
  cbn [sub_hspace_from]. destruct (is_hspace c) eqn:E.
  - destruct b; [now apply IH|].
    change (no_pair sp_sp (p :: SP :: ?x))
      with (negb (sp_sp p SP) && no_pair sp_sp (SP :: x)).
    rewrite IH by trivial. unfold sp_sp.
    destruct (Ascii.eqb_spec p SP) as [-> | ]; [now specialize (Hp eq_refl)|].
    reflexivity.
  - apply is_hspace_false in E as [E _].
    change (no_pair sp_sp (p :: c :: ?x))
      with (negb (sp_sp p c) && no_pair sp_sp (c :: x)).
    rewrite IH by (intros; congruence). unfold sp_sp.
    rewrite (ne_eqb_false c SP E). now rewrite andb_false_r.
Qed.

Lemma sub_hspace_fixed (b : bool) (s : pystr) (q : ascii) :
  Forall (fun c => c <> TAB) s ->
  no_pair sp_sp (q :: s) = true ->
  (b = true -> q = SP) ->
  sub_hspace_from b s = s.
Proof.
  intros Ht. revert b q. induction Ht as [|c s Hc Hs IH]; intros b q Hq Hb.
  - reflexivity.
  - change (no_pair sp_sp (q :: c :: s))
      with (negb (sp_sp q c) && no_pair sp_sp (c :: s)) in Hq.
    apply andb_true_iff in Hq as [Hq1 Hq2].
    cbn [sub_hspace_from]. destruct (is_hspace c) eqn:E.
    + apply is_hspace_true in E as [-> | ->]; [|congruence].
      destruct b.
      * rewrite (Hb eq_refl) in Hq1. discriminate.
      * f_equal. now apply (IH true SP).
    + f_equal. apply (IH false c); [exact Hq2|discriminate].
Qed.

(** *** [sub_nl_pad] *)

Lemma sub_nl_pad_Forall (Q : ascii -> Prop) (a : bool) (k : nat) (s : pystr) :
  Q SP -> Forall Q s -> Forall Q (sub_nl_pad_from a k s).
Proof.
  intros HQ H. revert a k. induction H as [|c s Hc Hs IH]; intros a k; cbn.
  - apply Forall_repeat, HQ.
  - destruct (Ascii.eqb c SP); [destruct a; apply IH|].
    destruct (Ascii.eqb_spec c NL) as [-> | _]; [constructor; auto|].
    apply Forall_app; split; [apply Forall_repeat, HQ|constructor; auto].
Qed.

Lemma no_pair_sp_run bad (k : nat) (p : ascii) (y : pystr) :
  bad SP SP = false ->
  (k <> 0 -> bad p SP = false) ->
  no_pair bad (match k with 0 => p | _ => SP end :: y) = true ->
  no_pair bad (p :: repeat SP k ++ y) = true.
Proof.
  intros Hss Hp Hy. destruct k as [|k]; [exact Hy|].
  cbn iota in Hy. cbn [repeat app].
  change (no_pair bad (p :: SP :: ?x))
    with (negb (bad p SP) && no_pair bad (SP :: x)).
  rewrite Hp by discriminate. cbn [negb andb]. clear Hp.
  induction k as [|k IH]; [exact Hy|]. cbn [repeat app].
  change (no_pair bad (SP :: SP :: ?x))
    with (negb (bad SP SP) && no_pair bad (SP :: x)).
  now rewrite Hss, IH.
Qed.

Lemma sub_nl_pad_tight (a : bool) (k : nat) (s : pystr) (p : ascii) :
  p <> SP -> (p = NL -> a = true) -> (a = true -> k = 0) ->
  no_pair sp_nl (p :: sub_nl_pad_from a k s) = true.
Proof.
  revert a k p. induction s as [|c s IH]; intros a k p Hp Hnl Hk.
  - cbn [sub_nl_pad_from]. rewrite <- (app_nil_r (repeat SP k)).
    apply no_pair_sp_run; [reflexivity| |now destruct k].
    intros Hk0. unfold sp_nl. rewrite (ne_eqb_false p SP Hp).
    destruct (Ascii.eqb_spec p NL) as [-> | ]; [|reflexivity].
    specialize (Hk (Hnl eq_refl)). contradiction.
  - cbn [sub_nl_pad_from].
    destruct (Ascii.eqb_spec c SP) as [-> | Hc].
    + destruct a; [now apply IH|]. apply IH; [exact Hp| |discriminate].
      intros ->. now specialize (Hnl eq_refl).
    + destruct (Ascii.eqb_spec c NL) as [-> | Hc'].
      * change (no_pair sp_nl (p :: NL :: ?x))
          with (negb (sp_nl p NL) && no_pair sp_nl (NL :: x)).
        rewrite IH by (trivial; discriminate). unfold sp_nl.
        rewrite (ne_eqb_false p SP Hp). now rewrite andb_false_r.
      * assert (Hcx : forall x, no_pair sp_nl (c :: x) = true
                          -> forall q, no_pair sp_nl (q :: c :: x) = true).
        { intros x Hx q.
          change (no_pair sp_nl (q :: c :: x))
            with (negb (sp_nl q c) && no_pair sp_nl (c :: x)).
          rewrite Hx. unfold sp_nl.
          rewrite (ne_eqb_false c SP Hc), (ne_eqb_false c NL Hc').
          now rewrite !andb_false_r. }
        apply no_pair_sp_run; [reflexivity| |].
        -- intros Hk0. unfold sp_nl. rewrite (ne_eqb_false p SP Hp).
           destruct (Ascii.eqb_spec p NL) as [-> | ]; [|reflexivity].
           specialize (Hk (Hnl eq_refl)). contradiction.
        -- apply Hcx. apply IH; [exact Hc|congruence|discriminate].
Qed.

Lemma sub_nl_pad_no_sp_sp (a : bool) (k : nat) (s : pystr) (p q : ascii) :
  no_pair sp_sp (q :: s) = true ->
  k <= 1 -> (k = 1 -> q = SP) -> p <> SP ->
  no_pair sp_sp (p :: sub_nl_pad_from a k s) = true.
Proof.
  revert a k p q. induction s as [|c s IH]; intros a k p q Hq Hk Hk1 Hp.
  - cbn [sub_nl_pad_from]. unfold sp_sp.
    destruct k as [|[|k]]; [reflexivity| |lia]. cbn.
    now rewrite (ne_eqb_false p SP Hp).
  - change (no_pair sp_sp (q :: c :: s))
      with (negb (sp_sp q c) && no_pair sp_sp (c :: s)) in Hq.
    apply andb_true_iff in Hq as [Hq1 Hq2].
    assert (Hcx : forall c' x, c' <> SP -> no_pair sp_sp (c' :: x) = true
                        -> forall r, no_pair sp_sp (r :: c' :: x) = true).
    { intros c' x Hc' Hx r.
      change (no_pair sp_sp (r :: c' :: x))
        with (negb (sp_sp r c') && no_pair sp_sp (c' :: x)).
      rewrite Hx. unfold sp_sp. rewrite (ne_eqb_false c' SP Hc').
      now rewrite andb_false_r. }
    cbn [sub_nl_pad_from].
    destruct (Ascii.eqb_spec c SP) as [-> | Hc].
    + destruct a.
      * apply (IH true 0 p SP); [exact Hq2|lia|discriminate|exact Hp].
      * assert (k = 0) as ->.
        { destruct k as [|[|k]]; [reflexivity| |lia].
          rewrite (Hk1 eq_refl) in Hq1. discriminate. }
        apply (IH false 1 p SP); [exact Hq2|lia|reflexivity|exact Hp].
    + destruct (Ascii.eqb_spec c NL) as [-> | Hc'].
      * apply Hcx; [discriminate|].
        apply (IH true 0 NL NL); [exact Hq2|lia|discriminate|discriminate].
      * assert (Hx : no_pair sp_sp (c :: sub_nl_pad_from false 0 s) = true)
          by (apply (IH false 0 c c); [exact Hq2|lia|discriminate|exact Hc]).
        destruct k as [|[|k]]; [|cbn [repeat app]|lia].
        -- now apply Hcx.
        -- change (no_pair sp_sp (p :: SP :: ?x))
             with (negb (sp_sp p SP) && no_pair sp_sp (SP :: x)).
           rewrite (Hcx c _ Hc Hx SP). unfold sp_sp.
           now rewrite (ne_eqb_false p SP Hp).
Qed.

Lemma sub_nl_pad_fixed (a : bool) (k : nat) (s : pystr) (q : ascii) :
  no_pair sp_nl (q :: s) = true ->
  (a = true -> q = NL /\ k = 0) -> (k <> 0 -> q = SP) ->
  sub_nl_pad_from a k s = repeat SP k ++ s.
Proof.
  revert a k q. induction s as [|c s IH]; intros a k q Hq Ha Hk.
  - cbn. now rewrite app_nil_r.
  - change (no_pair sp_nl (q :: c :: s))
      with (negb (sp_nl q c) && no_pair sp_nl (c :: s)) in Hq.
    apply andb_true_iff in Hq as [Hq1 Hq2].
    cbn [sub_nl_pad_from].
    destruct (Ascii.eqb_spec c SP) as [-> | Hc].
    + destruct a.
      * destruct (Ha eq_refl) as [-> _]. discriminate.
      * rewrite (IH false (S k) SP); [|exact Hq2|discriminate|reflexivity].
        symmetry. apply repeat_shift.
    + destruct (Ascii.eqb_spec c NL) as [-> | Hc'].
      * assert (k = 0) as ->.
        { destruct k; [reflexivity|]. rewrite Hk in Hq1 by discriminate.
          discriminate. }
        cbn. f_equal.
        now rewrite (IH true 0 NL).
      * f_equal. f_equal.
        rewrite (IH false 0 c); [reflexivity|exact Hq2|discriminate|congruence].
Qed.

(** *** [sub_nl3] *)

Lemma flush_nl_min (k : nat) : flush_nl k = repeat NL (Nat.min k 2).
Proof. destruct k as [|[|[|k]]]; reflexivity. Qed.

Lemma sub_nl3_stream (k : nat) (s : pystr) :
  sub_nl3_from k s = repeat NL (Nat.min k 2) ++ cap_nl k s.
Proof.
  revert k. induction s as [|c s IH]; intros k.
  - cbn. now rewrite app_nil_r, flush_nl_min.
  - cbn [sub_nl3_from cap_nl]. destruct (Ascii.eqb c NL).
    + rewrite IH. destruct k as [|[|k]]; [reflexivity..|].
      rewrite !Nat.min_r by lia. reflexivity.
    + now rewrite IH, flush_nl_min.
Qed.

Lemma sub_nl3_cap (s : pystr) : sub_nl3 s = cap_nl 0 s.
Proof. unfold sub_nl3. now rewrite sub_nl3_stream. Qed.

Lemma cap_nl_Forall (Q : ascii -> Prop) (k : nat) (s : pystr) :
  Forall Q s -> Forall Q (cap_nl k s).
Proof.
  intros H. revert k. induction H as [|c s Hc Hs IH]; intros k; cbn [cap_nl].
  - constructor.
  - destruct (Ascii.eqb_spec c NL) as [-> | _]; [destruct (k <? 2)|];
      try (constructor; [exact Hc|]); apply IH.
Qed.

Lemma cap_nl_no_pair bad (k : nat) (s : pystr) (p : ascii) :
  (k <> 0 -> p = NL) ->
  no_pair bad (p :: s) = true -> no_pair bad (p :: cap_nl k s) = true.
Proof.
  revert k p. induction s as [|c s IH]; intros k p Hk Hp; [reflexivity|].
  change (no_pair bad (p :: c :: s))
    with (negb (bad p c) && no_pair bad (c :: s)) in Hp.
  apply andb_true_iff in Hp as [Hp1 Hp2].
  cbn [cap_nl]. destruct (Ascii.eqb_spec c NL) as [-> | Hc].
  - destruct (k <? 2) eqn:E.
    + change (no_pair bad (p :: NL :: ?x))
        with (negb (bad p NL) && no_pair bad (NL :: x)).
      rewrite Hp1. now apply IH.
    + assert (p = NL) as -> by (apply Hk; intros ->; discriminate).
      now apply IH.
  - change (no_pair bad (p :: c :: ?x))
      with (negb (bad p c) && no_pair bad (c :: x)).
    rewrite Hp1. apply IH; [congruence|exact Hp2].
Qed.

Lemma cap_nl_runs (k : nat) (s : pystr) :
  nl_runs_lt3 (Nat.min k 2) (cap_nl k s) = true.
Proof.
  revert k. induction s as [|c s IH]; intros k; [reflexivity|].
  cbn [cap_nl]. destruct (Ascii.eqb c NL) eqn:E.
  - destruct k as [|[|k]].
    + cbn [Nat.ltb Nat.leb nl_runs_lt3]. cbn. apply (IH 1).
    + cbn. apply (IH 2).
    + change (S (S k) <? 2) with false. cbn iota.
      rewrite Nat.min_r by lia.
      specialize (IH (S (S (S k)))). now rewrite Nat.min_r in IH by lia.
  - cbn [nl_runs_lt3]. rewrite E. apply (IH 0).
Qed.

Lemma cap_nl_fixed (k : nat) (s : pystr) :
  nl_runs_lt3 k s = true -> cap_nl k s = s.
Proof.
  revert k. induction s as [|c s IH]; intros k; [reflexivity|].
  cbn [cap_nl nl_runs_lt3]. destruct (Ascii.eqb_spec c NL) as [-> | _].
  - intros H. apply andb_true_iff in H as [H1 H2].
    apply Nat.ltb_lt in H1.
    assert ((k <? 2) = true) as -> by (apply Nat.ltb_lt; lia).
    now rewrite (IH _ H2).
  - intros H. now rewrite (IH _ H).
Qed.

(** *** The whole pipeline *)

Lemma no_pair_guard bad (q : ascii) (s : pystr) :
  (forall c, bad q c = false) ->
  no_pair bad s = true -> no_pair bad (q :: s) = true.
Proof. intros Hq Hs. cbn. rewrite Hs. destruct s; cbn; now rewrite ?Hq. Qed.


Lemma pipeline_clean (s : pystr) : clean (pipeline s).
Proof.
  unfold pipeline. cbv zeta. set (s1 := replace [CR] [NL] _).
  assert (H1 : Forall (fun c => c <> CR) s1)
    by (apply replace_char_gone; repeat constructor; discriminate).
  unfold sub_hspace, sub_nl_pad. rewrite sub_nl3_cap.
  set (s2 := sub_hspace_from false s1).
  set (s3 := sub_nl_pad_from false 0 s2).
  set (p := "a"%char).
  assert (Hss2 : no_pair sp_sp (p :: s2) = true)
    by (apply sub_hspace_no_sp_sp; discriminate).
  assert (Hss3 : no_pair sp_sp (p :: s3) = true)
    by (apply (sub_nl_pad_no_sp_sp false 0 s2 p p);
        [exact Hss2|lia|discriminate|discriminate]).
  assert (Hsn3 : no_pair sp_nl (p :: s3) = true)
    by (apply sub_nl_pad_tight; discriminate).
  repeat split.
  - apply cap_nl_Forall, sub_nl_pad_Forall; [discriminate|].
    apply sub_hspace_Forall; [discriminate|exact H1].
  - apply cap_nl_Forall, sub_nl_pad_Forall; [discriminate|].
    apply sub_hspace_no_tab.
  - apply (no_pair_tail _ p), cap_nl_no_pair; [congruence|exact Hss3].
  - apply (no_pair_tail _ p), cap_nl_no_pair; [congruence|exact Hsn3].
  - apply (cap_nl_runs 0).
Qed.

Lemma clean_infix (l t r : pystr) : clean (l ++ t ++ r) -> clean t.
Proof.
  intros (H1 & H2 & H3 & H4 & H5). repeat split.
  - apply Forall_app in H1 as [_ H1]. now apply Forall_app in H1.
  - apply Forall_app in H2 as [_ H2]. now apply Forall_app in H2.
  - now apply no_pair_suffix, no_pair_prefix in H3.
  - now apply no_pair_suffix, no_pair_prefix in H4.
  - now apply nl_runs_suffix, nl_runs_prefix in H5.
Qed.

Lemma clean_snoc (t : pystr) : clean t -> stripped t -> clean (t ++ [NL]).
Proof.
  intros (H1 & H2 & H3 & H4 & H5) [_ Hl]. repeat split.
  - apply Forall_app. split; [exact H1|]. repeat constructor. discriminate.
  - apply Forall_app. split; [exact H2|]. repeat constructor. discriminate.
  - apply no_pair_snoc; [exact H3|]. destruct (rev t); [reflexivity|].
    cbn. unfold sp_sp. apply andb_false_r.
  - apply no_pair_snoc; [exact H4|]. destruct (rev t) as [|a r]; [reflexivity|].
    cbn in *. unfold sp_nl.
    destruct (Ascii.eqb_spec a SP) as [-> | ]; [discriminate|].
    cbn. apply andb_false_r.
  - destruct (rev t) as [|a r] eqn:E.
    + apply (f_equal (@rev _)) in E. rewrite rev_involutive in E. now subst.
    + apply (f_equal (@rev _)) in E. rewrite rev_involutive in E.
      cbn in E, Hl. subst t. rewrite <- app_assoc. cbn [app].
      apply nl_runs_snoc; [intros ->; discriminate|].
      now apply nl_runs_prefix in H5.
Qed.

Lemma clean_fixed (s : pystr) : clean s -> pipeline s = s.
Proof.
  intros (H1 & H2 & H3 & H4 & H5). unfold pipeline. cbv zeta.
  rewrite (replace_absent CR [NL] [NL] s H1), (replace_absent CR [] [NL] s H1).
  unfold sub_hspace. rewrite (sub_hspace_fixed false s "a"%char);
    [|exact H2|now apply no_pair_guard|discriminate].
  unfold sub_nl_pad. rewrite (sub_nl_pad_fixed false 0 s "a"%char);
    [|now apply no_pair_guard|discriminate|congruence].
  cbn [repeat app]. rewrite sub_nl3_cap. now apply cap_nl_fixed.
Qed.

(** The result of [normalize] is a stripped, clean text followed by one
    newline. *)
Lemma normalize_shape (s : pystr) :
  exists t, normalize s = t ++ [NL] /\ stripped t /\ clean (t ++ [NL]).
Proof.
  exists (strip (pipeline s)). split; [reflexivity|].
  pose proof (strip_stripped (pipeline s)) as Hs. split; [exact Hs|].
  apply clean_snoc; [|exact Hs].
  destruct (strip_infix (pipeline s)) as (l & r & E).
  apply (clean_infix l _ r). rewrite <- E. apply pipeline_clean.
Qed.

End ReFacts.

(** ** Facts on paths and on [url_to_outpath] *)
Module PathFacts.
Import Py Pathlib PyFacts.

Lemma startswith_app (r x : pystr) : startswith (r ++ x) r = true.
Proof. induction r as [|a r IH]; cbn; [reflexivity|]. now rewrite Ascii.eqb_refl. Qed.

Lemma endswith_snoc (s : pystr) (c : ascii) :
  endswith s [c] = true -> exists x, s = x ++ [c].
Proof.
  unfold endswith. cbn. destruct (rev s) as [|a t] eqn:E; [discriminate|].
  cbn. rewrite andb_true_r. intros H. apply Ascii.eqb_eq in H. subst a.
  exists (rev t). apply (f_equal (@rev _)) in E.
  now rewrite rev_involutive in E.
Qed.

Lemma split_nonempty (c : ascii) (s : pystr) : split c s <> [].
Proof.
  induction s as [|a s IH]; cbn; [discriminate|].
  destruct (Ascii.eqb a c); [discriminate|]. now destruct (split c s).
Qed.

Lemma split_app_sep (c : ascii) (x y : pystr) :
  split c (x ++ c :: y) = split c x ++ split c y.
Proof.
  induction x as [|a x IH]; cbn.
  - now rewrite Ascii.eqb_refl.
  - destruct (Ascii.eqb a c); [now rewrite IH|]. rewrite IH.
    pose proof (split_nonempty c x) as H. now destruct (split c x).
Qed.

Lemma split_no_sep (c : ascii) (s : pystr) :
  Forall (fun a => a <> c) s -> split c s = [s].
Proof.
  induction 1 as [|a s Ha Hs IH]; [reflexivity|]. cbn.
  now rewrite (ne_eqb_false a c Ha), IH.
Qed.

Lemma split_parts_no_sep (c : ascii) (s : pystr) :
  Forall (Forall (fun a => a <> c)) (split c s).
Proof.
  induction s as [|a s IH]; cbn; [repeat constructor|].
  destruct (Ascii.eqb_spec a c) as [-> | Ha]; [now constructor|].
  destruct (split c s) as [|w ws]; [repeat constructor; assumption|].
  inversion IH; subst. constructor; [|assumption]. now constructor.
Qed.

Lemma before_first_absent (c : ascii) (s : pystr) :
  Forall (fun a => a <> c) s -> before_first c s = s.
Proof.
  induction 1 as [|a s Ha Hs IH]; [reflexivity|]. cbn.
  now rewrite (ne_eqb_false a c Ha), IH.
Qed.

Lemma before_first_app (c : ascii) (x y : pystr) :
  before_first c (c :: x) = [] /\
  (Forall (fun a => a <> c) x -> before_first c (x ++ y) = x ++ before_first c y).
Proof.
  split; [cbn; now rewrite Ascii.eqb_refl|].
  induction 1 as [|a s Ha Hs IH]; [reflexivity|]. cbn.
  now rewrite (ne_eqb_false a c Ha), IH.
Qed.

Lemma lstrip_char_app (c : ascii) (x y : pystr) :
  (exists x', lstrip_char c (x ++ c :: y) = x' ++ c :: y)
  \/ lstrip_char c (x ++ c :: y) = lstrip_char c y.
Proof.
  induction x as [|a x IH]; cbn.
  - right. now rewrite Ascii.eqb_refl.
  - destruct (Ascii.eqb a c); [exact IH|]. left. now exists (a :: x).
Qed.

(** The names of a parsed path contain no slash. *)
Lemma parse_names_no_slash (s : pystr) :
  Forall (Forall (fun a => a <> SLASH)) (names (parse s)).
Proof.
  unfold parse. destruct (splitroot s) as [rt rel]. cbn.
  pose proof (split_parts_no_sep SLASH rel) as H.
  induction H as [|w ws Hw Hws IH]; cbn; [constructor|].
  destruct (keeps w); [constructor|]; assumption.
Qed.

Lemma last_Forall {A} (P : A -> Prop) (l : list A) (d : A) :
  P d -> Forall P l -> P (List.last l d).
Proof.
  intros Hd H. induction H as [|x l Hx Hl IH]; [exact Hd|].
  destruct l; [exact Hx|exact IH].
Qed.

Lemma name_no_slash (s : pystr) : Forall (fun a => a <> SLASH) (name (parse s)).
Proof.
  unfold name. apply (last_Forall (Forall (fun a => a <> SLASH)));
    [constructor|apply parse_names_no_slash].
Qed.

(** A file name appended after a directory part is the name of the
    parsed path. *)
Lemma name_parse_dir (dir file : pystr) :
  dir = [] \/ endswith dir [SLASH] = true ->
  Forall (fun a => a <> SLASH) file -> keeps file = true ->
  name (parse (dir ++ file)) = file.
Proof.
  intros Hdir Hfile Hk.
  assert (Hrest : forall rest,
             rest = file \/ (exists x, rest = x ++ SLASH :: file) ->
             List.last (List.filter keeps (split SLASH rest)) [] = file).
  { intros rest [-> | [x ->]].
    - rewrite split_no_sep by exact Hfile. cbn [List.filter]. now rewrite Hk.
    - rewrite split_app_sep, (split_no_sep SLASH file Hfile).
      rewrite List.filter_app. cbn [List.filter]. rewrite Hk. apply last_last. }
  assert (Hstrip : lstrip_char SLASH file = file).
  { destruct Hfile as [|a f Ha _]; [reflexivity|]. cbn.
    now rewrite (ne_eqb_false a SLASH Ha). }
  unfold name, parse, splitroot.
  destruct Hdir as [-> | Hd].
  - cbn [app]. destruct (startswith file [SLASH]);
      [destruct (_ =? 2)|]; cbn [names]; apply Hrest; rewrite ?Hstrip; auto.
  - apply endswith_snoc in Hd as [x ->]. rewrite <- app_assoc. cbn [app].
    destruct (startswith (x ++ SLASH :: file) [SLASH]).
    + destruct (lstrip_char_app SLASH x file) as [[x' E] | E];
        rewrite E; destruct (_ =? 2); cbn [names]; apply Hrest;
        rewrite ?Hstrip; eauto.
    + cbn [names]. apply Hrest. eauto.
Qed.

Lemma rfind_Some (c : ascii) (s : pystr) (i : nat) :
  rfind c s = Some i -> exists t, drop i s = c :: t.
Proof.
  revert i. induction s as [|x s IH]; intros i; cbn; [discriminate|].
  destruct (rfind c s) as [j|].
  - intros [= <-]. cbn. now apply IH.
  - destruct (Ascii.eqb_spec x c) as [-> | _]; [|discriminate].
    intros [= <-]. now exists s.
Qed.

Lemma suffix_start_Some (nm : pystr) (i : nat) :
  suffix_start nm = Some i -> exists t, drop i nm = DOT :: t.
Proof.
  unfold suffix_start. destruct (rfind DOT nm) as [j|] eqn:E; [|discriminate].
  destruct (_ && _); [|discriminate]. intros [= <-]. now apply rfind_Some in E.
Qed.

Lemma stem_suffix (p : PurePath) : stem p ++ suffix p = name p.
Proof.
  unfold stem, suffix. destruct (suffix_start (name p)).
  - apply take_drop.
  - apply app_nil_r.
Qed.

Lemma suffix_shape (p : PurePath) :
  suffix p = [] \/ exists t, suffix p = DOT :: t.
Proof.
  unfold suffix. destruct (suffix_start (name p)) as [i|] eqn:E; [|now left].
  right. now apply suffix_start_Some in E.
Qed.

Lemma contains_char (c : ascii) (s : pystr) :
  Forall (fun a => a <> c) s -> contains s [c] = false.
Proof.
  induction 1 as [|a s Ha Hs IH]; [reflexivity|]. cbn [contains startswith].
  rewrite IH, (ne_eqb_false c a) by congruence. reflexivity.
Qed.

Lemma with_suffix_ok (p : PurePath) (t : pystr) :
  Forall (fun a => a <> SLASH) t -> t <> [] -> name p <> [] ->
  with_suffix p (DOT :: t)
  = Some {| root := root p;
            names := removelast (names p) ++ [stem p ++ DOT :: t] |}.
Proof.
  intros Ht Hne Hnm. unfold with_suffix.
  rewrite contains_char by (constructor; [discriminate|exact Ht]).
  rewrite (bool_decide_eq_false_2 (DOT :: t = [])) by discriminate.
  rewrite (bool_decide_eq_false_2 (DOT :: t = [DOT])) by congruence.
  cbn [startswith negb andb orb]. rewrite Ascii.eqb_refl. cbn [negb andb orb].
  rewrite (bool_decide_eq_false_2 _ Hnm).
  do 3 f_equal. unfold suffix, stem.
  destruct (suffix_start (name p)) as [i|] eqn:E.
  - destruct (suffix_start_Some _ _ E) as [u Hu]. rewrite Hu.
    rewrite (bool_decide_eq_false_2 (DOT :: u = [])) by discriminate.
    assert (length (name p) - length (DOT :: u) = i) as ->; [|reflexivity].
    rewrite <- Hu, length_drop.
    assert (i < length (name p)); [|lia].
    apply (f_equal (@length _)) in Hu. rewrite length_drop in Hu.
    cbn [length] in Hu. lia.
  - now rewrite bool_decide_eq_true_2.
Qed.

Lemma dotdot_plain (acc l : list pystr) :
  Forall (fun n => n <> [DOT; DOT]) l -> dotdot acc l = rev acc ++ l.
Proof.
  intros H. revert acc. induction H as [|x l Hx Hl IH]; intros acc; cbn.
  - now rewrite app_nil_r.
  - rewrite (bool_decide_eq_false_2 _ Hx), IH. cbn. now rewrite <- app_assoc.
Qed.



End PathFacts.

(** ** The path mapper *)

(** C3, as amended.  [url_to_outpath] maps the URL [root ++ rel] as
    follows: the default document name is appended to a remainder that
    is empty or ends in a slash; the text from the first question mark
    on is dropped; of the path that is left, a final suffix [.html] or
    [.htm] (in any case) is replaced by [.txt], and otherwise [.txt] is
    appended to the file name; the result is joined onto the output
    directory, below it when the remainder does not start with a
    slash.  When the remainder is empty or ends in a slash and has no
    question mark, the file name of the result is [index.txt]. *)
Theorem url_to_outpath_mapping
    (root rel : pystr) (outdir : Pathlib.PurePath) :
  let rel1 := if bool_decide (rel = []) || Py.endswith rel (str "/")
              then rel ++ str "index.html" else rel in
  let p := Pathlib.parse (Py.before_first "?" rel1) in
  let new_name :=
    if bool_decide (Py.lower (Pathlib.suffix p) ∈ HTML_SUFFIXES)
    then Pathlib.stem p ++ str ".txt"
    else Pathlib.name p ++ str ".txt" in
  let renamed :=
    {| Pathlib.root := Pathlib.root p;
       Pathlib.names := removelast (Pathlib.names p) ++ [new_name] |} in
  (Pathlib.name p <> [] ->
   url_to_outpath (root ++ rel) root outdir
   = Some (Pathlib.joinpath outdir renamed))
  /\ Pathlib.stem p ++ Pathlib.suffix p = Pathlib.name p
  /\ (bool_decide (rel = []) || Py.endswith rel (str "/") = true ->
      Forall (fun c => c <> "?"%char) rel ->
      Pathlib.name p = str "index.html" /\ new_name = str "index.txt")
  /\ (Pathlib.root p = [] ->
      Pathlib.joinpath outdir renamed
      = {| Pathlib.root := Pathlib.root outdir;
           Pathlib.names := Pathlib.names outdir
                            ++ removelast (Pathlib.names p) ++ [new_name] |}).
Proof.
  intros rel1 p new_name renamed.
  assert (Hindex : bool_decide (rel = []) || Py.endswith rel (str "/") = true ->
                   Forall (fun c => c <> "?"%char) rel ->
                   Pathlib.name p = str "index.html").
  { intros Hdir Hq. subst p rel1. rewrite Hdir.
    destruct (PathFacts.before_first_app "?" rel (str "index.html")) as [_ ->];
      [|exact Hq].
    apply PathFacts.name_parse_dir; [|repeat constructor; discriminate|reflexivity].
    apply orb_true_iff in Hdir as [Hdir | Hdir]; [left|right; exact Hdir].
    now apply bool_decide_eq_true_1 in Hdir. }
  split; [|split; [|split]].
  - intros Hnm. unfold url_to_outpath. rewrite drop_app_length.
    fold rel1. fold p. subst renamed new_name.
    destruct (bool_decide (Py.lower (Pathlib.suffix p) ∈ HTML_SUFFIXES)).
    + change (str ".txt") with (Pathlib.DOT :: str "txt").
      rewrite PathFacts.with_suffix_ok;
        [reflexivity|repeat constructor; discriminate|discriminate|exact Hnm].
    + assert (Hns : Forall (fun a => a <> Pathlib.SLASH) (Pathlib.suffix p)).
      { pose proof (PathFacts.name_no_slash (Py.before_first "?" rel1)) as Hn.
        fold p in Hn. rewrite <- PathFacts.stem_suffix in Hn.
        now apply Forall_app in Hn. }
      destruct (PathFacts.suffix_shape p) as [E | [t E]].
      * rewrite E. cbn [app].
        change (str ".txt") with (Pathlib.DOT :: str "txt").
        rewrite PathFacts.with_suffix_ok;
          [|repeat constructor; discriminate|discriminate|exact Hnm].
        do 5 f_equal. rewrite <- (PathFacts.stem_suffix p), E.
        now rewrite app_nil_r.
      * rewrite E in *. cbn [app].
        rewrite PathFacts.with_suffix_ok; [| |now destruct t|exact Hnm].
        -- do 5 f_equal. rewrite <- (PathFacts.stem_suffix p), E.
           now rewrite <- app_assoc.
        -- inversion Hns; subst. apply Forall_app. split; [assumption|].
           repeat constructor; discriminate.
  - apply PathFacts.stem_suffix.
  - intros Hdir Hq. split; [now apply Hindex|].
    subst new_name. unfold Pathlib.suffix, Pathlib.stem.
    rewrite (Hindex Hdir Hq). reflexivity.
  - intros Hr. unfold Pathlib.joinpath. cbn [Pathlib.root Pathlib.names].
    now rewrite bool_decide_eq_true_2.
Qed.

(** The example of the specification for C3: the root URL itself is
    written to [index.txt] below the output directory. *)
Lemma url_to_outpath_mapping_witness :
  url_to_outpath (str "https://site/root/" ++ []) (str "https://site/root/")
                 (Pathlib.parse (str "/out"))
  = Some (Pathlib.parse (str "/out/index.txt")).
Proof.
  destruct (url_to_outpath_mapping (str "https://site/root/") []
              (Pathlib.parse (str "/out"))) as (H & _).
  rewrite H; [reflexivity|discriminate].
Defined.

(** C3 as stated fails: the remainder [a?b/] ends in a slash, the
    default document name is appended to it, and yet the result is
    [a.txt], because the query is cut off after the name is appended. *)
Lemma url_to_outpath_index_counterexample :
  Py.endswith (str "a?b/") (str "/") = true
  /\ url_to_outpath (str "https://site/root/a?b/") (str "https://site/root/")
                    (Pathlib.parse (str "/out"))
     = Some (Pathlib.parse (str "/out/a.txt"))
  /\ Py.endswith (Pathlib.name (Pathlib.parse (str "/out/a.txt")))
                 (str "index.txt") = false.
Proof. repeat split; reflexivity. Qed.

(** C9.  A URL within the root whose remainder is only a query string
    has no output path: the remainder [?query] is not empty, so that
    no default document name is appended unless it ends in a slash;
    the query-stripping step leaves the empty path either way;
    [with_suffix] raises on the empty name for every suffix, and so
    does [url_to_outpath]. *)
Theorem url_to_outpath_query_only
    (root query : pystr) (outdir : Pathlib.PurePath) :
  let url := root ++ str "?" ++ query in
  let rel := drop (length root) url in
  is_within_root url root = true
  /\ rel = str "?" ++ query
  /\ (Py.endswith rel (str "/") = false ->
      bool_decide (rel = []) || Py.endswith rel (str "/") = false)
  /\ Py.before_first "?" rel = []
  /\ Py.before_first "?" (rel ++ str "index.html") = []
  /\ (forall sfx, Pathlib.with_suffix (Pathlib.parse []) sfx = None)
  /\ url_to_outpath url root outdir = None.
Proof.
  intros url rel. subst rel url. unfold is_within_root.
  rewrite drop_app_length, PathFacts.startswith_app.
  split; [reflexivity|]. split; [reflexivity|]. split; [now intros ->|].
  split; [reflexivity|]. split; [reflexivity|]. split.
  - intros sfx. unfold Pathlib.with_suffix.
    destruct (Py.contains sfx [Pathlib.SLASH]); [reflexivity|].
    destruct (_ || _); reflexivity.
  - unfold url_to_outpath. rewrite drop_app_length.
    destruct (_ || _); reflexivity.
Qed.


Lemma url_to_outpath_query_only_witness :
  Py.endswith (str "?x=1") (str "/") = false
  /\ url_to_outpath (str "https://site/root/?x=1") (str "https://site/root/")
                    (Pathlib.parse (str "/out")) = None.
Proof.
  split; [reflexivity|].
  apply (url_to_outpath_query_only (str "https://site/root/") (str "x=1")
           (Pathlib.parse (str "/out"))).
Defined.

(** ** Text normalisation *)

(** C4.  [normalize] is idempotent: normalising a normalised text
    changes nothing. *)
Theorem normalize_idempotent (x : pystr) : normalize (normalize x) = normalize x.
Proof.
  destruct (ReFacts.normalize_shape x) as (t & E & Ht & Hc). rewrite E.
  unfold normalize at 1. rewrite (ReFacts.clean_fixed _ Hc).
  now rewrite PyFacts.strip_app_nl.
Qed.



(** ** The fetcher *)

(** C2, as amended.  [fetch] raises exactly when [session.get] raises
    or the status of the response is one of 400-599, and returns the
    body of the response in every other case, whatever the status. *)
Theorem fetch_outcome
    (session : pystr -> Z -> option Requests.Response)
    (url : pystr) (timeout : Z) :
  (fetch session url timeout = None <->
   session url timeout = None
   \/ exists r, session url timeout = Some r
        /\ (400 <= Requests.status_code r < 600)%Z)
  /\ (forall body, fetch session url timeout = Some body <->
      exists r, session url timeout = Some r
        /\ ~ (400 <= Requests.status_code r < 600)%Z
        /\ body = Requests.text r).
Proof.
  unfold fetch, Requests.raise_for_status.
  destruct (session url timeout) as [r|]; split.
  - split.
    + destruct (_ || _) eqn:E; [|discriminate]. intros _. right. exists r.
      split; [reflexivity|]. lia.
    + intros [H | (r' & [= <-] & H)]; [discriminate|].
      destruct (_ || _) eqn:E; [reflexivity|]. lia.
  - intros body. split.
    + destruct (_ || _) eqn:E; [discriminate|]. intros [= <-]. exists r.
      repeat split. lia.
    + intros (r' & [= <-] & H & ->).
      destruct (_ || _) eqn:E; [lia|reflexivity].
  - split; [now left|reflexivity].
  - intros body. split; [discriminate|]. now intros (r & H & _).
Qed.

(** C2 as stated fails for a status outside 200-299 that is not an
    error status: a response 300 is returned as a body. *)
Lemma fetch_status_300_counterexample :
  let r := {| Requests.status_code := 300; Requests.text := str "choices" |} in
  ~ (200 <= Requests.status_code r < 300)%Z
  /\ fetch (fun _ _ => Some r) (str "https://site/root/") 30 = Some (str "choices").
Proof. split; [cbn; lia|reflexivity]. Qed.

(** ** Tables *)
Module TableFacts.
Import Py PyFacts PathFacts.

Lemma join_no_char (c : ascii) (sep : pystr) (parts : list pystr) :
  Forall (fun a => a <> c) sep -> Forall (Forall (fun a => a <> c)) parts ->
  Forall (fun a => a <> c) (join sep parts).
Proof.
  intros Hsep H. induction H as [|p ps Hp Hps IH]; [constructor|].
  destruct ps as [|p' ps]; [exact Hp|].
  change (join sep (p :: p' :: ps)) with (p ++ sep ++ join sep (p' :: ps)).
  apply Forall_app. split; [exact Hp|]. apply Forall_app. now split.
Qed.

Lemma split_join (c : ascii) (rows : list pystr) :
  rows <> [] -> Forall (Forall (fun a => a <> c)) rows ->
  split c (join [c] rows) = rows.
Proof.
  intros Hne H. induction H as [|r rs Hr Hrs IH]; [congruence|].
  destruct rs as [|r' rs]; [now apply split_no_sep|].
  change (join [c] (r :: r' :: rs)) with (r ++ c :: join [c] (r' :: rs)).
  rewrite split_app_sep, (split_no_sep c r Hr), IH by discriminate. reflexivity.
Qed.

End TableFacts.

(** C7, as amended.  [table_to_text] writes the rows that have at
    least one header or data cell, in document order and separated by
    newlines; the string of a row is the texts of its cells joined by
    [" | "], and the text of a cell is its strings, each stripped, the
    empty ones left out, joined by one blank.  When no cell text
    contains a newline these strings are exactly the lines of the
    result.  The table of the example yields the line [A | B] followed
    by the line [1 | 2]. *)
Theorem table_to_text_rows (table : Bs4.node) :
  let cells_of (tr : Bs4.node) :=
    map (fun cell =>
           Py.join [SP]
             (List.filter (fun s => negb (bool_decide (s = [])))
                          (map Py.strip (Bs4.text_strings cell))))
        (Bs4.find_all [str "th"; str "td"] Bs4.any_attrs tr) in
  let rows :=
    List.filter (fun cells => negb (bool_decide (cells = [])))
      (map cells_of (Bs4.find_all [str "tr"] Bs4.any_attrs table)) in
  table_to_text table = Py.join [NL] (map (Py.join (str " | ")) rows)
  /\ (rows <> [] ->
      Forall (Forall (Forall (fun c => c <> NL))) rows ->
      Py.split NL (table_to_text table) = map (Py.join (str " | ")) rows)
  /\ soup_to_text Examples.table_page
     = str "A | B" ++ [NL] ++ str "1 | 2" ++ [NL].
Proof.
  intros cells_of rows. split; [reflexivity|]. split; [|reflexivity].
  intros Hne Hnl. change (table_to_text table)
    with (Py.join [NL] (map (Py.join (str " | ")) rows)).
  apply TableFacts.split_join.
  - destruct rows; [congruence|discriminate].
  - clear Hne. induction Hnl as [|r rs Hr Hrs IH]; [constructor|].
    constructor; [|exact IH].
    apply TableFacts.join_no_char; [repeat constructor; discriminate|exact Hr].
Qed.

Lemma table_to_text_rows_witness :
  Py.split NL (table_to_text Examples.table_page) = [str "A | B"; str "1 | 2"].
Proof.
  destruct (table_to_text_rows Examples.table_page) as (_ & H & _).
  rewrite H; [reflexivity|discriminate|].
  vm_compute. repeat constructor; discriminate.
Defined.

(** C7 as stated fails on a row without cells: the table has two rows
    and its text has one line. *)
Lemma table_empty_row_counterexample :
  length (Bs4.find_all [str "tr"] Bs4.any_attrs Examples.table_with_empty_row) = 2
  /\ Py.split NL (table_to_text Examples.table_with_empty_row) = [str "1"].
Proof. split; reflexivity. Qed.

(** ** Link extraction *)
Module LinkFacts.

Lemma collect_links_spec (ck : pystr -> bool) (base_url : pystr)
    (anchors : list Bs4.node) (acc links : gset pystr) :
  collect_links ck base_url anchors acc = Some links ->
  forall u, u ∈ links <->
            u ∈ acc \/ exists a, a ∈ anchors /\ Links.link_of ck base_url a u.
Proof.
  revert acc. induction anchors as [|a rest IH]; intros acc; cbn [collect_links].
  - intros [= <-] u. split; [now left|]. intros [H | (a & Ha & _)]; [exact H|].
    now apply elem_of_nil in Ha.
  - assert (Hskip : (forall u, ~ Links.link_of ck base_url a u) ->
                    collect_links ck base_url rest acc = Some links ->
                    forall u, u ∈ links <->
                      u ∈ acc \/ exists a', a' ∈ a :: rest
                                            /\ Links.link_of ck base_url a' u).
    { intros Hno Hc u. rewrite (IH _ Hc u). split.
      - intros [H | (a' & Ha' & Hl)]; [now left|]. right. exists a'.
        split; [now apply list_elem_of_further|exact Hl].
      - intros [H | (a' & Ha' & Hl)]; [now left|].
        apply elem_of_cons in Ha' as [-> | Ha']; [now apply Hno in Hl|].
        right. now exists a'. }
    destruct (Bs4.get (str "href") (Bs4.attrs_of a)) as [[h | l]|] eqn:Eh.
    + destruct (_ || _) eqn:Eskip.
      * apply Hskip. intros u (h' & abs_url & Hh & Hne & Hm & Hj & _).
        rewrite Eh in Hh. injection Hh as <-.
        rewrite Hm, Hj, orb_false_r, orb_false_r in Eskip.
        now apply bool_decide_eq_true_1 in Eskip.
      * apply orb_false_elim in Eskip as [Eskip Hj].
        apply orb_false_elim in Eskip as [Hne Hm].
        apply bool_decide_eq_false_1 in Hne.
        destruct (Urllib.urljoin ck base_url (Py.strip h)) as [abs_url|] eqn:Ej;
          [|discriminate].
        destruct (Urllib.urldefrag ck abs_url) as [v|] eqn:Ed; [|discriminate].
        intros Hc u. rewrite (IH _ Hc u). split.
        -- intros [H | (a' & Ha' & Hl)].
           ++ apply elem_of_union in H as [H | H]; [|now left].
              apply elem_of_singleton in H as ->. right. exists a.
              split; [apply list_elem_of_here|]. now exists h, abs_url.
           ++ right. exists a'. split; [now apply list_elem_of_further|exact Hl].
        -- intros [H | (a' & Ha' & Hl)].
           ++ left. apply elem_of_union. now right.
           ++ apply elem_of_cons in Ha' as [-> | Ha'].
              ** left. apply elem_of_union. left. apply elem_of_singleton.
                 destruct Hl as (h' & abs' & Hh & _ & _ & _ & Hj' & Hd').
                 rewrite Eh in Hh. injection Hh as <-.
                 rewrite Ej in Hj'. injection Hj' as <-. congruence.
              ** right. now exists a'.
    + discriminate.
    + apply Hskip. intros u (h' & abs_url & Hh & _). congruence.
Qed.


End LinkFacts.




(** ** The crawl loop *)
Section CrawlFacts.

Variable ck : pystr -> bool.
Variable html_parser : pystr -> Bs4.node.
Variable network : nat -> pystr -> Z -> option Requests.Response.
Variable disk_ok : Pathlib.PurePath -> bool.
Variable set_order : nat -> gset pystr -> list pystr.
Variable cfg : Config.

Abbreviation loop_body := (loop_body ck html_parser network disk_ok set_order cfg).
Abbreviation reachable := (reachable ck html_parser network disk_ok set_order cfg).
Abbreviation aborted := (aborted ck html_parser network disk_ok set_order cfg).
Abbreviation visited := (visited ck html_parser network disk_ok set_order cfg).
Abbreviation run := (run ck html_parser network disk_ok set_order cfg).
Abbreviation passes := (passes ck cfg).
Abbreviation checked := (checked ck cfg).

Lemma enqueue_spec (seen : gset pystr) (links q q' : list pystr) :
  enqueue ck cfg seen links q = Some q' ->
  forall u, u ∈ q' -> u ∈ q \/ (u ∈ links /\ (u ∉ seen) /\ passes u).
Proof.
  revert q. induction links as [|l links IH]; intros q; cbn [enqueue].
  - intros [= <-] u Hu. now left.
  - assert (Hrest : forall q0, enqueue ck cfg seen links q0 = Some q' ->
              (forall u, u ∈ q0 -> u ∈ q \/ (u ∈ (l :: links) /\ (u ∉ seen) /\ passes u)) ->
              forall u, u ∈ q' ->
                u ∈ q \/ (u ∈ (l :: links) /\ (u ∉ seen) /\ passes u)).
    { intros q0 He Hq0 u Hu. destruct (IH _ He u Hu) as [H | (H1 & H2 & H3)].
      - now apply Hq0.
      - right. split; [now apply list_elem_of_further|now split]. }
    destruct (negb (bool_decide (l ∈ seen)) && _) eqn:E.
    + apply andb_true_iff in E as [E1 E2]. apply negb_true_iff in E1.
      apply bool_decide_eq_false_1 in E1.
      destruct (should_skip_url ck l) as [[|]|] eqn:Es; [| |discriminate].
      * intros He. apply (Hrest _ He). now left.
      * intros He. apply (Hrest _ He). intros u Hu.
        apply elem_of_app in Hu as [Hu | Hu]; [now left|].
        apply list_elem_of_singleton in Hu as ->. right.
        split; [apply list_elem_of_here|]. now repeat split.
    + intros He. apply (Hrest _ He). now left.
Qed.

Lemma enqueue_reached_spec (seen : gset pystr) (links q : list pystr) :
  forall u, u ∈ enqueue_reached ck cfg seen links q ->
            u ∈ q \/ (u ∈ links /\ (u ∉ seen) /\ passes u).
Proof.
  revert q. induction links as [|l links IH]; intros q u; cbn [enqueue_reached].
  - now left.
  - assert (Hrest : forall q0,
              (forall v, v ∈ q0 ->
                 v ∈ q \/ (v ∈ (l :: links) /\ (v ∉ seen) /\ passes v)) ->
              u ∈ enqueue_reached ck cfg seen links q0 ->
              u ∈ q \/ (u ∈ (l :: links) /\ (u ∉ seen) /\ passes u)).
    { intros q0 Hq0 Hu. destruct (IH _ _ Hu) as [H | (H1 & H2 & H3)].
      - now apply Hq0.
      - right. split; [now apply list_elem_of_further|now split]. }
    destruct (negb (bool_decide (l ∈ seen)) && _) eqn:E.
    + apply andb_true_iff in E as [E1 E2]. apply negb_true_iff in E1.
      apply bool_decide_eq_false_1 in E1.
      destruct (should_skip_url ck l) as [[|]|] eqn:Es.
      * apply Hrest. now left.
      * apply Hrest. intros v Hv.
        apply elem_of_app in Hv as [Hv | Hv]; [now left|].
        apply list_elem_of_singleton in Hv as ->. right.
        split; [apply list_elem_of_here|]. now repeat split.
      * now left.
    + apply Hrest. now left.
Qed.

Lemma enqueue_reached_done (seen : gset pystr) (links q q' : list pystr) :
  enqueue ck cfg seen links q = Some q' ->
  enqueue_reached ck cfg seen links q = q'.
Proof.
  revert q. induction links as [|l links IH]; intros q;
    cbn [enqueue enqueue_reached].
  - now intros [= <-].
  - destruct (negb (bool_decide (l ∈ seen)) && _); [|apply IH].
    destruct (should_skip_url ck l) as [[|]|]; [apply IH|apply IH|discriminate].
Qed.

Lemma checked_init : checked (init cfg).
Proof.
  split; cbn.
  - intros e He. now apply elem_of_nil in He.
  - intros u Hu. apply list_elem_of_singleton in Hu. now left.
Qed.

Lemma checked_body (st st' : state) :
  checked st ->
  loop_body st = Next st' \/ loop_body st = Crash st' ->
  checked st'.
Proof.
  intros [Ht Hq]. unfold loop_body.
  destruct (q st) as [|url q1] eqn:Eq.
  { intros [[= <-] | [=]]. split; [exact Ht|]. now rewrite Eq. }
  assert (Hq1 : forall u, u ∈ q1 -> u = start cfg \/ passes u)
    by (intros u Hu; apply Hq; now apply list_elem_of_further).
  destruct (bool_decide (url ∈ seen st)).
  { intros [[= <-] | [=]]. now split. }
  cbv zeta. destruct (is_within_root url (root cfg)) eqn:Er; cbn [negb].
  2:{ intros [[= <-] | [=]]. now split. }
  destruct (should_skip_url ck url) as [[|]|] eqn:Es.
  { intros [[= <-] | [=]]. now split. }
  2:{ intros [[=] | [= <-]]. now split. }
  assert (Hp : passes url) by now split.
  assert (Ht1 : forall e, e ∈ (Fetch url :: trace st) -> passes (event_url e)).
  { intros e He. apply elem_of_cons in He as [-> | He]; [exact Hp|now apply Ht]. }
  destruct (fetch _ url (timeout cfg)) as [html|].
  2:{ intros [[= <-] | [=]]. split; [|exact Hq1]. cbn [trace].
      intros e He. apply elem_of_cons in He as [-> | He]; [exact Hp|now apply Ht1]. }
  destruct (url_to_outpath url (root cfg) (outdir cfg)) as [outpath|].
  2:{ intros [[=] | [= <-]]. now split. }
  destruct (disk_ok outpath); cbn [negb].
  2:{ intros [[=] | [= <-]]. now split. }
  assert (Ht2 : forall e, e ∈ (Write url outpath (html_to_text html_parser html)
                                   :: Fetch url :: trace st)
                          -> passes (event_url e)).
  { intros e He. apply elem_of_cons in He as [-> | He]; [exact Hp|now apply Ht1]. }
  destruct (Pathlib.relative_to outpath (outdir cfg)).
  2:{ intros [[=] | [= <-]]. now split. }
  destruct (extract_links ck html_parser html url) as [links|].
  2:{ intros [[=] | [= <-]]. now split. }
  destruct (enqueue ck cfg _ (set_order (gets st) links) q1) as [q2|] eqn:Ee.
  2:{ intros [[=] | [= <-]]. split; [exact Ht2|]. cbn [q].
      intros u Hu. destruct (enqueue_reached_spec _ _ _ u Hu) as [H | (_ & _ & H)].
      - now apply Hq1.
      - now right. }
  intros [[= <-] | [=]]. split; [exact Ht2|]. cbn [q].
  intros u Hu. destruct (enqueue_spec _ _ _ _ Ee u Hu) as [H | (_ & _ & H)].
  - now apply Hq1.
  - now right.
Qed.

Lemma reachable_checked (st : state) : reachable st -> checked st.
Proof.
  induction 1 as [|st st' _ IH _ Hb]; [apply checked_init|].
  apply (checked_body st); auto.
Qed.

Lemma visited_checked (st : state) : visited st -> checked st.
Proof.
  intros [H | (st0 & H & _ & Hb)]; [now apply reachable_checked|].
  apply (checked_body st0); [now apply reachable_checked|auto].
Qed.

Lemma existsb_false_Forall {A} (f : A -> bool) (l : list A) :
  existsb f l = false <-> Forall (fun x => f x = false) l.
Proof.
  induction l as [|x l IH]; cbn.
  - split; [constructor|reflexivity].
  - rewrite orb_false_iff, IH. split.
    + intros [H1 H2]. now constructor.
    + intros H. inversion H; subst. now split.
Qed.

Lemma should_skip_url_false (url : pystr) :
  should_skip_url ck url = Some false <->
  exists p, Urllib.urlparse ck url [] = Some p
    /\ Forall (fun ext => Py.endswith (Py.lower (Urllib.path p)) ext = false)
              SKIP_EXT.
Proof.
  unfold should_skip_url. destruct (Urllib.urlparse ck url []) as [p|].
  - split.
    + intros [= H]. exists p. split; [reflexivity|].
      now apply existsb_false_Forall.
    + intros (p' & [= <-] & H). cbv zeta. f_equal.
      now apply existsb_false_Forall.
  - split; [discriminate|]. now intros (p & H & _).
Qed.

(** *** The page limit *)

Lemma loop_cond_false (st : state) :
  loop_cond cfg st = false <-> q st = [] \/ (max_pages cfg <= saved st)%Z.
Proof.
  unfold loop_cond. rewrite andb_false_iff, negb_false_iff, Z.ltb_ge.
  split; (intros [H | H]; [left|now right]).
  - now apply bool_decide_eq_true_1 in H.
  - now apply bool_decide_eq_true_2.
Qed.

Lemma run_stop (st : state) (fuel : nat) :
  loop_cond cfg st = false -> run fuel st = Done st.
Proof. intros H. destruct fuel; cbn; now rewrite H. Qed.

(** A pass either leaves the count and shortens the queue, or adds
    one to the count; a pass that raises adds at most one. *)
Lemma loop_body_progress (st st' : state) :
  q st <> [] ->
  (loop_body st = Next st' ->
   (saved st' = saved st /\ length (q st') < length (q st))
   \/ saved st' = (saved st + 1)%Z)
  /\ (loop_body st = Crash st' ->
      saved st' = saved st \/ saved st' = (saved st + 1)%Z).
Proof.
  intros Hq. unfold loop_body. destruct (q st) as [|url q1]; [congruence|].
  cbv zeta.
  repeat match goal with
         | |- context [match ?x with _ => _ end] => destruct x
         end;
    split; intros [= <-]; cbn [saved q length]; auto; left; split; auto; lia.
Qed.

Lemma saved_bounds_body (st st' : state) :
  loop_cond cfg st = true ->
  loop_body st = Next st' \/ loop_body st = Crash st' ->
  (0 <= saved st <= Z.max 0 (max_pages cfg))%Z ->
  (0 <= saved st' <= Z.max 0 (max_pages cfg))%Z.
Proof.
  intros Hc Hb Hs. unfold loop_cond in Hc. apply andb_true_iff in Hc as [Hq Hm].
  apply negb_true_iff, bool_decide_eq_false_1 in Hq. apply Z.ltb_lt in Hm.
  destruct (loop_body_progress st st' Hq) as [Hn Hcr].
  destruct Hb as [Hb | Hb]; [destruct (Hn Hb) as [[E _] | E]|destruct (Hcr Hb) as [E | E]];
    rewrite E; lia.
Qed.

Lemma visited_saved_bounds (st : state) :
  visited st -> (0 <= saved st <= Z.max 0 (max_pages cfg))%Z.
Proof.
  assert (Hr : forall st, reachable st ->
                 (0 <= saved st <= Z.max 0 (max_pages cfg))%Z).
  { induction 1 as [|s s' _ IH Hc Hb]; [cbn; lia|].
    apply (saved_bounds_body s); auto. }
  intros [H | (st0 & H & Hc & Hb)]; [now apply Hr|].
  apply (saved_bounds_body st0); auto.
Qed.

Lemma run_halts (st : state) :
  exists fuel, (exists st', run fuel st = Done st')
               \/ (exists st', run fuel st = Aborted st').
Proof.
  remember (Z.to_nat (max_pages cfg - saved st)) as n eqn:En.
  remember (length (q st)) as m eqn:Em.
  revert m st En Em. induction n as [n IHn] using lt_wf_ind.
  induction m as [m IHm] using lt_wf_ind. intros st En Em.
  destruct (loop_cond cfg st) eqn:Hc.
  - pose proof Hc as Hc'. unfold loop_cond in Hc'.
    apply andb_true_iff in Hc' as [Hq Hm].
    apply negb_true_iff, bool_decide_eq_false_1 in Hq. apply Z.ltb_lt in Hm.
    destruct (loop_body st) as [st'|st'] eqn:Hb.
    + destruct (loop_body_progress st st' Hq) as [Hn _].
      destruct (Hn Hb) as [[E1 E2] | E].
      * destruct (IHm (length (q st')) ltac:(lia) st') as [fuel H];
          [rewrite E1; exact En|reflexivity|].
        exists (S fuel). cbn [run]. now rewrite Hc, Hb.
      * destruct (IHn (Z.to_nat (max_pages cfg - saved st')) ltac:(lia)
                    (length (q st')) st' eq_refl eq_refl) as [fuel H].
        exists (S fuel). cbn [run]. now rewrite Hc, Hb.
    + exists 1. right. exists st'. cbn [run]. now rewrite Hc, Hb.
  - exists 0. left. exists st. cbn. now rewrite Hc.
Qed.

Lemma run_sound (fuel : nat) (st : state) :
  reachable st ->
  (forall st', run fuel st = Done st' ->
               reachable st' /\ loop_cond cfg st' = false)
  /\ (forall st', run fuel st = Aborted st' -> aborted st').
Proof.
  revert st. induction fuel as [|fuel IH]; intros st Hr; cbn [run].
  - destruct (loop_cond cfg st) eqn:Hc; split; intros st' [= <-]. now split.
  - destruct (loop_cond cfg st) eqn:Hc.
    + destruct (loop_body st) as [s|s] eqn:Hb.
      * apply IH. now apply (reach_next _ _ _ _ _ _ st).
      * split; intros st' [= <-]. now exists st.
    + split; intros st' [= <-]. now split.
Qed.

(** A pass that takes a fresh URL from the queue, finds it within the
    root and not skipped, fetches it and maps it to a path that can be
    written, writes the page to that path, whatever happens next. *)
(** What a run of any length leaves is a state of the run. *)
Lemma run_visited (fuel : nat) (st : state) :
  reachable st -> visited (final (run fuel st)).
Proof.
  revert st. induction fuel as [|fuel IH]; intros st Hr; cbn [run].
  - destruct (loop_cond cfg st); now left.
  - destruct (loop_cond cfg st) eqn:Hc; [|now left].
    destruct (loop_body st) as [s|s] eqn:Hb.
    + apply IH. now apply (reach_next _ _ _ _ _ _ st).
    + right. now exists st.
Qed.


End CrawlFacts.

(** C1, as amended.  Whatever the order in which the sets of links
    are iterated, in every state of a run, at the head of the loop or
    where a pass raises, every URL that was fetched (with or without
    success) or written starts with the root prefix and has a path, as
    given by [urlparse], that ends, once lowered, in none of the skip
    extensions.  The path that [urlparse] gives is the path without
    the parameters that follow a semicolon in its last segment, so
    that an extension behind a semicolon is not seen.  The same holds
    for every queued URL other than the start URL, which is checked
    when it is taken from the queue. *)
Theorem crawl_urls_checked
    (ck : pystr -> bool) (html_parser : pystr -> Bs4.node)
    (network : nat -> pystr -> Z -> option Requests.Response)
    (disk_ok : Pathlib.PurePath -> bool)
    (set_order : nat -> gset pystr -> list pystr) (cfg : Config) (st : state) :
  visited ck html_parser network disk_ok set_order cfg st ->
  let checked_url (url : pystr) :=
    Py.startswith url (root cfg) = true
    /\ exists p, Urllib.urlparse ck url [] = Some p
         /\ Forall (fun ext => Py.endswith (Py.lower (Urllib.path p)) ext = false)
                   SKIP_EXT in
  (forall e, e ∈ trace st -> checked_url (event_url e))
  /\ (forall url, url ∈ q st -> url = start cfg \/ checked_url url).
Proof.
  intros Hv checked_url.
  destruct (visited_checked ck html_parser network disk_ok set_order cfg st Hv)
    as [Ht Hq].
  assert (Hp : forall url, passes ck cfg url -> checked_url url).
  { intros url [H1 H2]. split; [exact H1|].
    now apply should_skip_url_false. }
  split.
  - intros e He. apply Hp. now apply Ht.
  - intros url Hu. destruct (Hq url Hu) as [H | H]; [now left|right; now apply Hp].
Qed.

Lemma crawl_urls_checked_witness :
  Forall (fun url =>
            Py.startswith url (str "https://site/root/") = true
            /\ exists p,
                 Urllib.urlparse Examples.any_host url [] = Some p
                 /\ Forall (fun ext =>
                              Py.endswith (Py.lower (Urllib.path p)) ext = false)
                           SKIP_EXT)
         [str "https://site/root/index.html"; str "https://site/root/b.html"].
Proof.
  destruct (crawl_urls_checked Examples.any_host Examples.two_links_parser
              Examples.ok_network Examples.ok_disk Examples.reversed_order
              Examples.two_pages_cfg
              (Examples.crawl Examples.reversed_order Examples.two_pages_cfg 5))
    as [H _].
  - apply run_visited, reach_init.
  - constructor; [|constructor; [|constructor]].
    + apply (H (Fetch (str "https://site/root/index.html"))).
      vm_compute. do 3 apply list_elem_of_further. apply list_elem_of_here.
    + apply (H (Fetch (str "https://site/root/b.html"))).
      vm_compute. apply list_elem_of_further, list_elem_of_here.
Defined.

(** C1 as stated fails for an extension behind a semicolon: the path
    of [https://site/root/logo;v=2.png] is [/root/logo;v=2.png], which
    ends in [.png]; [urlparse] takes [v=2.png] for a parameter, the
    URL is not skipped, and a run that starts there requests it. *)
Lemma crawl_params_counterexample :
  visited Examples.any_host Examples.empty_parser Examples.ok_network
          Examples.ok_disk Examples.listed_order Examples.params_cfg
          (Examples.first_pass Examples.params_cfg)
  /\ Fetch (str "https://site/root/logo;v=2.png")
     ∈ trace (Examples.first_pass Examples.params_cfg)
  /\ exists r,
       Urllib.urlsplit Examples.any_host (str "https://site/root/logo;v=2.png") []
       = Some r
       /\ Urllib.s_path r = str "/root/logo;v=2.png"
       /\ Py.endswith (Py.lower (Urllib.s_path r)) (str ".png") = true.
Proof.
  split; [|split].
  - left. apply (reach_next _ _ _ _ _ _ (init Examples.params_cfg));
      [apply reach_init|reflexivity|vm_compute; reflexivity].
  - vm_compute. apply list_elem_of_further, list_elem_of_here.
  - eexists. split; [vm_compute; reflexivity|]. split; reflexivity.
Qed.

(** C6, as amended.  Whatever the order in which the sets of links
    are iterated: once the count of saved pages has reached the
    maximum the loop makes no further pass, whatever is in the queue;
    the loop is left exactly when the queue is empty or the count has
    reached the maximum; every run stops, by leaving the loop in such
    a state or by a pass that raises; and the count is never negative
    and never above the maximum, or above zero when the maximum is
    negative. *)
Theorem crawl_page_limit
    (ck : pystr -> bool) (html_parser : pystr -> Bs4.node)
    (network : nat -> pystr -> Z -> option Requests.Response)
    (disk_ok : Pathlib.PurePath -> bool)
    (set_order : nat -> gset pystr -> list pystr) (cfg : Config) :
  (forall st fuel, (max_pages cfg <= saved st)%Z ->
     run ck html_parser network disk_ok set_order cfg fuel st = Done st)
  /\ (forall st, loop_cond cfg st = false <->
        q st = [] \/ (max_pages cfg <= saved st)%Z)
  /\ (exists fuel st',
        (main ck html_parser network disk_ok set_order cfg fuel = Done st'
         /\ reachable ck html_parser network disk_ok set_order cfg st'
         /\ (q st' = [] \/ (max_pages cfg <= saved st')%Z))
        \/ (main ck html_parser network disk_ok set_order cfg fuel = Aborted st'
            /\ aborted ck html_parser network disk_ok set_order cfg st'))
  /\ (forall st, visited ck html_parser network disk_ok set_order cfg st ->
        (0 <= saved st <= Z.max 0 (max_pages cfg))%Z).
Proof.
  split; [|split; [|split]].
  - intros st fuel H. apply run_stop. apply loop_cond_false. now right.
  - apply loop_cond_false.
  - destruct (run_halts ck html_parser network disk_ok set_order cfg (init cfg))
      as [fuel [[st' H] | [st' H]]]; exists fuel, st'.
    + left. split; [exact H|].
      destruct (run_sound ck html_parser network disk_ok set_order cfg fuel
                  (init cfg) (reach_init _ _ _ _ _ _)) as [Hd _].
      destruct (Hd st' H) as [Hr Hc]. split; [exact Hr|].
      now apply loop_cond_false.
    + right. split; [exact H|].
      destruct (run_sound ck html_parser network disk_ok set_order cfg fuel
                  (init cfg) (reach_init _ _ _ _ _ _)) as [_ Ha].
      now apply Ha.
  - apply visited_saved_bounds.
Qed.

Lemma crawl_page_limit_witness :
  (0 <= saved (Examples.crawl Examples.reversed_order Examples.two_pages_cfg 5)
     <= Z.max 0 (max_pages Examples.two_pages_cfg))%Z
  /\ saved (Examples.crawl Examples.reversed_order Examples.two_pages_cfg 5) = 2%Z
  /\ q (Examples.crawl Examples.reversed_order Examples.two_pages_cfg 5)
     = [str "https://site/root/c.html"; str "https://site/root/c.html"].
Proof.
  split; [|split; vm_compute; reflexivity].
  apply (crawl_page_limit Examples.any_host Examples.two_links_parser
           Examples.ok_network Examples.ok_disk Examples.reversed_order
           Examples.two_pages_cfg).
  apply run_visited, reach_init.
Defined.

(** C6 as stated fails for a negative maximum: the run starts with a
    count of zero, which exceeds it. *)
Lemma crawl_negative_limit_counterexample :
  reachable Examples.any_host Examples.empty_parser Examples.ok_network
            Examples.ok_disk Examples.listed_order Examples.negative_cfg
            (init Examples.negative_cfg)
  /\ (max_pages Examples.negative_cfg < saved (init Examples.negative_cfg))%Z.
Proof. split; [apply reach_init|reflexivity]. Qed.



(** * Further properties *)

(** ** More on [normalize] *)
Module NormalizeMore.
Import Py Re Shape PyFacts ReFacts.

Lemma no_pair_contains bad (a b : ascii) (s : pystr) :
  bad a b = true -> no_pair bad s = true -> contains s [a; b] = false.
Proof.
  intros Hbad. induction s as [|c s IH]; [reflexivity|].
  cbn [no_pair contains]. intros H. apply andb_true_iff in H as [H1 H2].
  rewrite (IH H2), orb_false_r. cbn [startswith].
  destruct (Ascii.eqb_spec a c) as [<- | ]; [|reflexivity].
  destruct s as [|x s]; [reflexivity|]. cbn [hd_is] in H1. cbn [startswith andb].
  destruct (Ascii.eqb_spec b x) as [<- | ]; [|reflexivity].
  rewrite Hbad in H1. discriminate.
Qed.

Lemma startswith_prefix (s p : pystr) :
  startswith s p = true -> exists rest, s = p ++ rest.
Proof.
  revert s. induction p as [|a p IH]; intros s; [now exists s|].
  destruct s as [|b s]; [discriminate|]. cbn [startswith].
  intros H. apply andb_true_iff in H as [H1 H2]. apply Ascii.eqb_eq in H1.
  subst b. destruct (IH _ H2) as [rest ->]. now exists rest.
Qed.

Lemma replace_Forall (Q : ascii -> Prop) (old new : pystr) (k : nat) (s : pystr) :
  Forall Q new -> Forall Q s -> Forall Q (replace_from old new k s).
Proof.
  intros Hnew H. revert k. induction H as [|c s Hc Hs IH]; intros k;
    cbn [replace_from]; [constructor|].
  destruct k; [|apply IH].
  destruct (startswith (c :: s) old).
  - apply Forall_app. split; [exact Hnew|apply IH].
  - constructor; [exact Hc|apply IH].
Qed.

(** Filtering with a predicate that rejects the characters of [old]
    and of [new] does not see the replacement. *)
Lemma replace_filter (P : ascii -> bool) (old new : pystr) (k : nat) (s : pystr) :
  old <> [] ->
  Forall (fun c => P c = false) old -> Forall (fun c => P c = false) new ->
  Forall (fun c => P c = false) (take k s) ->
  List.filter P (replace_from old new k s) = List.filter P (drop k s).
Proof.
  intros Hne Hold Hnew. revert k. induction s as [|c s IH]; intros k Hk.
  - now destruct k.
  - cbn [replace_from]. destruct k as [|k].
    + destruct (startswith (c :: s) old) eqn:E.
      * apply startswith_prefix in E as [rest E].
        destruct old as [|o old]; [congruence|]. injection E as <- ->.
        inversion Hold as [|? ? Ho Hold']; subst.
        rewrite List.filter_app.
        assert (List.filter P new = []) as ->.
        { clear -Hnew. induction Hnew as [|x l Hx _ IHl]; [reflexivity|].
          cbn. now rewrite Hx. }
        cbn [length Nat.sub app]. rewrite Nat.sub_0_r.
        rewrite IH by (rewrite take_app_length; exact Hold').
        cbn [drop List.filter]. rewrite Ho, drop_app_length.
        rewrite List.filter_app.
        assert (List.filter P old = []) as ->; [|reflexivity].
        clear -Hold'. induction Hold' as [|x l Hx _ IHl]; [reflexivity|].
        cbn. now rewrite Hx.
      * cbn [drop List.filter]. destruct (P c); [f_equal|]; now apply (IH 0).
    + cbn [take] in Hk. inversion Hk; subst. now apply IH.
Qed.

Lemma sub_hspace_filter (P : ascii -> bool) (b : bool) (s : pystr) :
  P SP = false -> P TAB = false ->
  List.filter P (sub_hspace_from b s) = List.filter P s.
Proof.
  intros Hsp Htab. revert b. induction s as [|c s IH]; intros b; [reflexivity|].
  cbn [sub_hspace_from]. destruct (is_hspace c) eqn:E.
  - assert (P c = false) as Hc
      by (apply is_hspace_true in E as [-> | ->]; assumption).
    cbn [List.filter]. rewrite Hc. destruct b; cbn [List.filter];
      rewrite ?Hsp; apply IH.
  - cbn [List.filter]. now rewrite IH.
Qed.

Lemma filter_repeat_false (P : ascii -> bool) (c : ascii) (k : nat) (l : pystr) :
  P c = false -> List.filter P (repeat c k ++ l) = List.filter P l.
Proof. intros H. induction k as [|k IH]; cbn; [reflexivity|]. now rewrite H. Qed.

Lemma sub_nl_pad_filter (P : ascii -> bool) (a : bool) (k : nat) (s : pystr) :
  P SP = false ->
  List.filter P (sub_nl_pad_from a k s) = List.filter P s.
Proof.
  intros Hsp. revert a k. induction s as [|c s IH]; intros a k.
  - cbn [sub_nl_pad_from]. rewrite <- (app_nil_r (repeat SP k)).
    now rewrite filter_repeat_false.
  - cbn [sub_nl_pad_from]. destruct (Ascii.eqb_spec c SP) as [-> | _].
    + cbn [List.filter]. rewrite Hsp. destruct a; apply IH.
    + destruct (Ascii.eqb_spec c NL) as [-> | _].
      * cbn [List.filter]. now rewrite IH.
      * rewrite filter_repeat_false by exact Hsp. cbn [List.filter].
        now rewrite IH.
Qed.

Lemma cap_nl_filter (P : ascii -> bool) (k : nat) (s : pystr) :
  P NL = false -> List.filter P (cap_nl k s) = List.filter P s.
Proof.
  intros Hnl. revert k. induction s as [|c s IH]; intros k; [reflexivity|].
  cbn [cap_nl]. destruct (Ascii.eqb_spec c NL) as [-> | _].
  - cbn [List.filter]. rewrite Hnl. destruct (k <? 2); cbn [List.filter];
      rewrite ?Hnl; apply IH.
  - cbn [List.filter]. now rewrite IH.
Qed.

Lemma lstrip_filter (s : pystr) :
  List.filter (fun c => negb (isspace c)) (lstrip s)
  = List.filter (fun c => negb (isspace c)) s.
Proof.
  induction s as [|c s IH]; [reflexivity|]. cbn [lstrip List.filter].
  destruct (isspace c) eqn:E; [exact IH|]. cbn [List.filter]. now rewrite E.
Qed.

Lemma strip_filter (s : pystr) :
  List.filter (fun c => negb (isspace c)) (strip s)
  = List.filter (fun c => negb (isspace c)) s.
Proof.
  unfold strip, rstrip.
  rewrite List.filter_rev, lstrip_filter, <- List.filter_rev, rev_involutive.
  apply lstrip_filter.
Qed.

Lemma lstrip_all_space (s : pystr) :
  Forall (fun c => isspace c = true) s -> lstrip s = [].
Proof. induction 1 as [|c s Hc _ IH]; [reflexivity|]. cbn. now rewrite Hc. Qed.

End NormalizeMore.

(** X1.  The text returned by [normalize] has no carriage return and
    no tab, no two blanks in a row, and no blank before or after a
    newline: no line of it starts or ends with a blank. *)
Theorem normalize_output_clean (s : pystr) :
  Forall (fun c => c <> CR /\ c <> TAB) (normalize s)
  /\ Py.contains (normalize s) [SP; SP] = false
  /\ Py.contains (normalize s) [SP; NL] = false
  /\ Py.contains (normalize s) [NL; SP] = false.
Proof.
  destruct (ReFacts.normalize_shape s) as (t & E & _ & H1 & H2 & H3 & H4 & _).
  rewrite E. split; [|split; [|split]].
  - rewrite Forall_forall in H1, H2. apply Forall_forall. intros c Hc.
    split; [now apply H1|now apply H2].
  - now apply (NormalizeMore.no_pair_contains Shape.sp_sp).
  - now apply (NormalizeMore.no_pair_contains Shape.sp_nl).
  - now apply (NormalizeMore.no_pair_contains Shape.sp_nl).
Qed.

(** X2.  A text made of whitespace only, the empty text included, is
    normalised to the single newline. *)
Theorem normalize_whitespace_only (s : pystr) :
  Forall (fun c => Py.isspace c = true) s -> normalize s = [NL].
Proof.
  intros H. unfold normalize.
  assert (Hp : Forall (fun c => Py.isspace c = true) (pipeline s)).
  { unfold pipeline. cbv zeta. rewrite ReFacts.sub_nl3_cap.
    apply ReFacts.cap_nl_Forall, ReFacts.sub_nl_pad_Forall; [reflexivity|].
    apply ReFacts.sub_hspace_Forall; [reflexivity|].
    apply NormalizeMore.replace_Forall; [repeat constructor|].
    apply NormalizeMore.replace_Forall; [repeat constructor|exact H]. }
  unfold Py.strip. rewrite (NormalizeMore.lstrip_all_space _ Hp). reflexivity.
Qed.

Lemma normalize_whitespace_only_witness :
  normalize [SP; TAB; CR; NL; "160"%char; NL; NL; NL; SP] = [NL].
Proof.
  apply normalize_whitespace_only. repeat constructor.
Defined.

(** X3.  [normalize] touches whitespace only: the characters of the
    text that are not whitespace come out unchanged, all of them and in
    the same order. *)
Theorem normalize_keeps_text (s : pystr) :
  List.filter (fun c => negb (Py.isspace c)) (normalize s)
  = List.filter (fun c => negb (Py.isspace c)) s.
Proof.
  unfold normalize. rewrite List.filter_app. cbn [List.filter].
  change (negb (Py.isspace NL)) with false. cbn iota. rewrite app_nil_r.
  rewrite NormalizeMore.strip_filter. unfold pipeline. cbv zeta.
  rewrite ReFacts.sub_nl3_cap, NormalizeMore.cap_nl_filter by reflexivity.
  unfold Re.sub_nl_pad, Re.sub_hspace.
  rewrite NormalizeMore.sub_nl_pad_filter by reflexivity.
  rewrite NormalizeMore.sub_hspace_filter by reflexivity.
  unfold Py.replace.
  rewrite NormalizeMore.replace_filter;
    [|discriminate|repeat constructor..].
  rewrite drop_0.
  rewrite NormalizeMore.replace_filter;
    [reflexivity|discriminate|repeat constructor..].
Qed.

(** ** More on the root check and on the path mapper *)
Module PathMore.
Import Py Pathlib PyFacts PathFacts.

Lemma endswith_app (x y : pystr) : endswith (x ++ y) y = true.
Proof. unfold endswith. rewrite rev_app_distr. apply startswith_app. Qed.

(** The name that [with_suffix] builds is the stem with the new suffix. *)
Lemma new_name_stem (p : PurePath) (sfx : pystr) :
  (if bool_decide (suffix p = []) then name p ++ sfx
   else take (length (name p) - length (suffix p)) (name p) ++ sfx)
  = stem p ++ sfx.
Proof.
  unfold suffix, stem. destruct (suffix_start (name p)) as [i|] eqn:E.
  - destruct (suffix_start_Some _ _ E) as [u Hu]. rewrite Hu.
    rewrite (bool_decide_eq_false_2 (DOT :: u = [])) by discriminate.
    assert (length (name p) - length (DOT :: u) = i) as ->; [|reflexivity].
    rewrite <- Hu, length_drop.
    assert (i < length (name p)); [|lia].
    apply (f_equal (@length _)) in Hu. rewrite length_drop in Hu.
    cbn [length] in Hu. lia.
  - now rewrite bool_decide_eq_true_2.
Qed.

Lemma with_suffix_Some (p r : PurePath) (sfx : pystr) :
  with_suffix p sfx = Some r ->
  name p <> []
  /\ r = {| root := root p; names := removelast (names p) ++ [stem p ++ sfx] |}.
Proof.
  unfold with_suffix. destruct (contains sfx [SLASH]); [discriminate|].
  destruct (_ || _); [discriminate|]. cbv zeta.
  destruct (bool_decide (name p = [])) eqn:E; [discriminate|].
  apply bool_decide_eq_false_1 in E. rewrite new_name_stem.
  intros [= <-]. now split.
Qed.

Lemma with_suffix_no_name (p : PurePath) (sfx : pystr) :
  name p = [] -> with_suffix p sfx = None.
Proof.
  intros E. unfold with_suffix. destruct (contains sfx [SLASH]); [reflexivity|].
  destruct (_ || _); [reflexivity|]. cbv zeta.
  now rewrite (bool_decide_eq_true_2 _ E).
Qed.

(** The suffix that [url_to_outpath] hands to [with_suffix] is
    accepted whenever the path has a name. *)
Lemma renamed_Some (s : pystr) :
  let p := parse s in
  name p <> [] ->
  (if bool_decide (lower (suffix p) ∈ HTML_SUFFIXES)
   then with_suffix p (str ".txt")
   else with_suffix p (suffix p ++ str ".txt"))
  = Some {| root := root p;
            names := removelast (names p)
                     ++ [if bool_decide (lower (suffix p) ∈ HTML_SUFFIXES)
                         then stem p ++ str ".txt"
                         else name p ++ str ".txt"] |}.
Proof.
  intros p Hnm.
  destruct (bool_decide (lower (suffix p) ∈ HTML_SUFFIXES)).
  - change (str ".txt") with (DOT :: str "txt").
    rewrite with_suffix_ok;
      [reflexivity|repeat constructor; discriminate|discriminate|exact Hnm].
  - assert (Hns : Forall (fun a => a <> SLASH) (suffix p)).
    { pose proof (name_no_slash s) as Hn. fold p in Hn.
      rewrite <- stem_suffix in Hn. now apply Forall_app in Hn. }
    destruct (suffix_shape p) as [E | [t E]].
    + rewrite E. cbn [app]. change (str ".txt") with (DOT :: str "txt").
      rewrite with_suffix_ok;
        [|repeat constructor; discriminate|discriminate|exact Hnm].
      do 4 f_equal. rewrite <- (stem_suffix p), E. now rewrite app_nil_r.
    + rewrite E in *. cbn [app].
      rewrite with_suffix_ok; [| |now destruct t|exact Hnm].
      * do 4 f_equal. rewrite <- (stem_suffix p), E. now rewrite <- app_assoc.
      * inversion Hns; subst. apply Forall_app. split; [assumption|].
        repeat constructor; discriminate.
Qed.

Lemma keeps_false (x : pystr) : keeps x = false <-> x = [] \/ x = [DOT].
Proof.
  unfold keeps. destruct (decide (x = [])) as [-> | Hx]; [cbn; tauto|].
  rewrite (bool_decide_eq_false_2 _ Hx). cbn [negb andb].
  destruct (decide (x = [DOT])) as [-> | Hd]; [cbn; tauto|].
  rewrite (bool_decide_eq_false_2 _ Hd). cbn. split; [discriminate|tauto].
Qed.

Lemma filter_keeps_nil (l : list pystr) :
  List.filter keeps l = [] <-> Forall (fun seg => seg = [] \/ seg = [DOT]) l.
Proof.
  induction l as [|x l IH]; cbn [List.filter].
  - split; [constructor|reflexivity].
  - destruct (keeps x) eqn:E.
    + split; [discriminate|]. inversion 1 as [|? ? Hx _]; subst.
      apply keeps_false in Hx. congruence.
    + apply keeps_false in E. rewrite IH.
      split; [now constructor|now inversion 1].
Qed.

Lemma split_lstrip_Forall (Q : pystr -> Prop) (s : pystr) :
  Q [] ->
  Forall Q (split SLASH (lstrip_char SLASH s)) <-> Forall Q (split SLASH s).
Proof.
  intros HQ. induction s as [|c s IH]; [reflexivity|].
  cbn [lstrip_char]. destruct (Ascii.eqb_spec c SLASH) as [-> | Hc]; [|reflexivity].
  rewrite IH. cbn [split]. rewrite Ascii.eqb_refl.
  split; [intros H; now constructor|now inversion 1].
Qed.

Lemma names_parse_nil (s : pystr) :
  names (parse s) = [] <->
  Forall (fun seg => seg = [] \/ seg = [DOT]) (split SLASH s).
Proof.
  unfold parse, splitroot. destruct (startswith s [SLASH]).
  - destruct (_ =? 2); cbn [names]; rewrite filter_keeps_nil;
      apply split_lstrip_Forall; now left.
  - cbn [names]. apply filter_keeps_nil.
Qed.

Lemma name_nil_names (s : pystr) : name (parse s) = [] <-> names (parse s) = [].
Proof.
  unfold name. split; [|now intros ->].
  pose proof (parse_names_no_slash s) as _.
  assert (Hk : Forall (fun x => x <> []) (names (parse s))).
  { unfold parse. destruct (splitroot s) as [rt rel]. cbn [names].
    induction (split SLASH rel) as [|w ws IH]; cbn [List.filter]; [constructor|].
    destruct (keeps w) eqn:E; [|exact IH]. constructor; [|exact IH].
    intros ->. discriminate. }
  destruct (names (parse s)) as [|x l] using rev_ind; [reflexivity|].
  rewrite last_last. intros ->. apply Forall_app in Hk as [_ Hk].
  inversion Hk; subst. congruence.
Qed.

Lemma root_parse (s : pystr) :
  root (parse s) = [] <-> startswith s [SLASH] = false.
Proof.
  unfold parse, splitroot. destruct (startswith s [SLASH]).
  - destruct (_ =? 2); cbn; split; discriminate.
  - cbn. split; reflexivity.
Qed.

Lemma relative_to_joinpath (a : PurePath) (l : list pystr) :
  relative_to (joinpath a {| root := []; names := l |}) a
  = Some {| root := []; names := l |}.
Proof.
  destruct a as [ra na]. unfold joinpath. cbn [root names].
  rewrite bool_decide_eq_true_2 by reflexivity.
  unfold relative_to, abs_parts. cbv zeta. cbn [root names].
  destruct (decide (ra = [])) as [-> | E].
  - rewrite !bool_decide_eq_true_2 by reflexivity.
    rewrite (bool_decide_eq_true_2 (take (length na) (na ++ l) = na))
      by apply take_app_length.
    rewrite drop_app_length.
    destruct (length na =? 0); cbn [negb]; now destruct (length na =? 1).
  - rewrite !(bool_decide_eq_false_2 _ E). cbn [length Nat.eqb].
    rewrite (bool_decide_eq_true_2 (take _ _ = _))
      by apply (take_app_length ([] :: ra :: na) l).
    cbn [negb]. f_equal. f_equal.
    apply (drop_app_length ([] :: ra :: na) l).
Qed.

End PathMore.

(** X4.  [is_within_root] is the prefix test that goes with the slice
    [url[len(root):]] of [url_to_outpath]: it holds exactly when the
    URL is the root followed by that slice.  Every URL is within the
    empty root. *)
Theorem is_within_root_prefix (url root : pystr) :
  (is_within_root url root = true <-> url = root ++ drop (length root) url)
  /\ is_within_root url [] = true.
Proof.
  unfold is_within_root. split; [|reflexivity].
  split.
  - intros H. apply NormalizeMore.startswith_prefix in H as [rest ->].
    now rewrite drop_app_length.
  - intros ->. apply PathFacts.startswith_app.
Qed.

(** X5.  Whatever the URL, the root and the output directory, a path
    returned by [url_to_outpath] has a file name that ends in [.txt]. *)
Theorem url_to_outpath_txt
    (url root : pystr) (outdir p : Pathlib.PurePath) :
  url_to_outpath url root outdir = Some p ->
  Py.endswith (Pathlib.name p) (str ".txt") = true.
Proof.
  unfold url_to_outpath. cbv zeta.
  set (p0 := Pathlib.parse _).
  assert (Hlast : forall r sfx,
            Pathlib.with_suffix p0 (sfx ++ str ".txt") = Some r ->
            Py.endswith (Pathlib.name (Pathlib.joinpath outdir r)) (str ".txt")
            = true).
  { intros r sfx H. apply PathMore.with_suffix_Some in H as [_ ->].
    set (nm := Pathlib.stem p0 ++ sfx ++ str ".txt").
    assert (Hnm : Py.endswith nm (str ".txt") = true)
      by (subst nm; rewrite app_assoc; apply PathMore.endswith_app).
    unfold Pathlib.joinpath, Pathlib.name. cbn [Pathlib.root Pathlib.names].
    destruct (bool_decide (Pathlib.root p0 = [])); cbn [Pathlib.names].
    - now rewrite (app_assoc (Pathlib.names outdir)), last_last.
    - now rewrite last_last. }
  destruct (bool_decide (Py.lower (Pathlib.suffix p0) ∈ HTML_SUFFIXES)).
  - destruct (Pathlib.with_suffix p0 (str ".txt")) as [r|] eqn:E; [|discriminate].
    intros [= <-]. now apply (Hlast r []).
  - destruct (Pathlib.with_suffix p0 _) as [r|] eqn:E; [|discriminate].
    intros [= <-]. now apply (Hlast r (Pathlib.suffix p0)).
Qed.

Lemma url_to_outpath_txt_witness :
  Py.endswith (Pathlib.name (Pathlib.parse (str "/out/pkg/Robot.png.txt")))
              (str ".txt") = true.
Proof.
  apply (url_to_outpath_txt (str "https://site/root/pkg/Robot.png?x")
           (str "https://site/root/") (Pathlib.parse (str "/out"))).
  reflexivity.
Defined.

(** X6.  [url_to_outpath] raises exactly when the remainder, with the
    default document name appended where it applies and cut at the
    first question mark, has no component other than empty ones and
    single dots. *)
Theorem url_to_outpath_fails_iff
    (url root : pystr) (outdir : Pathlib.PurePath) :
  let rel := drop (length root) url in
  let rel1 := if bool_decide (rel = []) || Py.endswith rel (str "/")
              then rel ++ str "index.html" else rel in
  url_to_outpath url root outdir = None <->
  Forall (fun seg => seg = [] \/ seg = str ".")
         (Py.split "/" (Py.before_first "?" rel1)).
Proof.
  intros rel rel1. rewrite <- PathMore.names_parse_nil, <- PathMore.name_nil_names.
  unfold url_to_outpath. fold rel. fold rel1. cbv zeta.
  destruct (decide (Pathlib.name (Pathlib.parse (Py.before_first "?" rel1)) = []))
    as [E | E].
  - split; [now intros _|intros _].
    rewrite !(PathMore.with_suffix_no_name _ _ E).
    destruct (bool_decide (_ ∈ HTML_SUFFIXES)); reflexivity.
  - split; [|contradiction].
    now rewrite (PathMore.renamed_Some _ E).
Qed.

(** X7.  A query does not change the output path: for a remainder
    that is not empty, does not end in a slash and has no question
    mark, the URL with a query appended is mapped like the URL
    without it, so that the two are written to the same file. *)
Theorem url_to_outpath_query_ignored
    (root rel query : pystr) (outdir : Pathlib.PurePath) :
  rel <> [] -> Py.endswith rel (str "/") = false ->
  Forall (fun c => c <> "?"%char) rel ->
  url_to_outpath (root ++ rel ++ str "?" ++ query) root outdir
  = url_to_outpath (root ++ rel) root outdir.
Proof.
  intros Hne Hsl Hq. unfold url_to_outpath. rewrite !drop_app_length.
  rewrite (bool_decide_eq_false_2 _ Hne), Hsl. cbn [orb].
  rewrite (PathFacts.before_first_absent _ _ Hq).
  assert (forall x, Py.before_first "?" ((rel ++ str "?" ++ query) ++ x) = rel)
    as Hcut.
  { intros x. rewrite <- !app_assoc.
    destruct (PathFacts.before_first_app "?" rel (str "?" ++ query ++ x))
      as [_ ->]; [|exact Hq].
    cbn. now rewrite app_nil_r. }
  destruct (_ || _).
  - now rewrite Hcut.
  - rewrite <- (app_nil_r (rel ++ _)). now rewrite Hcut.
Qed.

Lemma url_to_outpath_query_ignored_witness :
  url_to_outpath (str "https://site/root/" ++ str "pkg/A.html" ++ str "?"
                    ++ str "is-external=true")
                 (str "https://site/root/") (Pathlib.parse (str "/out"))
  = url_to_outpath (str "https://site/root/" ++ str "pkg/A.html")
                   (str "https://site/root/") (Pathlib.parse (str "/out")).
Proof.
  apply (url_to_outpath_query_ignored (str "https://site/root/")
           (str "pkg/A.html") (str "is-external=true")
           (Pathlib.parse (str "/out")));
    [discriminate|reflexivity|repeat constructor; discriminate].
Defined.

(** X8.  A remainder that does not start with a slash and has no
    [..] component is mapped into the output directory: the path
    returned lies inside it, and [relative_to] of line 243 gives back
    the mapped remainder instead of raising. *)
Theorem url_to_outpath_inside
    (url root : pystr) (outdir p : Pathlib.PurePath) :
  let rel := drop (length root) url in
  let rel1 := if bool_decide (rel = []) || Py.endswith rel (str "/")
              then rel ++ str "index.html" else rel in
  let stripped := Py.before_first "?" rel1 in
  Py.startswith stripped (str "/") = false ->
  Forall (fun seg => seg <> str "..") (Py.split "/" stripped) ->
  Forall (fun n => n <> str "..") (Pathlib.names outdir) ->
  url_to_outpath url root outdir = Some p ->
  Pathlib.inside outdir p = true
  /\ exists l, p = Pathlib.joinpath outdir {| Pathlib.root := []; Pathlib.names := l |}
       /\ Pathlib.relative_to p outdir
          = Some {| Pathlib.root := []; Pathlib.names := l |}.
Proof.
  intros rel rel1 stripped Hrel Hseg Hout. unfold url_to_outpath.
  fold rel. fold rel1. fold stripped. cbv zeta.
  set (p0 := Pathlib.parse stripped).
  assert (Hroot : Pathlib.root p0 = []) by now apply PathMore.root_parse.
  assert (Hnames : Forall (fun n => n <> str "..") (Pathlib.names p0)).
  { subst p0. unfold Pathlib.parse, Pathlib.splitroot. fold (str "/") in *.
    change [Pathlib.SLASH] with (str "/"). rewrite Hrel. cbn [Pathlib.names].
    apply List.Forall_forall. intros x Hx. apply List.filter_In in Hx as [Hx _].
    exact (proj1 (List.Forall_forall _ _) Hseg x Hx). }
  assert (Hmain : forall r sfx,
            Pathlib.with_suffix p0 (sfx ++ str ".txt") = Some r ->
            Pathlib.inside outdir (Pathlib.joinpath outdir r) = true
            /\ exists l,
                 Pathlib.joinpath outdir r
                 = Pathlib.joinpath outdir {| Pathlib.root := []; Pathlib.names := l |}
                 /\ Pathlib.relative_to (Pathlib.joinpath outdir r) outdir
                    = Some {| Pathlib.root := []; Pathlib.names := l |}).
  { intros r sfx H. apply PathMore.with_suffix_Some in H as [_ ->].
    rewrite Hroot. split.
    - unfold Pathlib.joinpath, Pathlib.inside. cbn [Pathlib.root Pathlib.names].
      rewrite !bool_decide_eq_true_2 by reflexivity. cbn [Pathlib.names andb].
      assert (Hl : Forall (fun n => n <> [Pathlib.DOT; Pathlib.DOT])
                     (removelast (Pathlib.names p0)
                      ++ [Pathlib.stem p0 ++ sfx ++ str ".txt"])).
      { apply Forall_app. split.
        - clear -Hnames. induction Hnames as [|x l Hx Hl IH]; [constructor|].
          cbn [removelast]. destruct l; [constructor|].
          constructor; [exact Hx|exact IH].
        - constructor; [|constructor]. intros E.
          apply (f_equal (@length _)) in E. rewrite !length_app in E.
          cbn in E. lia. }
      rewrite (PathFacts.dotdot_plain [] _ Hout).
      rewrite (PathFacts.dotdot_plain [] (Pathlib.names outdir ++ _))
        by (apply Forall_app; split; [exact Hout|exact Hl]).
      cbn [rev app]. rewrite take_app_length, length_app, length_app.
      rewrite bool_decide_eq_true_2 by reflexivity. cbn [length].
      rewrite andb_true_r. apply Nat.ltb_lt. lia.
    - eexists. split; [reflexivity|]. apply PathMore.relative_to_joinpath. }
  destruct (bool_decide (Py.lower (Pathlib.suffix p0) ∈ HTML_SUFFIXES)).
  - destruct (Pathlib.with_suffix p0 (str ".txt")) as [r|] eqn:E; [|discriminate].
    intros [= <-]. now apply (Hmain r []).
  - destruct (Pathlib.with_suffix p0 _) as [r|] eqn:E; [|discriminate].
    intros [= <-]. now apply (Hmain r (Pathlib.suffix p0)).
Qed.

Lemma url_to_outpath_inside_witness :
  Pathlib.inside (Pathlib.parse (str "/out"))
                 (Pathlib.parse (str "/out/pkg/A.txt")) = true.
Proof.
  apply (url_to_outpath_inside (str "https://site/root/pkg/A.html")
           (str "https://site/root/") (Pathlib.parse (str "/out"))
           (Pathlib.parse (str "/out/pkg/A.txt")));
    [reflexivity|vm_compute; repeat constructor; discriminate
    |vm_compute; repeat constructor; discriminate|reflexivity].
Defined.

(** ** More on the URL checks *)
Module UrlMore.
Import Urllib UrlSteps.

Lemma urlsplit_steps (ck : pystr -> bool) (url scheme0 : pystr) :
  urlsplit ck url scheme0 =
  let '(sch, r) := split_scheme (remove_unsafe (strip_c0 scheme0))
                                (remove_unsafe (lstrip_c0 url)) in
  let '(nl, r) := split_netloc r in
  if (has "[" nl && negb (has "]" nl)) || (has "]" nl && negb (has "[" nl))
  then None
  else if has "[" nl && has "]" nl && negb (check_bracketed_netloc ck nl)
  then None
  else
    let '(r, frag) := partition "#" r in
    let '(r, qry) := partition "?" r in
    Some {| s_scheme := sch; s_netloc := nl; s_path := r;
            s_query := default [] qry; s_fragment := default [] frag |}.
Proof. reflexivity. Qed.

Lemma partition_spec (c : ascii) (s : pystr) :
  match partition c s with
  | (a, Some b) => s = a ++ c :: b /\ Forall (fun x => x <> c) a
  | (a, None) => a = s /\ Forall (fun x => x <> c) s
  end.
Proof.
  induction s as [|x s IH]; cbn [partition]; [now split|].
  destruct (Ascii.eqb_spec x c) as [-> | Hx]; [now split|].
  destruct (partition c s) as [a [b|]]; destruct IH as [E H].
  - split; [now rewrite E|now constructor].
  - split; [now rewrite E|now constructor].
Qed.

Lemma partition_absent (c : ascii) (s : pystr) :
  Forall (fun x => x <> c) s -> partition c s = (s, None).
Proof.
  induction 1 as [|x s Hx _ IH]; cbn [partition]; [reflexivity|].
  destruct (Ascii.eqb_spec x c) as [E | _]; [contradiction|]. now rewrite IH.
Qed.

Lemma partition_first (c : ascii) (a b : pystr) :
  Forall (fun x => x <> c) a -> partition c (a ++ c :: b) = (a, Some b).
Proof.
  induction 1 as [|x s Hx _ IH]; cbn [partition app].
  - now rewrite Ascii.eqb_refl.
  - destruct (Ascii.eqb_spec x c) as [E | _]; [contradiction|]. now rewrite IH.
Qed.

(** A separator other than [c] in front of the tail: the cut stays
    where it was if there was one, and otherwise falls after the
    separator. *)
Lemma partition_app (c x : ascii) (u t : pystr) :
  partition c (u ++ x :: t) =
  match partition c u with
  | (a, Some b) => (a, Some (b ++ x :: t))
  | (a, None) => let '(a', b') := partition c (x :: t) in (a ++ a', b')
  end.
Proof.
  induction u as [|y u IH]; cbn [app].
  - simpl (partition c []). cbv iota beta.
    now destruct (partition c (x :: t)).
  - set (pxt := partition c (x :: t)) in *. cbn [partition].
    destruct (Ascii.eqb y c); [reflexivity|].
    rewrite IH. destruct (partition c u) as [a [b|]]; [reflexivity|].
    now destruct pxt.
Qed.

Lemma Forall_filter_keep {A} (P : A -> Prop) (f : A -> bool) (l : list A) :
  Forall P l -> Forall P (List.filter f l).
Proof.
  induction 1 as [|x l Hx _ IH]; cbn [List.filter]; [constructor|].
  destruct (f x); [now constructor|exact IH].
Qed.

Lemma lstrip_c0_Forall (P : ascii -> Prop) (s : pystr) :
  Forall P s -> Forall P (lstrip_c0 s).
Proof.
  induction 1 as [|x l Hx Hl IH]; cbn [lstrip_c0]; [constructor|].
  destruct (_ <=? _); [exact IH|now constructor].
Qed.

Lemma after_last_Forall (P : ascii -> Prop) (c : ascii) (s : pystr) :
  Forall P s -> Forall P (after_last c s).
Proof.
  induction 1 as [|x l Hx Hl IH]; cbn [after_last]; [constructor|].
  destruct (has c l); [exact IH|]. destruct (Ascii.eqb x c); [exact Hl|].
  now constructor.
Qed.

Lemma span_netloc_spec (s : pystr) :
  s = fst (span_netloc s) ++ snd (span_netloc s)
  /\ Forall (fun c => c <> "/"%char /\ c <> "?"%char /\ c <> "#"%char)
            (fst (span_netloc s)).
Proof.
  induction s as [|c s [IH1 IH2]]; cbn [span_netloc]; [now split|].
  destruct (Ascii.eqb_spec c "/") as [-> | H1]; [now split|].
  destruct (Ascii.eqb_spec c "?") as [-> | H2]; [now split|].
  destruct (Ascii.eqb_spec c "#") as [-> | H3]; [now split|].
  cbn [orb]. destruct (span_netloc s) as [a b]. cbn [fst snd] in *. split.
  - now rewrite IH1 at 1.
  - now constructor.
Qed.

Lemma has_false (c : ascii) (s : pystr) :
  has c s = false <-> Forall (fun x => x <> c) s.
Proof.
  unfold has. induction s as [|x s IH]; cbn [existsb].
  - split; [constructor|reflexivity].
  - rewrite orb_false_iff, IH. split.
    + intros [H1 H2]. constructor; [|exact H2].
      intros ->. now rewrite Ascii.eqb_refl in H1.
    + intros H. inversion H as [|? ? Hx Hs]; subst. split; [|exact Hs].
      destruct (Ascii.eqb_spec c x); congruence.
Qed.

Lemma split_scheme_Forall (P : ascii -> Prop) (s0 u : pystr) :
  Forall P u -> Forall P (snd (split_scheme s0 u)).
Proof.
  intros Hu. unfold split_scheme. pose proof (partition_spec ":" u) as Hp.
  destruct (partition ":" u) as [[|c pre] [b|]]; try exact Hu.
  destruct (_ && _); [|exact Hu]. destruct Hp as [E _]. rewrite E in Hu.
  apply Forall_app in Hu as [_ Hu]. now inversion Hu.
Qed.

Lemma split_netloc_Forall (P : ascii -> Prop) (u : pystr) :
  Forall P u -> Forall P (snd (split_netloc u)).
Proof.
  intros Hu. unfold split_netloc. destruct (Py.startswith u _); [|exact Hu].
  destruct (span_netloc_spec (drop 2 u)) as [E _].
  apply (Forall_drop _ 2) in Hu. rewrite E in Hu.
  now apply Forall_app in Hu as [_ Hu].
Qed.

(** *** A query or a fragment behind a URL *)

Section Tail.

Variable sep : ascii.
Hypothesis Hsep : sep = "?"%char \/ sep = "#"%char.

Lemma lstrip_c0_tail (u t : pystr) :
  lstrip_c0 (u ++ sep :: t) = lstrip_c0 u ++ sep :: t.
Proof.
  induction u as [|c u IH]; cbn [app lstrip_c0].
  - now destruct Hsep as [-> | ->].
  - now destruct (_ <=? _).
Qed.

Lemma remove_unsafe_tail (u t : pystr) :
  remove_unsafe (u ++ sep :: t) = remove_unsafe u ++ sep :: remove_unsafe t.
Proof.
  unfold remove_unsafe. rewrite List.filter_app. f_equal.
  now destruct Hsep as [-> | ->].
Qed.

Lemma split_scheme_eq (s0 u t : pystr) :
  split_scheme s0 (u ++ sep :: t)
  = (fst (split_scheme s0 u), snd (split_scheme s0 u) ++ sep :: t).
Proof.
  unfold split_scheme. rewrite partition_app.
  pose proof (partition_spec ":" u) as Hp.
  destruct (partition ":" u) as [a [b|]].
  - destruct a as [|c pre]; [reflexivity|]. now destruct (_ && _).
  - destruct Hp as [-> _]. cbn [fst snd].
    destruct (partition ":" (sep :: t)) as [a' b'] eqn:E'.
    assert (Ha' : exists r, a' = sep :: r).
    { cbn [partition] in E'. destruct (Ascii.eqb sep ":") eqn:Es.
      - exfalso. destruct Hsep as [-> | ->]; discriminate.
      - destruct (partition ":" t) as [x y]. injection E' as <- _. now eexists. }
    destruct Ha' as [r ->].
    destruct b' as [rest|]; [|now destruct u].
    destruct u as [|c u]; cbn [app].
    + assert (is_ascii_alpha sep = false) as -> by now destruct Hsep as [-> | ->].
      reflexivity.
    + cbn [forallb]. rewrite forallb_app. cbn [forallb].
      assert (has sep scheme_chars = false) as ->
        by now destruct Hsep as [-> | ->].
      now rewrite !andb_false_r.
Qed.

Lemma split_netloc_eq (u t : pystr) :
  split_netloc (u ++ sep :: t)
  = (fst (split_netloc u), snd (split_netloc u) ++ sep :: t).
Proof.
  unfold split_netloc.
  assert (Hs : sep <> "/"%char) by (destruct Hsep as [-> | ->]; discriminate).
  assert (Hspan : forall w, span_netloc (w ++ sep :: t)
                            = (fst (span_netloc w), snd (span_netloc w) ++ sep :: t)).
  { induction w as [|c w IH]; cbn [app span_netloc].
    - now destruct Hsep as [-> | ->].
    - destruct (_ || _); [reflexivity|]. rewrite IH.
      now destruct (span_netloc w). }
  assert (Hs' : Ascii.eqb "/" sep = false)
    by (apply Ascii.eqb_neq; congruence).
  change (str "//") with ["/"%char; "/"%char].
  destruct u as [|c1 [|c2 u]]; cbn [app Py.startswith].
  - now rewrite Hs'.
  - rewrite Hs', andb_false_r. now destruct (Ascii.eqb "/" c1).
  - destruct (Ascii.eqb "/" c1 && (Ascii.eqb "/" c2 && true)); [|reflexivity].
    cbn [drop skipn app]. now rewrite !drop_0, Hspan.
Qed.

Lemma split_scheme_tail (s0 u t : pystr) :
  no_query_mark u ->
  split_scheme s0 (u ++ sep :: t)
  = (fst (split_scheme s0 u), snd (split_scheme s0 u) ++ sep :: t)
  /\ no_query_mark (snd (split_scheme s0 u)).
Proof.
  intros Hu. split; [apply split_scheme_eq|now apply split_scheme_Forall].
Qed.

Lemma split_netloc_tail (u t : pystr) :
  no_query_mark u ->
  split_netloc (u ++ sep :: t)
  = (fst (split_netloc u), snd (split_netloc u) ++ sep :: t)
  /\ no_query_mark (snd (split_netloc u)).
Proof.
  intros Hu. split; [apply split_netloc_eq|now apply split_netloc_Forall].
Qed.

(** The scheme, the host part and the path of a URL without [?] and
    [#] are those of the URL followed by a query or a fragment, and
    one is rejected when the other is. *)
Lemma urlsplit_tail (ck : pystr -> bool) (url t s0 : pystr) :
  no_query_mark url ->
  option_map (fun r => (s_scheme r, s_netloc r, s_path r))
             (urlsplit ck (url ++ sep :: t) s0)
  = option_map (fun r => (s_scheme r, s_netloc r, s_path r))
               (urlsplit ck url s0).
Proof.
  intros Hu. rewrite !urlsplit_steps. cbv zeta.
  rewrite lstrip_c0_tail, remove_unsafe_tail.
  set (u := remove_unsafe (lstrip_c0 url)).
  assert (Hu' : no_query_mark u)
    by now apply Forall_filter_keep, lstrip_c0_Forall.
  destruct (split_scheme_tail (remove_unsafe (strip_c0 s0)) u (remove_unsafe t) Hu')
    as [-> H1].
  destruct (split_scheme _ u) as [sch r1]. cbn [fst snd] in *.
  destruct (split_netloc_tail r1 (remove_unsafe t) H1) as [-> H2].
  destruct (split_netloc r1) as [nl r2]. cbn [fst snd] in *.
  destruct (_ || _); [reflexivity|]. destruct (_ && _); [reflexivity|].
  assert (Hq : Forall (fun x => x <> "?"%char) r2)
    by (eapply Forall_impl; [exact H2|now intros ? [? ?]]).
  assert (Hh : Forall (fun x => x <> "#"%char) r2)
    by (eapply Forall_impl; [exact H2|now intros ? [? ?]]).
  rewrite (partition_absent "#" r2 Hh), (partition_absent "?" r2 Hq).
  destruct Hsep as [-> | ->].
  - rewrite partition_app, (partition_absent "#" r2 Hh).
    destruct (partition "#" ("?"%char :: remove_unsafe t)) as [a' b'] eqn:E.
    cbn [partition] in E. cbn in E.
    destruct (partition "#" (remove_unsafe t)) as [x y]. injection E as <- _.
    now rewrite (partition_first "?" r2 x Hq).
  - rewrite (partition_first "#" r2 _ Hh). now rewrite (partition_absent "?" r2 Hq).
Qed.

End Tail.

(** *** No [#] in what [urldefrag] returns *)

Abbreviation no_hash := (Forall (fun c : ascii => c <> "#"%char)).

Lemma lower_no_hash (s : pystr) :
  forallb (fun x => has x scheme_chars) s = true -> no_hash (Py.lower s).
Proof.
  induction s as [|c s IH]; cbn [forallb Py.lower map]; [constructor|].
  intros H. apply andb_true_iff in H as [Hc Hs]. constructor; [|now apply IH].
  clear -Hc. intros E. revert Hc E.
  destruct c as [[] [] [] [] [] [] [] []]; vm_compute; congruence.
Qed.

Lemma split_scheme_no_hash (s0 u : pystr) :
  no_hash s0 -> no_hash (fst (split_scheme s0 u)).
Proof.
  intros H0. unfold split_scheme.
  destruct (partition ":" u) as [[|c pre] [rest|]]; try exact H0.
  destruct (is_ascii_alpha c); cbn [andb]; [|exact H0].
  destruct (forallb _ _) eqn:E; [|exact H0]. now apply lower_no_hash.
Qed.

Lemma split_netloc_no_hash (u : pystr) : no_hash (fst (split_netloc u)).
Proof.
  unfold split_netloc. destruct (Py.startswith u _); [|constructor].
  destruct (span_netloc_spec (drop 2 u)) as [_ H].
  eapply Forall_impl; [exact H|]. now intros ? (_ & _ & ?).
Qed.

Lemma splitparams_no_hash (u : pystr) :
  no_hash u -> no_hash (fst (splitparams u)) /\ no_hash (snd (splitparams u)).
Proof.
  intros Hu. unfold splitparams.
  assert (Hpart : forall w, no_hash w ->
            match partition ";" w with
            | (a, Some b) => no_hash a /\ no_hash b
            | (a, None) => True
            end).
  { intros w Hw. pose proof (partition_spec ";" w) as Hp.
    destruct (partition ";" w) as [a [b|]]; [|exact I].
    destruct Hp as [-> _]. apply Forall_app in Hw as [Ha Hb].
    split; [exact Ha|now inversion Hb]. }
  destruct (has "/" u).
  - pose proof (Hpart _ (after_last_Forall _ "/" u Hu)) as Hp.
    destruct (partition ";" (after_last "/" u)) as [a [b|]]; cbn [fst snd].
    + destruct Hp as [Ha Hb]. split; [|exact Hb].
      apply Forall_app. split; [now apply Forall_take|exact Ha].
    + split; [exact Hu|constructor].
  - pose proof (Hpart _ Hu) as Hp.
    destruct (partition ";" u) as [a [b|]]; cbn [fst snd]; [exact Hp|].
    split; [exact Hu|constructor].
Qed.

Lemma urlunparse_no_hash (sch nl url prm qry : pystr) :
  no_hash sch -> no_hash nl -> no_hash url -> no_hash prm -> no_hash qry ->
  no_hash (urlunparse sch nl url prm qry []).
Proof.
  intros Hs Hn Hu Hp Hq. unfold urlunparse, urlunsplit. cbv zeta.
  assert (Hc : forall s : string, has "#" (str s) = false -> no_hash (str s))
    by (intros s H; now apply has_false).
  rewrite (bool_decide_eq_true_2 ([] = []) eq_refl).
  repeat match goal with
         | |- no_hash (if ?b then _ else _) => destruct b
         | |- no_hash (_ ++ _) => apply Forall_app; split
         | |- no_hash (str _) => apply Hc; reflexivity
         end; assumption.
Qed.

(** No part of a parsed URL but the fragment holds a [#]. *)
Lemma urlparse_no_hash (ck : pystr -> bool) (url s0 : pystr) (r : ParseResult) :
  no_hash (remove_unsafe (strip_c0 s0)) ->
  urlparse ck url s0 = Some r ->
  no_hash (scheme r) /\ no_hash (netloc r) /\ no_hash (path r)
  /\ no_hash (params r) /\ no_hash (query r).
Proof.
  intros H0. unfold urlparse. rewrite urlsplit_steps. cbv zeta.
  pose proof (split_scheme_no_hash _ (remove_unsafe (lstrip_c0 url)) H0) as Hsch.
  destruct (split_scheme _ _) as [sch r1]. cbn [fst] in Hsch.
  pose proof (split_netloc_no_hash r1) as Hnl.
  destruct (split_netloc r1) as [nl r2]. cbn [fst] in Hnl.
  destruct (_ || _); [discriminate|]. destruct (_ && _); [discriminate|].
  pose proof (partition_spec "#" r2) as Hp.
  assert (Hr : no_hash (fst (partition "#" r2))).
  { destruct (partition "#" r2) as [a [b|]]; cbn [fst]; [tauto|].
    destruct Hp as [-> H]. exact H. }
  destruct (partition "#" r2) as [r3 frag]. cbn [fst] in Hr. clear Hp.
  pose proof (partition_spec "?" r3) as Hp.
  assert (Hpq : no_hash (fst (partition "?" r3))
                /\ no_hash (default [] (snd (partition "?" r3)))).
  { destruct (partition "?" r3) as [a [b|]]; cbn [fst snd default].
    - destruct Hp as [-> _]. apply Forall_app in Hr as [Ha Hb].
      split; [exact Ha|now inversion Hb].
    - destruct Hp as [-> _]. split; [exact Hr|constructor]. }
  destruct (partition "?" r3) as [pth qry]. cbn [fst snd] in Hpq.
  destruct Hpq as [Hpth Hqry]. cbn [s_scheme s_netloc s_path s_query s_fragment].
  destruct (splitparams_no_hash pth Hpth) as [Hsp1 Hsp2].
  assert (Hpp : forall b : bool,
            let '(p, prm) := if b then splitparams pth else (pth, []) in
            no_hash p /\ no_hash prm).
  { intros []; [destruct (splitparams pth); now split|split; [exact Hpth|constructor]]. }
  specialize (Hpp (bool_decide (sch ∈ uses_params) && has ";" pth)).
  destruct (if bool_decide (sch ∈ uses_params) && has ";" pth
            then splitparams pth else (pth, [])) as [p prm].
  destruct Hpp as [Hp1 Hp2]. intros [= <-].
  cbn [scheme netloc path params query]. auto.
Qed.

Lemma urldefrag_no_hash (ck : pystr -> bool) (url u : pystr) :
  urldefrag ck url = Some u -> has "#" u = false.
Proof.
  unfold urldefrag. destruct (has "#" url) eqn:E; [|now intros [= <-]].
  destruct (urlparse ck url []) as [r|] eqn:Er; [|discriminate].
  destruct (urlparse_no_hash ck url [] r) as (H1 & H2 & H3 & H4 & H5);
    [constructor|exact Er|].
  intros [= <-]. apply has_false. now apply urlunparse_no_hash.
Qed.

End UrlMore.

(** X9.  Whether a URL is skipped does not depend on a query or a
    fragment behind it: for a URL without [?] and [#], following it
    by [?] or [#] and any text gives the same answer of
    [should_skip_url], or the same failure.  So [style.css?v=3] is
    skipped like [style.css], and [index.html?overview] is kept like
    [index.html]. *)
Theorem should_skip_url_ignores_query
    (ck : pystr -> bool) (url tail : pystr) (sep : ascii) :
  sep = "?"%char \/ sep = "#"%char ->
  UrlSteps.no_query_mark url ->
  should_skip_url ck (url ++ sep :: tail) = should_skip_url ck url.
Proof.
  intros Hsep Hu. unfold should_skip_url, Urllib.urlparse.
  pose proof (UrlMore.urlsplit_tail sep Hsep ck url tail [] Hu) as H.
  destruct (Urllib.urlsplit ck (url ++ sep :: tail) []) as [r|];
    destruct (Urllib.urlsplit ck url []) as [r'|]; try discriminate;
    [|reflexivity].
  injection H as -> _ ->.
  now destruct (if _ && _ then _ else _).
Qed.

Lemma should_skip_url_ignores_query_witness :
  should_skip_url Examples.any_host (str "https://site/root/style.css" ++ "?"%char :: str "v=3")
  = Some true.
Proof.
  rewrite (should_skip_url_ignores_query Examples.any_host
             (str "https://site/root/style.css") (str "v=3") "?");
    [reflexivity|now left|repeat constructor; discriminate].
Defined.

(** X10.  No link returned by [extract_links] contains a [#]: the
    fragment is cut off, so that two targets that differ in the
    fragment only are one entry of the set. *)
Theorem extract_links_no_fragment
    (ck : pystr -> bool) (html_parser : pystr -> Bs4.node)
    (html base_url : pystr) (links : gset pystr) (u : pystr) :
  extract_links ck html_parser html base_url = Some links ->
  u ∈ links -> Urllib.has "#" u = false.
Proof.
  intros H Hu. unfold extract_links, soup_links in H.
  apply (LinkFacts.collect_links_spec _ _ _ _ _ H u) in Hu.
  destruct Hu as [Hu | (a & _ & h & abs_url & Hl)]; [now apply elem_of_empty in Hu|].
  destruct Hl as (_ & _ & _ & _ & _ & Hd).
  exact (UrlMore.urldefrag_no_hash _ _ _ Hd).
Qed.

Lemma extract_links_no_fragment_witness :
  Urllib.has "#" (str "https://site/root/x/y.html") = false.
Proof.
  apply (extract_links_no_fragment Examples.any_host (fun _ => Examples.links_page)
           [] (str "https://site/root/sub/page.html")
           {[ str "https://site/root/x/y.html" ]}).
  - vm_compute. reflexivity.
  - now apply elem_of_singleton.
Defined.

(** ** More on the parse tree *)
Module TreeMore.
Import Bs4.

(** Induction on a tree, with the hypothesis for every child. *)
Lemma node_nested_ind (P : node -> Prop) :
  (forall k s, P (NavigableString k s)) ->
  (forall nm a cs, Forall P cs -> P (Tag nm a cs)) ->
  forall n, P n.
Proof.
  intros Hs Ht.
  exact (fix IH (n : node) : P n :=
           match n with
           | NavigableString k s => Hs k s
           | Tag nm a cs =>
               Ht nm a cs
                 ((fix go (l : list node) : Forall P l :=
                     match l with
                     | [] => @List.Forall_nil _ P
                     | c :: l' => @List.Forall_cons _ P c l' (IH c) (go l')
                     end) cs)
           end).
Qed.

Lemma descendants_Tag (nm : pystr) (a : list (pystr * attrval)) (cs : list node) :
  descendants (Tag nm a cs) = flat_map (fun c => c :: descendants c) cs.
Proof.
  cbn [descendants]. induction cs as [|c cs IH]; [reflexivity|].
  cbn [flat_map app]. now rewrite IH.
Qed.

Lemma decompose_junk_Tag (nm : pystr) (a : list (pystr * attrval)) (cs : list node) :
  decompose_junk (Tag nm a cs)
  = Tag nm a (map decompose_junk
                (List.filter (fun c => negb (is_tag_named JUNK_TAGS c)) cs)).
Proof.
  cbn [decompose_junk]. f_equal. induction cs as [|c cs IH]; [reflexivity|].
  cbn [List.filter]. destruct (is_tag_named JUNK_TAGS c); cbn [negb map];
    now rewrite IH.
Qed.

Lemma is_tag_named_decompose (names : list pystr) (n : node) :
  is_tag_named names (decompose_junk n) = is_tag_named names n.
Proof. now destruct n. Qed.

Lemma decompose_junk_clean (n : node) :
  Forall (fun d => is_tag_named JUNK_TAGS d = false) (descendants (decompose_junk n)).
Proof.
  induction n as [k s | nm a cs IH] using node_nested_ind; [constructor|].
  rewrite decompose_junk_Tag, descendants_Tag.
  induction IH as [|c cs Hc _ IHcs]; [constructor|].
  cbn [List.filter]. destruct (is_tag_named JUNK_TAGS c) eqn:E; cbn [negb];
    [exact IHcs|].
  cbn [map flat_map]. constructor; [now rewrite is_tag_named_decompose|].
  apply Forall_app. split; [exact Hc|exact IHcs].
Qed.

Lemma decompose_junk_fixed (n : node) :
  decompose_junk (decompose_junk n) = decompose_junk n.
Proof.
  induction n as [k s | nm a cs IH] using node_nested_ind; [reflexivity|].
  rewrite !decompose_junk_Tag. f_equal.
  induction IH as [|c cs Hc _ IHcs]; [reflexivity|].
  cbn [List.filter]. destruct (is_tag_named JUNK_TAGS c) eqn:E; cbn [negb];
    [exact IHcs|].
  cbn [map List.filter]. rewrite is_tag_named_decompose, E. cbn [negb map].
  now rewrite Hc, IHcs.
Qed.

Lemma find_Some (names : list pystr) (cond : list (pystr * attrval) -> bool)
    (n f : node) :
  find names cond n = Some f ->
  f ∈ descendants n /\ is_tag_named names f = true /\ cond (attrs_of f) = true.
Proof.
  unfold find, find_all. intros H.
  assert (Hin : In f (List.filter (fun d => is_tag_named names d && cond (attrs_of d))
                        (descendants n))).
  { destruct (List.filter _ _) as [|x l]; [discriminate|].
    injection H as ->. now left. }
  apply List.filter_In in Hin as [H1 H2]. apply andb_true_iff in H2.
  split; [now apply list_elem_of_In|exact H2].
Qed.

Lemma is_tag_named_mono (names names' : list pystr) (n : node) :
  (forall x, x ∈ names -> x ∈ names') ->
  is_tag_named names n = true -> is_tag_named names' n = true.
Proof.
  intros Hsub. destruct n as [|nm a cs]; [discriminate|]. cbn [is_tag_named].
  intros H. apply bool_decide_eq_true_1 in H. now apply bool_decide_eq_true_2, Hsub.
Qed.

Lemma pick_main_content_cases (soup : node) :
  pick_main_content soup = soup
  \/ (pick_main_content soup ∈ descendants soup
      /\ is_tag_named [str "main"; str "div"; str "article"; str "body"]
                      (pick_main_content soup) = true).
Proof.
  unfold pick_main_content. cbv zeta.
  assert (Hf : forall names cond f,
            find names cond soup = Some f ->
            (forall x, x ∈ names ->
               x ∈ [str "main"; str "div"; str "article"; str "body"]) ->
            f = soup
            \/ (f ∈ descendants soup
                /\ is_tag_named
                     [str "main"; str "div"; str "article"; str "body"] f = true)).
  { intros names cond f H Hsub. right.
    apply find_Some in H as (H1 & H2 & _).
    split; [exact H1|]. now apply (is_tag_named_mono names). }
  assert (Hone : forall y : pystr,
            y ∈ [str "main"; str "div"; str "article"; str "body"] ->
            forall x, x ∈ [y] ->
            x ∈ [str "main"; str "div"; str "article"; str "body"]).
  { intros y Hy x Hx. apply list_elem_of_singleton in Hx. now subst. }
  cbn [omap list_omap head default]. unfold id.
  repeat match goal with
         | |- context [head (match find ?n ?c soup with _ => _ end)] =>
             let E := fresh "E" in
             destruct (find n c soup) eqn:E;
             [cbn [head default]; apply (Hf _ _ _ E), Hone;
              repeat first [apply list_elem_of_here|apply list_elem_of_further]|]
         end.
  now left.
Qed.

End TreeMore.

(** X11.  The loop of lines 80-81 leaves no script, style or noscript
    element anywhere below the root of the tree, and running it again
    changes nothing, so the text of a page is the text of the page
    without these elements. *)
Theorem decompose_junk_removes (soup : Bs4.node) :
  Bs4.find_all JUNK_TAGS Bs4.any_attrs (decompose_junk soup) = []
  /\ decompose_junk (decompose_junk soup) = decompose_junk soup
  /\ soup_to_text (decompose_junk soup) = soup_to_text soup.
Proof.
  split; [|split].
  - unfold Bs4.find_all.
    pose proof (TreeMore.decompose_junk_clean soup) as H.
    induction H as [|d l Hd _ IH]; [reflexivity|].
    cbn [List.filter]. now rewrite Hd.
  - apply TreeMore.decompose_junk_fixed.
  - unfold soup_to_text. now rewrite TreeMore.decompose_junk_fixed.
Qed.

(** X12.  [pick_main_content] returns the document itself or an
    element below it that is named [main], [div], [article] or
    [body], never a string below it; and when there is a [main]
    element anywhere below the document, the element returned is
    named [main]. *)
Theorem pick_main_content_choice (soup : Bs4.node) :
  let r := pick_main_content soup in
  (r = soup
   \/ (r ∈ Bs4.descendants soup
       /\ Bs4.is_tag_named [str "main"; str "div"; str "article"; str "body"] r
          = true))
  /\ implb (existsb (Bs4.is_tag_named [str "main"]) (Bs4.descendants soup))
           (Bs4.is_tag_named [str "main"] r) = true.
Proof.
  intros r. subst r. split; [apply TreeMore.pick_main_content_cases|].
  unfold pick_main_content. cbv zeta.
  destruct (existsb _ _) eqn:Hex; [|reflexivity]. cbn [implb].
  apply existsb_exists in Hex as (m & Hm1 & Hm2).
  destruct (Bs4.find [str "main"] Bs4.any_attrs soup) as [f|] eqn:E.
  - cbn [omap list_omap head default]. unfold id.
    now apply TreeMore.find_Some in E as (_ & H & _).
  - exfalso. unfold Bs4.find, Bs4.find_all in E.
    assert (Hin : In m (List.filter
                          (fun d => Bs4.is_tag_named [str "main"] d
                                    && Bs4.any_attrs (Bs4.attrs_of d))
                          (Bs4.descendants soup))).
    { apply List.filter_In. split; [exact Hm1|]. now rewrite Hm2. }
    destruct (List.filter _ _); [contradiction|discriminate].
Qed.

(** ** Where the characters of the text come from *)
Module ProvenanceFacts.
Import Bs4 Provenance.

Lemma strings_of_Tag (nm : pystr) (a : list (pystr * attrval)) (cs : list node)
    (s : pystr) :
  s ∈ strings_of (Tag nm a cs) <-> exists c, In c cs /\ s ∈ strings_of c.
Proof.
  unfold strings_of at 1. cbn [omap list_omap]. rewrite TreeMore.descendants_Tag.
  rewrite list_elem_of_omap. split.
  - intros (d & Hd & E). apply list_elem_of_In, in_flat_map in Hd as (c & Hc & Hd).
    exists c. split; [exact Hc|]. unfold strings_of. apply list_elem_of_omap.
    exists d. split; [now apply list_elem_of_In|exact E].
  - intros (c & Hc & Hs). unfold strings_of in Hs.
    apply list_elem_of_omap in Hs as (d & Hd & E).
    exists d. split; [|exact E]. apply list_elem_of_In, in_flat_map.
    exists c. split; [exact Hc|now apply list_elem_of_In].
Qed.

Lemma from_page_mono (n m : node) (c : ascii) :
  strings_sub n m -> from_page n c -> from_page m c.
Proof.
  intros Hsub [H | [H | (s & Hs & Hc)]]; [now left|right; now left|].
  right. right. exists s. split; [now apply Hsub|exact Hc].
Qed.

Lemma child_sub (nm : pystr) (a : list (pystr * attrval)) (cs : list node)
    (c : node) :
  In c cs -> strings_sub c (Tag nm a cs).
Proof. intros Hc s Hs. apply strings_of_Tag. now exists c. Qed.

Lemma desc_sub (n d : node) : In d (descendants n) -> strings_sub d n.
Proof.
  revert d. induction n as [k s | nm a cs IH] using TreeMore.node_nested_ind;
    intros d Hd; [contradiction|].
  rewrite TreeMore.descendants_Tag in Hd. apply in_flat_map in Hd as (c & Hc & Hd).
  intros s Hs. apply (child_sub nm a cs c Hc).
  destruct Hd as [<- | Hd]; [exact Hs|].
  rewrite List.Forall_forall in IH. exact (IH c Hc d Hd s Hs).
Qed.

Lemma decompose_sub (n : node) : strings_sub (decompose_junk n) n.
Proof.
  induction n as [k s | nm a cs IH] using TreeMore.node_nested_ind;
    [now intros s0|].
  rewrite TreeMore.decompose_junk_Tag. intros s Hs.
  apply strings_of_Tag in Hs as (c' & Hc' & Hs). apply strings_of_Tag.
  apply in_map_iff in Hc' as (c & <- & Hc). apply List.filter_In in Hc as [Hc _].
  exists c. split; [exact Hc|]. rewrite List.Forall_forall in IH.
  now apply (IH c Hc).
Qed.

Lemma text_sub (n : node) (s : pystr) : s ∈ text_strings n -> s ∈ strings_of n.
Proof.
  unfold text_strings, strings_of. rewrite !list_elem_of_omap.
  intros (d & Hd & E). exists d. split; [now apply list_elem_of_further|].
  destruct d as [[| |] s'|]; congruence.
Qed.

Lemma join_Forall (Q : ascii -> Prop) (sep : pystr) (parts : list pystr) :
  Forall Q sep -> Forall (Forall Q) parts -> Forall Q (Py.join sep parts).
Proof.
  intros Hsep H. induction H as [|p ps Hp Hps IH]; [constructor|].
  destruct ps as [|p' ps]; [exact Hp|].
  change (Py.join sep (p :: p' :: ps)) with (p ++ sep ++ Py.join sep (p' :: ps)).
  apply Forall_app. split; [exact Hp|]. apply Forall_app. now split.
Qed.

Lemma strip_Forall (Q : ascii -> Prop) (s : pystr) :
  Forall Q s -> Forall Q (Py.strip s).
Proof.
  intros H. destruct (PyFacts.strip_infix s) as (l & r & E). rewrite E in H.
  apply Forall_app in H as [_ H]. now apply Forall_app in H as [H _].
Qed.

Lemma rstrip_Forall (Q : ascii -> Prop) (s : pystr) :
  Forall Q s -> Forall Q (Py.rstrip s).
Proof.
  intros H. destruct (PyFacts.rstrip_prefix s) as (r & E). rewrite E in H.
  now apply Forall_app in H as [H _].
Qed.

Lemma filter_Forall {A} (P : A -> Prop) (f : A -> bool) (l : list A) :
  Forall P l -> Forall P (List.filter f l).
Proof.
  induction 1 as [|x l Hx _ IH]; cbn [List.filter]; [constructor|].
  destruct (f x); [now constructor|exact IH].
Qed.

Lemma pipeline_Forall (Q : ascii -> Prop) (s : pystr) :
  Q SP -> Q NL -> Forall Q s -> Forall Q (pipeline s).
Proof.
  intros Hsp Hnl H. unfold pipeline. cbv zeta. rewrite ReFacts.sub_nl3_cap.
  apply ReFacts.cap_nl_Forall, ReFacts.sub_nl_pad_Forall; [exact Hsp|].
  apply ReFacts.sub_hspace_Forall; [exact Hsp|].
  apply NormalizeMore.replace_Forall; [now constructor|].
  apply NormalizeMore.replace_Forall; [now constructor|exact H].
Qed.

Lemma normalize_Forall (Q : ascii -> Prop) (s : pystr) :
  Q SP -> Q NL -> Forall Q s -> Forall Q (normalize s).
Proof.
  intros Hsp Hnl H. unfold normalize. apply Forall_app. split.
  - now apply strip_Forall, pipeline_Forall.
  - now constructor.
Qed.

Section Within.

Variable m : node.

Lemma strings_from (l : list pystr) :
  (forall s, s ∈ l -> s ∈ strings_of m) -> Forall (Forall (from_page m)) l.
Proof.
  intros H. apply Forall_forall. intros s Hs. apply Forall_forall. intros c Hc.
  right. right. exists s. split; [now apply H|exact Hc].
Qed.

Lemma get_text_from (sep : pystr) (strip : bool) (n : node) :
  strings_sub n m -> Forall (from_page m) sep ->
  Forall (from_page m) (get_text sep strip n).
Proof.
  intros Hsub Hsep. unfold get_text. apply join_Forall; [exact Hsep|].
  assert (H : Forall (Forall (from_page m)) (text_strings n)).
  { apply strings_from. intros s Hs. now apply Hsub, text_sub. }
  destruct strip; [|exact H]. apply filter_Forall.
  apply Forall_map. eapply Forall_impl; [exact H|]. apply strip_Forall.
Qed.

Lemma ws_from (c : ascii) : Py.isspace c = true -> from_page m c.
Proof. now left. Qed.

Lemma mark_from (c : ascii) : c ∈ MARKS -> from_page m c.
Proof. right. now left. Qed.

Lemma table_from (el : node) :
  strings_sub el m -> Forall (from_page m) (table_to_text el).
Proof.
  intros Hsub. unfold table_to_text, table_rows.
  apply join_Forall; [constructor; [now apply ws_from|constructor]|].
  apply Forall_map, filter_Forall, Forall_map.
  apply List.Forall_forall. intros tr Htr.
  apply List.filter_In in Htr as [Htr _].
  apply join_Forall.
  - constructor; [now apply ws_from|].
    constructor; [apply mark_from; do 3 apply list_elem_of_further;
                  apply list_elem_of_here|].
    constructor; [now apply ws_from|constructor].
  - unfold row_cells. apply Forall_map. apply List.Forall_forall.
    intros cell Hcell. apply List.filter_In in Hcell as [Hcell _].
    apply get_text_from; [|constructor; [now apply ws_from|constructor]].
    intros s Hs. now apply Hsub, (desc_sub el tr Htr), (desc_sub tr cell Hcell).
Qed.

Lemma emit_from (Q : ascii -> Prop) (txt : pystr) :
  Forall Q txt -> Forall (Forall Q) (emit txt).
Proof.
  intros H. unfold emit. destruct (bool_decide _); repeat constructor. exact H.
Qed.

End Within.

Ltac chars :=
  repeat match goal with
         | |- Forall _ (_ ++ _) => apply Forall_app; split
         | |- Forall _ (repeat _ _) => apply ReFacts.Forall_repeat
         | |- Forall _ (str _) => unfold str; cbn [list_ascii_of_string]
         | |- Forall _ (_ :: _) => apply List.Forall_cons
         | |- Forall _ [] => apply List.Forall_nil
         | |- from_page _ _ =>
             first [ apply ws_from; reflexivity
                   | apply mark_from; unfold MARKS, str;
                     cbn [list_ascii_of_string];
                     solve [repeat first [apply list_elem_of_here
                                         |apply list_elem_of_further]] ]
         end.

Lemma walk_from (el : node) : Forall (Forall (from_page el)) (walk el).
Proof.
  induction el as [k s | nm attrs cs IH] using TreeMore.node_nested_ind.
  - cbn [walk]. apply emit_from, Forall_forall. intros c Hc.
    right. right. exists s. split; [|exact Hc].
    unfold strings_of. cbn. apply list_elem_of_here.
  - set (el := Tag nm attrs cs).
    assert (Hself : strings_sub el el) by now intros s.
    assert (Hkids : Forall (fun c => Forall (Forall (from_page el)) (walk c)) cs).
    { apply List.Forall_forall. intros c Hc. rewrite List.Forall_forall in IH.
      eapply Forall_impl; [exact (IH c Hc)|]. intros t Ht.
      eapply Forall_impl; [exact Ht|]. intros x.
      apply from_page_mono, child_sub, Hc. }
    pose proof (get_text_from el [SP] true el Hself) as Hsp.
    pose proof (get_text_from el [NL] false el Hself) as Hnl.
    pose proof (table_from el el Hself) as Htab.
    assert (Hsp' : Forall (from_page el) (get_text [SP] true el))
      by (apply Hsp; chars).
    assert (Hnl' : Forall (from_page el) (get_text [NL] false el))
      by (apply Hnl; chars).
    clear Hsp Hnl IH Hself. unfold el at 2. cbn [walk]. fold el.
    destruct (bool_decide (_ ∈ [str "nav"; str "header"; str "footer"]));
      [constructor|].
    destruct (existsb _ NAV_CLASSES); [constructor|].
    destruct (bool_decide (_ ∈ JUNK_TAGS)); [constructor|].
    destruct (List.find _ HEADINGS) as [[h level]|].
    { apply emit_from. chars. exact Hsp'. }
    destruct (bool_decide (_ = str "pre")).
    { apply emit_from. chars. now apply rstrip_Forall. }
    destruct (bool_decide (_ = str "table")).
    { apply emit_from. chars. exact Htab. }
    destruct (bool_decide (_ = str "br")).
    { apply emit_from. chars. }
    destruct (bool_decide (_ = str "li")).
    { destruct (bool_decide (_ = [])); [constructor|].
      apply emit_from. chars. exact Hsp'. }
    destruct (bool_decide (_ = str "hr")).
    { apply emit_from. chars. }
    assert (Hb : forall b : bool,
              Forall (Forall (from_page el)) (if b then emit [NL] else []))
      by (intros []; [apply emit_from; chars|constructor]).
    apply Forall_app. split; [apply Hb|]. apply Forall_app. split; [|apply Hb].
    clear -Hkids. generalize dependent (from_page el). intros Q Hkids.
    induction Hkids as [|c cs Hc _ IHcs]; [constructor|].
    apply Forall_app. now split.
Qed.

End ProvenanceFacts.

(** X13.  The text of a page holds nothing but the text of the page:
    every character that [html_to_text] returns is whitespace, one of
    the markup characters [#], [-], [`] and [|] that the conversion
    writes, or a character of a string of the parsed document; no tag
    name and no attribute value gets into the text. *)
Theorem html_to_text_provenance
    (html_parser : pystr -> Bs4.node) (html : pystr) :
  Forall (Provenance.from_page (html_parser html))
         (html_to_text html_parser html).
Proof.
  unfold html_to_text, soup_to_text. cbv zeta.
  set (soup := html_parser html).
  apply ProvenanceFacts.normalize_Forall; [now left|now left|].
  apply Forall_concat.
  pose proof (ProvenanceFacts.walk_from (pick_main_content (decompose_junk soup)))
    as H.
  eapply Forall_impl; [exact H|]. intros t Ht.
  eapply Forall_impl; [exact Ht|]. intros c.
  apply ProvenanceFacts.from_page_mono. intros s Hs.
  apply ProvenanceFacts.decompose_sub.
  destruct (TreeMore.pick_main_content_cases (decompose_junk soup)) as [E | [Hd _]].
  - now rewrite E in Hs.
  - apply list_elem_of_In in Hd.
    now apply (ProvenanceFacts.desc_sub _ _ Hd).
Qed.

(** ** More on the crawl loop *)
Section CrawlMore.

Variable ck : pystr -> bool.
Variable html_parser : pystr -> Bs4.node.
Variable network : nat -> pystr -> Z -> option Requests.Response.
Variable disk_ok : Pathlib.PurePath -> bool.
Variable set_order : nat -> gset pystr -> list pystr.
Variable cfg : Config.

Abbreviation loop_body := (loop_body ck html_parser network disk_ok set_order cfg).
Abbreviation reachable := (reachable ck html_parser network disk_ok set_order cfg).
Abbreviation visited := (visited ck html_parser network disk_ok set_order cfg).
Abbreviation consistent := (Trace.consistent html_parser network disk_ok cfg).
Abbreviation write_ok := (Trace.write_ok html_parser network disk_ok cfg).

Lemma fetched_cons (e : event) (tr : list event) :
  Trace.fetched (e :: tr)
  = match e with Fetch url => url :: Trace.fetched tr | _ => Trace.fetched tr end.
Proof. now destruct e. Qed.

Lemma writes_cons (e : event) (tr : list event) :
  Trace.writes (e :: tr)
  = match e with Write _ _ _ => S (Trace.writes tr) | _ => Trace.writes tr end.
Proof. now destruct e. Qed.

(** A request keeps its number when the run goes on. *)
Lemma request_app (new tr : list event) (k : nat) (u : pystr) :
  Trace.request tr k = Some u -> Trace.request (new ++ tr) k = Some u.
Proof.
  unfold Trace.request, Trace.fetched. rewrite omap_app, rev_app_distr.
  apply lookup_app_l_Some.
Qed.

(** The request just made has the number that [gets] had. *)
Lemma request_last (new tr : list event) (url : pystr) :
  Trace.fetched new = [] ->
  Trace.request (new ++ Fetch url :: tr) (length (Trace.fetched tr)) = Some url.
Proof.
  intros Hnew. unfold Trace.request.
  assert (Trace.fetched (new ++ Fetch url :: tr) = url :: Trace.fetched tr) as ->.
  { unfold Trace.fetched in *. rewrite omap_app, Hnew. reflexivity. }
  cbn [rev]. apply list_lookup_middle. now rewrite length_rev.
Qed.

Lemma write_ok_later (new tr : list event) (e : event) :
  write_ok tr e -> write_ok (new ++ tr) e.
Proof.
  destruct e as [url|url|url p text]; cbn; auto.
  intros (H1 & H2 & k & html & Hk & H3). split; [exact H1|]. split; [exact H2|].
  exists k, html. split; [now apply request_app|exact H3].
Qed.

Lemma consistent_init : consistent (init cfg).
Proof.
  unfold Trace.consistent. cbn. repeat split; auto using NoDup_nil_2.
  intros u Hu. now apply elem_of_nil in Hu.
Qed.

Lemma consistent_body (st st' : state) :
  consistent st ->
  loop_body st = Next st' \/ loop_body st = Crash st' ->
  consistent st'.
Proof.
  intros (Hnd & Hsub & Hsaved & Hgets & Hle & Hw). unfold loop_body.
  destruct (q st) as [|url q1].
  { intros [[= <-] | [=]]. repeat split; assumption. }
  destruct (bool_decide (url ∈ seen st)) eqn:Hseen.
  { intros [[= <-] | [=]]. repeat split; assumption. }
  apply bool_decide_eq_false_1 in Hseen. cbv zeta.
  assert (Hfresh : url ∉ Trace.fetched (trace st))
    by (intros H; now apply Hseen, Hsub).
  assert (Hsub' : forall u, u ∈ Trace.fetched (trace st) -> u ∈ {[url]} ∪ seen st)
    by (intros u Hu; apply elem_of_union_r; now apply Hsub).
  assert (Hsub'' : forall u, u ∈ url :: Trace.fetched (trace st) ->
                             u ∈ {[url]} ∪ seen st).
  { intros u Hu. apply elem_of_cons in Hu as [-> | Hu]; [|now apply Hsub'].
    now apply elem_of_union_l, elem_of_singleton. }
  assert (Hnd' : NoDup (url :: Trace.fetched (trace st)))
    by now apply NoDup_cons_2.
  assert (Hw' : forall new,
            Forall (write_ok (new ++ trace st)) (trace st)).
  { intros new. eapply Forall_impl; [exact Hw|]. intros e.
    apply write_ok_later. }
  destruct (negb (is_within_root url (root cfg))).
  { intros [[= <-] | [=]]. repeat split; assumption. }
  destruct (should_skip_url ck url) as [[|]|].
  2:{ destruct (fetch (network (gets st)) url (timeout cfg)) as [html|] eqn:Hf.
      2:{ intros [[= <-] | [=]]. unfold Trace.consistent.
          cbn [trace seen saved gets]. rewrite ?fetched_cons, ?writes_cons.
          cbn [length]. repeat split; try assumption; try lia.
          constructor; [exact I|]. constructor; [exact I|].
          apply (Hw' [FetchFailed url; Fetch url]). }
      destruct (url_to_outpath url (root cfg) (outdir cfg)) as [outpath|] eqn:Hp.
      2:{ intros [[=] | [= <-]]. unfold Trace.consistent.
          cbn [trace seen saved gets]. rewrite ?fetched_cons, ?writes_cons.
          cbn [length]. repeat split; try assumption; try lia.
          constructor; [exact I|apply (Hw' [Fetch url])]. }
      destruct (disk_ok outpath) eqn:Hd; cbn [negb].
      2:{ intros [[=] | [= <-]]. unfold Trace.consistent.
          cbn [trace seen saved gets]. rewrite ?fetched_cons, ?writes_cons.
          cbn [length]. repeat split; try assumption; try lia.
          constructor; [exact I|apply (Hw' [Fetch url])]. }
      assert (Hany : forall q2,
                consistent
                  {| q := q2; seen := {[url]} ∪ seen st; saved := (saved st + 1)%Z;
                     gets := S (gets st);
                     trace := Write url outpath (html_to_text html_parser html)
                                :: Fetch url :: trace st |}).
      { intros q2. unfold Trace.consistent.
        cbn [trace seen saved gets]. rewrite ?fetched_cons, ?writes_cons.
        cbn [length]. repeat split; try assumption; try lia.
        constructor;
          [|constructor;
            [exact I
            |apply (Hw' [Write url outpath (html_to_text html_parser html);
                         Fetch url])]].
        split; [exact Hp|]. split; [exact Hd|].
        exists (gets st), html. split; [|now split]. rewrite Hgets.
        apply (request_last [Write url outpath (html_to_text html_parser html)]).
        reflexivity. }
      destruct (Pathlib.relative_to outpath (outdir cfg));
        [|intros [[=] | [= <-]]; apply Hany].
      destruct (extract_links ck html_parser html url);
        [|intros [[=] | [= <-]]; apply Hany].
      destruct (enqueue ck cfg _ _ q1);
        intros [[= <-] | [= <-]]; apply Hany. }
  - intros [[= <-] | [=]]. repeat split; assumption.
  - intros [[=] | [= <-]]. repeat split; assumption.
Qed.

Lemma visited_consistent (st : state) : visited st -> consistent st.
Proof.
  assert (Hr : forall s, reachable s -> consistent s).
  { induction 1 as [|s s' _ IH _ Hb]; [apply consistent_init|].
    apply (consistent_body s); auto. }
  intros [H | (st0 & H & _ & Hb)]; [now apply Hr|].
  apply (consistent_body st0); auto.
Qed.

(** *** Where the URLs come from *)

Abbreviation linked := (Trace.linked ck html_parser network cfg).
Abbreviation all_linked := (Trace.all_linked ck html_parser network cfg).

(** The order of a set lists its members. *)
Hypothesis set_order_members :
  forall n links, set_order n links ≡ₚ elements links.

Lemma linked_later (new : list event) (st st' : state) (u : pystr) :
  trace st' = new ++ trace st -> linked st u -> linked st' u.
Proof.
  intros Et [H | (k & url & html & links & Hk & H)]; [now left|].
  right. exists k, url, html, links. split; [|exact H].
  rewrite Et. now apply request_app.
Qed.

(** A pass that takes [url] from the queue, adds events about [url]
    only, and queues linked URLs only. *)
Lemma all_linked_step (st st' : state) (url : pystr) (q1 : list pystr)
    (new : list event) :
  all_linked st -> q st = url :: q1 ->
  trace st' = new ++ trace st -> Forall (fun e => event_url e = url) new ->
  (forall u, u ∈ q st' -> u ∈ q1 \/ linked st' u) ->
  all_linked st'.
Proof.
  intros [Hq Ht] Eq Et Hnew Hq'.
  assert (Hm : forall u, linked st u -> linked st' u)
    by (intros u; now apply (linked_later new)).
  split.
  - intros u Hu. destruct (Hq' u Hu) as [H | H]; [|exact H].
    apply Hm, Hq. rewrite Eq. now apply list_elem_of_further.
  - intros e He. rewrite Et in He. apply elem_of_app in He as [He | He].
    + rewrite (proj1 (Forall_forall _ _) Hnew e He). apply Hm, Hq.
      rewrite Eq. apply list_elem_of_here.
    + now apply Hm, Ht.
Qed.

Lemma all_linked_init : all_linked (init cfg).
Proof.
  split.
  - intros u Hu. cbn in Hu. apply list_elem_of_singleton in Hu. now left.
  - intros e He. cbn in He. now apply elem_of_nil in He.
Qed.

Lemma all_linked_body (st st' : state) :
  Trace.consistent html_parser network disk_ok cfg st ->
  all_linked st ->
  loop_body st = Next st' \/ loop_body st = Crash st' ->
  all_linked st'.
Proof.
  intros (_ & _ & _ & Hgets & _) Hinv. unfold loop_body.
  destruct (q st) as [|url q1] eqn:Eq.
  { now intros [[= <-] | [=]]. }
  assert (Hsame : forall st' new,
            q st' = q1 -> trace st' = new ++ trace st ->
            Forall (fun e => event_url e = url) new -> all_linked st').
  { intros s new E1 E3 E4. apply (all_linked_step st s url q1 new); auto.
    intros u Hu. left. now rewrite <- E1. }
  destruct (bool_decide (url ∈ seen st)).
  { intros [[= <-] | [=]]. now apply (Hsame _ []). }
  cbv zeta. destruct (negb (is_within_root url (root cfg))).
  { intros [[= <-] | [=]]. now apply (Hsame _ []). }
  destruct (should_skip_url ck url) as [[|]|].
  - intros [[= <-] | [=]]. now apply (Hsame _ []).
  - destruct (fetch (network (gets st)) url (timeout cfg)) as [html|] eqn:Hf.
    2:{ intros [[= <-] | [=]].
        apply (Hsame _ [FetchFailed url; Fetch url]); cbn; auto. }
    destruct (url_to_outpath url (root cfg) (outdir cfg)) as [outpath|].
    2:{ intros [[=] | [= <-]]. apply (Hsame _ [Fetch url]); cbn; auto. }
    destruct (negb (disk_ok outpath)).
    { intros [[=] | [= <-]]. apply (Hsame _ [Fetch url]); cbn; auto. }
    set (text := html_to_text html_parser html).
    assert (Hw : forall q2,
              q2 = q1 ->
              all_linked
                {| q := q2; seen := {[url]} ∪ seen st; saved := (saved st + 1)%Z;
                   gets := S (gets st);
                   trace := Write url outpath text :: Fetch url :: trace st |}).
    { intros q2 ->. apply (Hsame _ [Write url outpath text; Fetch url]); cbn; auto. }
    destruct (Pathlib.relative_to outpath (outdir cfg));
      [|intros [[=] | [= <-]]; now apply Hw].
    destruct (extract_links ck html_parser html url) as [links|] eqn:Hl;
      [|intros [[=] | [= <-]]; now apply Hw].
    assert (Hlinks : forall (q2 : list pystr) u,
              u ∈ set_order (gets st) links ->
              linked
                {| q := q2; seen := {[url]} ∪ seen st; saved := (saved st + 1)%Z;
                   gets := S (gets st);
                   trace := Write url outpath text :: Fetch url :: trace st |} u).
    { intros q2 u Hu. right. exists (gets st), url, html, links. cbn [trace].
      split; [rewrite Hgets; now apply (request_last [Write url outpath text])|].
      split; [exact Hf|]. split; [exact Hl|].
      rewrite (set_order_members (gets st) links) in Hu.
      now apply elem_of_elements in Hu. }
    destruct (enqueue ck cfg _ _ q1) as [q2|] eqn:He; intros [[= <-] | [= <-]];
      apply (all_linked_step st _ url q1 [Write url outpath text; Fetch url]);
      cbn [trace q app]; auto; intros u Hu.
    + destruct (enqueue_spec _ _ _ _ _ _ He u Hu) as [H | (H & _)];
        [now left|right; now apply Hlinks].
    + destruct (enqueue_reached_spec _ _ _ _ _ u Hu) as [H | (H & _)];
        [now left|right; now apply Hlinks].
  - intros [[=] | [= <-]]. now apply (Hsame _ []).
Qed.

Lemma visited_all_linked (st : state) : visited st -> all_linked st.
Proof.
  assert (Hr : forall s, reachable s -> all_linked s).
  { induction 1 as [|s s' Hs IH _ Hb]; [apply all_linked_init|].
    apply (all_linked_body s); auto.
    apply visited_consistent. now left. }
  intros [H | (st0 & H & _ & Hb)]; [now apply Hr|].
  apply (all_linked_body st0); auto.
  apply visited_consistent. now left.
Qed.

Lemma run_unfold (fuel : nat) (st : state) :
  run ck html_parser network disk_ok set_order cfg (S fuel) st =
  if loop_cond cfg st then
    match loop_body st with
    | Next st' => run ck html_parser network disk_ok set_order cfg fuel st'
    | Crash st' => Aborted st'
    end
  else Done st.
Proof. reflexivity. Qed.

End CrawlMore.

(** X14.  No URL is requested twice in a run: whatever the order in
    which the sets of links are iterated, in every state of a run, at
    the head of the loop or where a pass raises, the URLs requested so
    far are pairwise different, and each of them is in the set of
    visited URLs. *)
Theorem crawl_fetches_once
    (ck : pystr -> bool) (html_parser : pystr -> Bs4.node)
    (network : nat -> pystr -> Z -> option Requests.Response)
    (disk_ok : Pathlib.PurePath -> bool)
    (set_order : nat -> gset pystr -> list pystr) (cfg : Config) (st : state) :
  visited ck html_parser network disk_ok set_order cfg st ->
  NoDup (Trace.fetched (trace st))
  /\ Forall (fun u => u ∈ seen st) (Trace.fetched (trace st)).
Proof.
  intros Hv.
  destruct (visited_consistent ck html_parser network disk_ok set_order cfg st Hv)
    as (H1 & H2 & _).
  split; [exact H1|]. now apply Forall_forall.
Qed.

(** The crawl of the example site: every page links to [b.html] and
    [c.html], which are queued twice and requested once each, in the
    order in which the set yields them. *)
Lemma crawl_fetches_once_witness :
  Trace.fetched (trace (Examples.crawl Examples.reversed_order Examples.site_cfg 10))
  = [str "https://site/root/c.html"; str "https://site/root/b.html";
     str "https://site/root/index.html"]
  /\ NoDup (Trace.fetched
              (trace (Examples.crawl Examples.reversed_order Examples.site_cfg 10)))
  /\ Forall (fun u => u ∈ seen (Examples.crawl Examples.reversed_order
                                   Examples.site_cfg 10))
            (Trace.fetched
               (trace (Examples.crawl Examples.reversed_order Examples.site_cfg 10))).
Proof.
  split; [vm_compute; reflexivity|].
  apply (crawl_fetches_once Examples.any_host Examples.two_links_parser
           Examples.ok_network Examples.ok_disk Examples.reversed_order
           Examples.site_cfg).
  apply run_visited, reach_init.
Defined.

(** X15.  The counters of a run are exact, whatever the order in which
    the sets of links are iterated: the count of saved pages is the
    number of files written, the number of requests is the number of
    URLs requested, and the pages saved are at most the requests made,
    which are at most the URLs visited; so the closing message never
    reports more saved files than visited pages. *)
Theorem crawl_counters
    (ck : pystr -> bool) (html_parser : pystr -> Bs4.node)
    (network : nat -> pystr -> Z -> option Requests.Response)
    (disk_ok : Pathlib.PurePath -> bool)
    (set_order : nat -> gset pystr -> list pystr) (cfg : Config) (st : state) :
  visited ck html_parser network disk_ok set_order cfg st ->
  saved st = Z.of_nat (Trace.writes (trace st))
  /\ gets st = length (Trace.fetched (trace st))
  /\ (saved st <= Z.of_nat (gets st) <= Z.of_nat (size (seen st)))%Z.
Proof.
  intros Hv.
  destruct (visited_consistent ck html_parser network disk_ok set_order cfg st Hv)
    as (H1 & H2 & H3 & H4 & H5 & _).
  split; [exact H3|]. split; [exact H4|]. rewrite H3, H4. split; [lia|].
  apply inj_le. rewrite <- (size_list_to_set (C := gset pystr) _ H1).
  apply subseteq_size. intros u Hu. apply elem_of_list_to_set in Hu.
  now apply H2.
Qed.

Lemma crawl_counters_witness :
  saved (Examples.crawl Examples.reversed_order Examples.site_cfg 10) = 3%Z
  /\ gets (Examples.crawl Examples.reversed_order Examples.site_cfg 10) = 3
  /\ (3 <= 3 <= Z.of_nat (size (seen (Examples.crawl Examples.reversed_order
                                        Examples.site_cfg 10))))%Z.
Proof.
  apply (crawl_counters Examples.any_host Examples.two_links_parser
           Examples.ok_network Examples.ok_disk Examples.reversed_order
           Examples.site_cfg
           (Examples.crawl Examples.reversed_order Examples.site_cfg 10)).
  apply run_visited, reach_init.
Defined.

(** X16.  What is written comes from what was fetched, whatever the
    order in which the sets of links are iterated: every file written
    in a run is written to the path that [url_to_outpath] gives for
    its URL, and its text is [html_to_text] of the body that the
    network returned to the request made for that URL, with a status
    that [raise_for_status] accepts.  The request is the [k]-th of the
    run, the one answered by [network k], and it is the only request
    made for that URL. *)
Theorem crawl_write_provenance
    (ck : pystr -> bool) (html_parser : pystr -> Bs4.node)
    (network : nat -> pystr -> Z -> option Requests.Response)
    (disk_ok : Pathlib.PurePath -> bool)
    (set_order : nat -> gset pystr -> list pystr) (cfg : Config) (st : state)
    (url : pystr) (outpath : Pathlib.PurePath) (text : pystr) :
  visited ck html_parser network disk_ok set_order cfg st ->
  Write url outpath text ∈ trace st ->
  url_to_outpath url (root cfg) (outdir cfg) = Some outpath
  /\ disk_ok outpath = true
  /\ exists k r,
       Trace.request (trace st) k = Some url
       /\ (forall k', Trace.request (trace st) k' = Some url -> k' = k)
       /\ network k url (timeout cfg) = Some r
       /\ Requests.raise_for_status r = false
       /\ text = html_to_text html_parser (Requests.text r).
Proof.
  intros Hv Hin.
  destruct (visited_consistent ck html_parser network disk_ok set_order cfg st Hv)
    as (Hnd & _ & _ & _ & _ & Hw).
  apply (proj1 (Forall_forall _ _) Hw) in Hin.
  destruct Hin as (H1 & H2 & k & html & Hk & Hf & ->).
  split; [exact H1|]. split; [exact H2|]. unfold fetch in Hf.
  destruct (network k url (timeout cfg)) as [r|] eqn:E; [|discriminate].
  destruct (Requests.raise_for_status r) eqn:Er; [discriminate|].
  injection Hf as <-. exists k, r. split; [exact Hk|]. split; [|now split].
  intros k' Hk'. unfold Trace.request in *.
  apply (NoDup_lookup (rev (Trace.fetched (trace st))) k' k url);
    [|exact Hk'|exact Hk].
  apply NoDup_ListNoDup, List.NoDup_rev, NoDup_ListNoDup. exact Hnd.
Qed.

(** In the crawl of the example site the page [b.html] is the second
    request when the set yields it first. *)
Lemma crawl_write_provenance_witness :
  url_to_outpath (str "https://site/root/b.html") (str "https://site/root/")
                 (Pathlib.parse (str "/out"))
  = Some (Pathlib.parse (str "/out/b.txt"))
  /\ Examples.ok_disk (Pathlib.parse (str "/out/b.txt")) = true
  /\ exists k r,
       Trace.request
         (trace (Examples.crawl Examples.reversed_order Examples.site_cfg 10)) k
       = Some (str "https://site/root/b.html")
       /\ (forall k',
             Trace.request
               (trace (Examples.crawl Examples.reversed_order Examples.site_cfg 10)) k'
             = Some (str "https://site/root/b.html") -> k' = k)
       /\ Examples.ok_network k (str "https://site/root/b.html") 30 = Some r
       /\ Requests.raise_for_status r = false
       /\ str "bc" ++ [NL]
          = html_to_text Examples.two_links_parser (Requests.text r).
Proof.
  apply (crawl_write_provenance Examples.any_host Examples.two_links_parser
           Examples.ok_network Examples.ok_disk Examples.reversed_order
           Examples.site_cfg
           (Examples.crawl Examples.reversed_order Examples.site_cfg 10)).
  - apply run_visited, reach_init.
  - vm_compute. do 2 apply list_elem_of_further. apply list_elem_of_here.
Defined.

(** X17.  A start URL that is outside the root, or that has a skip
    extension, ends the run after one pass: with a positive page limit
    [main] leaves the loop with the start URL visited, the queue
    empty, no request made and nothing written. *)
Theorem crawl_start_rejected
    (ck : pystr -> bool) (html_parser : pystr -> Bs4.node)
    (network : nat -> pystr -> Z -> option Requests.Response)
    (disk_ok : Pathlib.PurePath -> bool)
    (set_order : nat -> gset pystr -> list pystr) (cfg : Config) (fuel : nat) :
  (0 < max_pages cfg)%Z ->
  is_within_root (start cfg) (root cfg) = false
  \/ should_skip_url ck (start cfg) = Some true ->
  main ck html_parser network disk_ok set_order cfg (S fuel)
  = Done {| q := []; seen := {[start cfg]}; saved := 0; gets := 0; trace := [] |}.
Proof.
  intros Hmax Hrej. unfold main. rewrite run_unfold.
  assert (Hc : loop_cond cfg (init cfg) = true).
  { unfold loop_cond. cbn [init q saved]. apply andb_true_iff. split;
      [reflexivity|now apply Z.ltb_lt]. }
  rewrite Hc.
  assert (Hb : loop_body ck html_parser network disk_ok set_order cfg (init cfg)
               = Next {| q := []; seen := {[start cfg]}; saved := 0; gets := 0;
                         trace := [] |}).
  { unfold loop_body. cbn [init q seen saved gets trace].
    rewrite bool_decide_eq_false_2 by apply not_elem_of_empty.
    cbv zeta. rewrite (right_id_L ∅ (∪)).
    destruct (is_within_root (start cfg) (root cfg)) eqn:Hr; cbn [negb];
      [|reflexivity].
    destruct Hrej as [Hrej | Hrej]; [discriminate|]. now rewrite Hrej. }
  rewrite Hb. now destruct fuel.
Qed.

Lemma crawl_start_rejected_witness :
  main Examples.any_host Examples.empty_parser Examples.ok_network
       Examples.ok_disk Examples.listed_order
       {| start := str "https://other/index.html"; root := str "https://site/root/";
          outdir := Pathlib.parse (str "/out"); max_pages := 500; timeout := 30 |}
       1
  = Done {| q := []; seen := {[ str "https://other/index.html" ]}; saved := 0;
            gets := 0; trace := [] |}.
Proof.
  apply (crawl_start_rejected Examples.any_host Examples.empty_parser
           Examples.ok_network Examples.ok_disk Examples.listed_order
           {| start := str "https://other/index.html";
              root := str "https://site/root/";
              outdir := Pathlib.parse (str "/out"); max_pages := 500;
              timeout := 30 |} 0); [reflexivity|now left].
Defined.

(** X18.  The loop of lines 246-248 only appends to the queue: what
    was queued stays in front and in order, and behind it come,
    in the order in which the links are met, exactly the links that
    are not yet visited, are within the root and are not skipped. *)
Theorem enqueue_appends
    (ck : pystr -> bool) (cfg : Config) (seen : gset pystr)
    (links q q' : list pystr) :
  enqueue ck cfg seen links q = Some q' ->
  q' = q ++ List.filter
              (fun link => negb (bool_decide (link ∈ seen))
                           && is_within_root link (root cfg)
                           && bool_decide (should_skip_url ck link = Some false))
              links.
Proof.
  revert q. induction links as [|l links IH]; intros q; cbn [enqueue List.filter].
  - intros [= <-]. now rewrite app_nil_r.
  - destruct (negb (bool_decide (l ∈ seen)) && is_within_root l (root cfg));
      cbn [andb]; [|apply IH].
    destruct (should_skip_url ck l) as [[|]|]; [apply IH| |discriminate].
    rewrite bool_decide_eq_true_2 by reflexivity.
    intros H. rewrite (IH _ H), <- app_assoc. reflexivity.
Qed.

Lemma enqueue_appends_witness :
  [str "https://site/root/a.html"; str "https://site/root/b.html"]
  = [str "https://site/root/a.html"]
    ++ List.filter
         (fun link => negb (bool_decide (link ∈ ({[ str "https://site/root/a.html" ]} : gset pystr)))
                      && is_within_root link (root Examples.site_cfg)
                      && bool_decide (should_skip_url Examples.any_host link
                                      = Some false))
         [str "https://site/root/a.html"; str "https://site/root/style.css";
          str "https://other/c.html"; str "https://site/root/b.html"].
Proof.
  apply (enqueue_appends Examples.any_host Examples.site_cfg).
  vm_compute. reflexivity.
Defined.

(** X19.  The crawl follows links only: when the order in which a
    set is iterated lists the members of the set, in every state of a
    run every queued URL and every URL that was requested or written
    is the start URL or a link that [extract_links] returned for the
    page that an earlier request of the run fetched: the [k]-th
    request, made for [url] and answered by [network k]. *)
Theorem crawl_follows_links
    (ck : pystr -> bool) (html_parser : pystr -> Bs4.node)
    (network : nat -> pystr -> Z -> option Requests.Response)
    (disk_ok : Pathlib.PurePath -> bool)
    (set_order : nat -> gset pystr -> list pystr) (cfg : Config) (st : state) :
  (forall n links, set_order n links ≡ₚ elements links) ->
  visited ck html_parser network disk_ok set_order cfg st ->
  let linked (u : pystr) :=
    u = start cfg
    \/ exists k url html links,
         Trace.request (trace st) k = Some url
         /\ fetch (network k) url (timeout cfg) = Some html
         /\ extract_links ck html_parser html url = Some links
         /\ u ∈ links in
  Forall linked (q st) /\ Forall (fun e => linked (event_url e)) (trace st).
Proof.
  intros Ho Hv linked.
  destruct (visited_all_linked ck html_parser network disk_ok set_order cfg Ho st Hv)
    as [H1 H2].
  split; apply Forall_forall; [exact H1|exact H2].
Qed.

(** In the crawl of the example site, after two passes the page
    [c.html] is queued twice: it is a link of the start page and of
    [b.html]. *)
Lemma crawl_follows_links_witness :
  q (Examples.crawl Examples.reversed_order Examples.site_cfg 2)
  = [str "https://site/root/c.html"; str "https://site/root/c.html"]
  /\ Forall (fun u : pystr =>
               u = start Examples.site_cfg
               \/ exists k url html links,
                    Trace.request
                      (trace (Examples.crawl Examples.reversed_order
                                Examples.site_cfg 2)) k = Some url
                    /\ fetch (Examples.ok_network k) url (timeout Examples.site_cfg)
                       = Some html
                    /\ extract_links Examples.any_host Examples.two_links_parser
                                     html url = Some links
                    /\ u ∈ links)
            (q (Examples.crawl Examples.reversed_order Examples.site_cfg 2)).
Proof.
  split; [vm_compute; reflexivity|].
  apply (crawl_follows_links Examples.any_host Examples.two_links_parser
           Examples.ok_network Examples.ok_disk Examples.reversed_order
           Examples.site_cfg
           (Examples.crawl Examples.reversed_order Examples.site_cfg 2)).
  - intros n links. symmetry. apply Permutation_rev.
  - apply run_visited, reach_init.
Defined.

(** ** Targets that differ in the fragment *)
Module FragmentFacts.
Import Urllib UrlSteps.

Abbreviation no_hash := (Forall (fun c : ascii => c <> "#"%char)).

Lemma hash_is_sep : "#"%char = "?"%char \/ "#"%char = "#"%char.
Proof. now right. Qed.

(** A fragment behind a URL without [#] changes the fragment of the
    parsed URL and nothing else. *)
Lemma urlsplit_hash (ck : pystr -> bool) (t f s0 : pystr) :
  no_hash t ->
  urlsplit ck (t ++ "#"%char :: f) s0
  = option_map (fun r => {| s_scheme := s_scheme r; s_netloc := s_netloc r;
                            s_path := s_path r; s_query := s_query r;
                            s_fragment := remove_unsafe f |})
               (urlsplit ck t s0).
Proof.
  intros Ht. rewrite !UrlMore.urlsplit_steps. cbv zeta.
  rewrite (UrlMore.lstrip_c0_tail "#" hash_is_sep),
    (UrlMore.remove_unsafe_tail "#" hash_is_sep).
  set (u := remove_unsafe (lstrip_c0 t)).
  assert (Hu : no_hash u)
    by now apply UrlMore.Forall_filter_keep, UrlMore.lstrip_c0_Forall.
  rewrite (UrlMore.split_scheme_eq "#" hash_is_sep).
  pose proof (UrlMore.split_scheme_Forall _ (remove_unsafe (strip_c0 s0)) u Hu) as H1.
  destruct (split_scheme _ u) as [sch r1]. cbn [fst snd] in *.
  rewrite (UrlMore.split_netloc_eq "#" hash_is_sep).
  pose proof (UrlMore.split_netloc_Forall _ r1 H1) as H2.
  destruct (split_netloc r1) as [nl r2]. cbn [fst snd] in *.
  destruct (_ || _); [reflexivity|]. destruct (_ && _); [reflexivity|].
  rewrite (UrlMore.partition_first "#" r2 _ H2), (UrlMore.partition_absent "#" r2 H2).
  now destruct (partition "?" r2).
Qed.

Lemma urlparse_hash (ck : pystr -> bool) (t f s0 : pystr) :
  no_hash t ->
  urlparse ck (t ++ "#"%char :: f) s0
  = option_map (fun r => {| scheme := scheme r; netloc := netloc r;
                            path := path r; params := params r;
                            query := query r; fragment := remove_unsafe f |})
               (urlparse ck t s0).
Proof.
  intros Ht. unfold urlparse. rewrite (urlsplit_hash ck t f s0 Ht).
  destruct (urlsplit ck t s0) as [r|]; [|reflexivity].
  cbn [option_map s_scheme s_netloc s_path s_query s_fragment].
  now destruct (if _ && _ then _ else _).
Qed.

Lemma urlunparse_fragment (sch nl url prm qry frag : pystr) :
  frag <> [] ->
  urlunparse sch nl url prm qry frag
  = urlunparse sch nl url prm qry [] ++ "#"%char :: frag.
Proof.
  intros Hf. unfold urlunparse, urlunsplit. cbv zeta.
  rewrite (bool_decide_eq_false_2 _ Hf), (bool_decide_eq_true_2 ([] = []) eq_refl).
  reflexivity.
Qed.

(** [urldefrag] of a URL with a fragment does not depend on the
    fragment. *)
Lemma urldefrag_hash (ck : pystr -> bool) (x g : pystr) :
  no_hash x ->
  urldefrag ck (x ++ "#"%char :: g)
  = option_map (fun r => urlunparse (scheme r) (netloc r) (path r) (params r)
                                    (query r) [])
               (urlparse ck x []).
Proof.
  intros Hx. unfold urldefrag.
  assert (has "#" (x ++ "#"%char :: g) = true) as ->.
  { unfold has. rewrite existsb_app. cbn [existsb].
    now rewrite Ascii.eqb_refl, orb_true_r. }
  rewrite (urlparse_hash ck x g [] Hx).
  now destruct (urlparse ck x []).
Qed.

(** *** No [#] in a joined path *)

Lemma split_no_hash (c : ascii) (s : pystr) :
  no_hash s -> Forall no_hash (Py.split c s).
Proof.
  induction 1 as [|x s Hx _ IH]; cbn [Py.split]; [repeat constructor|].
  destruct (Ascii.eqb x c); [constructor; [constructor|exact IH]|].
  destruct (Py.split c s) as [|w ws]; [repeat constructor; exact Hx|].
  inversion IH; subst. constructor; [now constructor|assumption].
Qed.

Lemma removelast_Forall {A} (P : A -> Prop) (l : list A) :
  Forall P l -> Forall P (removelast l).
Proof.
  induction 1 as [|x l Hx Hl IH]; [constructor|]. cbn [removelast].
  destruct l; [constructor|]. now constructor.
Qed.

Lemma resolve_segments_no_hash (resolved segments : list pystr) :
  Forall no_hash resolved -> Forall no_hash segments ->
  Forall no_hash (resolve_segments resolved segments).
Proof.
  intros Hr Hs. revert resolved Hr.
  induction Hs as [|seg rest Hseg _ IH]; intros resolved Hr;
    cbn [resolve_segments]; [exact Hr|].
  destruct (bool_decide (seg = str "..")); [now apply IH, removelast_Forall|].
  destruct (bool_decide (seg = str ".")); [now apply IH|].
  apply IH, Forall_app. split; [exact Hr|now constructor].
Qed.

Lemma drop_inner_empty_no_hash (segments : list pystr) :
  Forall no_hash segments -> Forall no_hash (drop_inner_empty segments).
Proof.
  intros H. unfold drop_inner_empty. destruct segments as [|a [|b rest]];
    [constructor|exact H|].
  inversion H as [|? ? Ha Hrest]; subst. constructor; [exact Ha|].
  apply Forall_app. split.
  - now apply UrlMore.Forall_filter_keep, removelast_Forall.
  - constructor; [|constructor].
    apply PathFacts.last_Forall; [constructor|exact Hrest].
Qed.

Lemma strip_c0_no_hash (s : pystr) : no_hash s -> no_hash (strip_c0 s).
Proof.
  intros H. unfold strip_c0.
  apply List.Forall_rev, UrlMore.lstrip_c0_Forall, List.Forall_rev.
  now apply UrlMore.lstrip_c0_Forall.
Qed.

(** *** [urljoin] of a target with a fragment *)

(** For a target without [#], what [urljoin] returns when a fragment
    that is not empty follows the target: nothing when it raises, and
    otherwise a URL without [#] followed by [#] and a fragment. *)
Lemma urljoin_hash (ck : pystr -> bool) (base t : pystr) :
  no_hash t ->
  exists ox : option pystr,
    (forall x, ox = Some x -> no_hash x)
    /\ forall f, remove_unsafe f <> [] ->
         exists g, urljoin ck base (t ++ "#"%char :: f)
                   = option_map (fun x => x ++ "#"%char :: g) ox.
Proof.
  intros Ht.
  assert (Hne : forall f, bool_decide (t ++ "#"%char :: f = []) = false)
    by (intros f; apply bool_decide_eq_false_2; now destruct t).
  assert (Hverb : exists ox : option pystr,
            (forall x, ox = Some x -> no_hash x)
            /\ forall f : pystr, remove_unsafe f <> [] ->
                 exists g, Some (t ++ "#"%char :: f)
                           = option_map (fun x => x ++ "#"%char :: g) ox).
  { exists (Some t). split; [now intros x [= <-]|]. intros f _. now exists f. }
  assert (Hnone : exists ox : option pystr,
            (forall x, ox = Some x -> no_hash x)
            /\ forall f : pystr, remove_unsafe f <> [] ->
                 exists g : pystr, @None pystr
                           = option_map (fun x => x ++ "#"%char :: g) ox).
  { exists None. split; [discriminate|]. intros f _. now exists []. }
  assert (Hun : forall sch nl url prm qry,
            no_hash sch -> no_hash nl -> no_hash url -> no_hash prm ->
            no_hash qry ->
            exists ox : option pystr,
              (forall x, ox = Some x -> no_hash x)
              /\ forall f : pystr, remove_unsafe f <> [] ->
                   exists g, Some (urlunparse sch nl url prm qry (remove_unsafe f))
                             = option_map (fun x => x ++ "#"%char :: g) ox).
  { intros sch nl url prm qry H1 H2 H3 H4 H5.
    exists (Some (urlunparse sch nl url prm qry [])). split.
    - intros x [= <-]. now apply UrlMore.urlunparse_no_hash.
    - intros f Hf. exists (remove_unsafe f). cbn [option_map].
      now rewrite (urlunparse_fragment _ _ _ _ _ _ Hf). }
  unfold urljoin.
  destruct (bool_decide (base = [])).
  { destruct Hverb as (ox & H1 & H2). exists ox. split; [exact H1|].
    intros f Hf. exact (H2 f Hf). }
  destruct (urlparse ck base []) as [b|] eqn:Eb.
  2:{ destruct Hnone as (ox & H1 & H2). exists ox. split; [exact H1|].
      intros f Hf. rewrite Hne. exact (H2 f Hf). }
  destruct (UrlMore.urlparse_no_hash ck base [] b) as (Hb1 & Hb2 & Hb3 & Hb4 & Hb5);
    [constructor|exact Eb|].
  destruct (urlparse ck t (scheme b)) as [u|] eqn:Eu.
  2:{ destruct Hnone as (ox & H1 & H2). exists ox. split; [exact H1|].
      intros f Hf. rewrite Hne, (urlparse_hash ck t f _ Ht), Eu. exact (H2 f Hf). }
  destruct (UrlMore.urlparse_no_hash ck t (scheme b) u) as (Hu1 & Hu2 & Hu3 & Hu4 & Hu5);
    [now apply UrlMore.Forall_filter_keep, strip_c0_no_hash|exact Eu|].
  destruct (negb (bool_decide (scheme u = scheme b))
            || negb (bool_decide (scheme u ∈ uses_relative))) eqn:E1.
  { destruct Hverb as (ox & H1 & H2). exists ox. split; [exact H1|].
    intros f Hf. rewrite Hne, (urlparse_hash ck t f _ Ht), Eu.
    cbn [option_map scheme netloc path params query fragment]. rewrite E1.
    exact (H2 f Hf). }
  destruct (bool_decide (scheme u ∈ uses_netloc)
            && negb (bool_decide (netloc u = []))) eqn:E2.
  { destruct (Hun (scheme u) (netloc u) (path u) (params u) (query u))
      as (ox & H1 & H2); auto.
    exists ox. split; [exact H1|].
    intros f Hf. rewrite Hne, (urlparse_hash ck t f _ Ht), Eu.
    cbn [option_map scheme netloc path params query fragment]. rewrite E1, E2.
    exact (H2 f Hf). }
  set (nl := if bool_decide (scheme u ∈ uses_netloc) then netloc b else netloc u).
  assert (Hnl : no_hash nl)
    by (unfold nl; destruct (bool_decide (scheme u ∈ uses_netloc)); assumption).
  destruct (bool_decide (path u = []) && bool_decide (params u = [])) eqn:E3.
  { set (qry := if bool_decide (query u = []) then query b else query u).
    assert (Hqry : no_hash qry)
      by (unfold qry; destruct (bool_decide (query u = [])); assumption).
    destruct (Hun (scheme u) nl (path b) (params b) qry) as (ox & H1 & H2); auto.
    exists ox. split; [exact H1|].
    intros f Hf. rewrite Hne, (urlparse_hash ck t f _ Ht), Eu.
    cbn [option_map scheme netloc path params query fragment]. rewrite E1, E2, E3.
    cbv zeta. fold nl. fold qry. exact (H2 f Hf). }
  set (base_parts0 := Py.split "/" (path b)).
  set (base_parts := if bool_decide (List.last base_parts0 [] = [])
                     then base_parts0 else removelast base_parts0).
  set (segments := if Py.startswith (path u) (str "/") then Py.split "/" (path u)
                   else drop_inner_empty (base_parts ++ Py.split "/" (path u))).
  set (resolved0 := resolve_segments [] segments).
  set (resolved := if bool_decide (List.last segments [] ∈ [str "."; str ".."])
                   then resolved0 ++ [[]] else resolved0).
  set (joined0 := Py.join (str "/") resolved).
  set (joined := if bool_decide (joined0 = []) then str "/" else joined0).
  assert (Hjoined : no_hash joined).
  { assert (Hbp : Forall no_hash base_parts).
    { unfold base_parts. destruct (bool_decide (List.last base_parts0 [] = []));
        [|apply removelast_Forall]; now apply split_no_hash. }
    assert (Hseg : Forall no_hash segments).
    { unfold segments. destruct (Py.startswith _ _); [now apply split_no_hash|].
      apply drop_inner_empty_no_hash, Forall_app. split; [exact Hbp|].
      now apply split_no_hash. }
    assert (Hres : Forall no_hash resolved).
    { unfold resolved, resolved0.
      destruct (bool_decide (List.last segments [] ∈ [str "."; str ".."])).
      - apply Forall_app. split; [now apply resolve_segments_no_hash|].
        repeat constructor.
      - now apply resolve_segments_no_hash. }
    unfold joined. destruct (bool_decide (joined0 = [])); unfold joined0.
    - repeat constructor. discriminate.
    - apply TableFacts.join_no_char; [repeat constructor; discriminate|exact Hres]. }
  destruct (Hun (scheme u) nl joined (params u) (query u)) as (ox & H1 & H2); auto.
  exists ox. split; [exact H1|].
  intros f Hf. rewrite Hne, (urlparse_hash ck t f _ Ht), Eu.
  cbn [option_map scheme netloc path params query fragment]. rewrite E1, E2, E3.
  cbv zeta. fold nl. fold base_parts0. fold base_parts. fold segments.
  fold resolved0. fold resolved. fold joined0. fold joined. exact (H2 f Hf).
Qed.

End FragmentFacts.

(** X20.  Targets that differ in the fragment only give one link when
    both fragments are there: for a target without [#], followed by
    [#] and a fragment that is not empty once tabs and line ends are
    taken out of it (as [urllib] does), the URL that lines 181-182
    obtain, [urljoin] followed by [urldefrag], does not depend on the
    fragment, and one raises when the other does. *)
Theorem extract_links_fragment_collapse
    (ck : pystr -> bool) (base_url t f1 f2 : pystr) :
  Forall (fun c => c <> "#"%char) t ->
  Urllib.remove_unsafe f1 <> [] -> Urllib.remove_unsafe f2 <> [] ->
  let link (href : pystr) :=
    match Urllib.urljoin ck base_url href with
    | Some abs_url => Urllib.urldefrag ck abs_url
    | None => None
    end in
  link (t ++ "#"%char :: f1) = link (t ++ "#"%char :: f2).
Proof.
  intros Ht H1 H2 link. subst link. cbv beta.
  destruct (FragmentFacts.urljoin_hash ck base_url t Ht) as (ox & Hox & Hj).
  destruct (Hj f1 H1) as [g1 ->]. destruct (Hj f2 H2) as [g2 ->].
  destruct ox as [x|]; [|reflexivity]. cbn [option_map].
  now rewrite !FragmentFacts.urldefrag_hash by now apply Hox.
Qed.

Lemma extract_links_fragment_collapse_witness :
  match Urllib.urljoin Examples.any_host (str "https://site/root/sub/page.html")
                       (str "../x/y.html" ++ "#"%char :: str "frag") with
  | Some abs_url => Urllib.urldefrag Examples.any_host abs_url
  | None => None
  end
  = match Urllib.urljoin Examples.any_host (str "https://site/root/sub/page.html")
                         (str "../x/y.html" ++ "#"%char :: str "other") with
    | Some abs_url => Urllib.urldefrag Examples.any_host abs_url
    | None => None
    end.
Proof.
  apply (extract_links_fragment_collapse Examples.any_host
           (str "https://site/root/sub/page.html") (str "../x/y.html")
           (str "frag") (str "other"));
    [repeat constructor; discriminate|discriminate|discriminate].
Defined.
